(** * BD_Analyzer: the data layer of the back-drill record analyser

    A shallow embedding of the non-visual functions of [BD_Analyzer.py]
    ([parseNumber], [packPos], [prgPos], [loadPrgData], [loadBackDrillData],
    [calc_outliers], [getIntPos], [judgeShift], [calc_shift]) and of what
    the window computes from them ([select_data]'s choice of a run and the
    rework program of [output_prg]), together with the properties the
    specification states about them and further properties of the code.

    Conventions of the embedding:
    - Python [int] is [Z]; Python [float] is the kernel's binary64 [float],
      so every float operation below is the IEEE operation the interpreter
      performs;
    - text is [string] (one [ascii] per character; non-ASCII digits and
      spaces of Unicode are outside the model);
    - a raised exception is the [Err] case of [outcome]; the four explicit
      [raise ValueError(...)] statements of the source are told apart by
      the kind the specification gives them ([RangeError], [NotFoundError],
      [NamingError], [SchemaError]), exceptions raised by built-ins keep
      their Python class;
    - a [dict] is a [gmap], a list indexed by position uses the list lookup
      and insert of stdpp. *)

From Stdlib Require Import ZArith String Ascii List Floats Lia Bool.
From Stdlib Require Import DecimalString.
From stdpp Require Import base option list sorting gmap strings.

Local Open Scope Z_scope.

(* ===================================================================== *)
(** ** Exceptions and results                                             *)
(* ===================================================================== *)

Inductive error : Type :=
| RangeError        (* prgPos: raise ValueError('坐标值过大...') *)
| NotFoundError     (* loadBackDrillData: raise ValueError('未找到加工记录文件路径...') *)
| NamingError       (* loadBackDrillData: raise ValueError('无法通过文件名获取加工日期...') *)
| SchemaError       (* loadBackDrillData: raise ValueError('无法识别的背钻记录文件...') *)
| PyValueError      (* int(), float(), round(nan) *)
| PyOverflowError   (* round(inf), int too large for a float *)
| PyTypeError
| PyIndexError
| PyStopIteration   (* next() on an exhausted reader *)
| StructError.      (* struct.error *)

Inductive outcome (A : Type) : Type :=
| Ok (a : A)
| Err (e : error).
Arguments Ok {A} a.
Arguments Err {A} e.

#[global] Instance outcome_ret : MRet outcome := fun A a => Ok a.
#[global] Instance outcome_bind : MBind outcome := fun A B f m =>
  match m with
  | Ok a => f a
  | Err e => Err e
  end.
#[global] Instance outcome_fmap : FMap outcome := fun A B f m =>
  match m with
  | Ok a => Ok (f a)
  | Err e => Err e
  end.

Definition is_ok {A} (r : outcome A) : bool :=
  match r with Ok _ => true | Err _ => false end.

(* ===================================================================== *)
(** ** Python numbers                                                     *)
(* ===================================================================== *)

Inductive pynum : Type :=
| PInt (z : Z)
| PFloat (f : float).

(** A cell of a record, an argument of [packPos]: [None], a number or text. *)
Inductive pyval : Type :=
| PNone
| PNum (n : pynum)
| PStr (s : string).

Module Num.

(** [float(z)] for an int: correctly rounded, [OverflowError] when the
    int is too large. *)
Definition float_of_Z (z : Z) : outcome float :=
  match binary_normalize prec emax z 0 false with
  | S754_infinity _ => Err PyOverflowError
  | sf => Ok (SF2Prim sf)
  end.

Definition to_float (n : pynum) : outcome float :=
  match n with
  | PInt z => float_of_Z z
  | PFloat f => Ok f
  end.

(** The exact value of a number, [m * 2^e], for the comparisons of an int
    with a float, which Python decides on the mathematical values. *)
Inductive exact : Type :=
| XNaN
| XInf (neg : bool)
| XFin (m e : Z).

Definition exact_of_float (f : float) : exact :=
  match Prim2SF f with
  | S754_zero _ => XFin 0 0
  | S754_infinity s => XInf s
  | S754_nan => XNaN
  | S754_finite s m e => XFin (if s then Z.neg m else Z.pos m) e
  end.

Definition exact_of (n : pynum) : exact :=
  match n with
  | PInt z => XFin z 0
  | PFloat f => exact_of_float f
  end.

(** [None] is IEEE's unordered. *)
Definition exact_compare (a b : exact) : option comparison :=
  match a, b with
  | XNaN, _ | _, XNaN => None
  | XInf s, XInf t => Some (if s then (if t then Eq else Lt) else (if t then Gt else Eq))
  | XInf s, XFin _ _ => Some (if s then Lt else Gt)
  | XFin _ _, XInf t => Some (if t then Gt else Lt)
  | XFin m1 e1, XFin m2 e2 =>
      let e := Z.min e1 e2 in
      Some (Z.compare (m1 * 2 ^ (e1 - e)) (m2 * 2 ^ (e2 - e)))
  end.

Definition compare (a b : pynum) : option comparison :=
  match a, b with
  | PInt x, PInt y => Some (Z.compare x y)
  | PFloat x, PFloat y =>
      match PrimFloat.compare x y with
      | FEq => Some Eq
      | FLt => Some Lt
      | FGt => Some Gt
      | FNotComparable => None
      end
  | _, _ => exact_compare (exact_of a) (exact_of b)
  end.

Definition ltb (a b : pynum) : bool :=
  match compare a b with Some Lt => true | _ => false end.
Definition leb (a b : pynum) : bool :=
  match compare a b with Some Lt | Some Eq => true | _ => false end.
Definition gtb (a b : pynum) : bool := ltb b a.
Definition geb (a b : pynum) : bool := leb b a.
Definition eqb (a b : pynum) : bool :=
  match compare a b with Some Eq => true | _ => false end.

Definition abs (a : pynum) : pynum :=
  match a with
  | PInt z => PInt (Z.abs z)
  | PFloat f => PFloat (PrimFloat.abs f)
  end.

Definition mul (a b : pynum) : outcome pynum :=
  match a, b with
  | PInt x, PInt y => Ok (PInt (x * y))
  | _, _ => x ← to_float a; y ← to_float b; Ok (PFloat (x * y)%float)
  end.

Definition sub (a b : pynum) : outcome pynum :=
  match a, b with
  | PInt x, PInt y => Ok (PInt (x - y))
  | _, _ => x ← to_float a; y ← to_float b; Ok (PFloat (x - y)%float)
  end.

(** True division [a / b]; the callers divide by a nonzero power of ten. *)
Definition div_float (a : float) (b : Z) : outcome float :=
  y ← float_of_Z b; Ok (a / y)%float.

(** [bool(a)]: a number is false exactly when it equals zero. *)
Definition truthy (a : pynum) : bool :=
  match a with
  | PInt z => negb (z =? 0)
  | PFloat f => negb (f =? 0)%float
  end.

(** The integer nearest to [m * 2^e] for [0 <= m], ties to even. *)
Definition round_half_even (m e : Z) : Z :=
  if 0 <=? e then m * 2 ^ e
  else
    let d := 2 ^ (- e) in
    let q := m / d in
    match Z.compare (2 * (m mod d)) d with
    | Lt => q
    | Gt => q + 1
    | Eq => if Z.even q then q else q + 1
    end.

(** [round(f)] of a float: an int; [ValueError] on a NaN and
    [OverflowError] on an infinity. *)
Definition round_float (f : float) : outcome Z :=
  match Prim2SF f with
  | S754_zero _ => Ok 0
  | S754_infinity _ => Err PyOverflowError
  | S754_nan => Err PyValueError
  | S754_finite s m e =>
      let r := round_half_even (Z.pos m) e in
      Ok (if s then - r else r)
  end.

(** [int(round(a))]. *)
Definition round (a : pynum) : outcome Z :=
  match a with
  | PInt z => Ok z
  | PFloat f => round_float f
  end.

(** [int(round(a * 1000))], the scaling shared by [packPos], [prgPos] and
    [getIntPos]. *)
Definition scale1000 (a : pynum) : outcome Z :=
  p ← mul a (PInt 1000); round p.

(** [n / d] for two ints: the correctly rounded quotient, [OverflowError]
    when it exceeds the floats ([d] is a positive constant at every call). *)
Definition truediv (n : Z) (d : positive) : outcome float :=
  match n with
  | Z0 => Ok 0%float
  | Z.pos p =>
      match SFdiv prec emax (S754_finite false p 0) (S754_finite false d 0) with
      | S754_infinity _ => Err PyOverflowError
      | sf => Ok (SF2Prim sf)
      end
  | Z.neg p =>
      match SFdiv prec emax (S754_finite true p 0) (S754_finite false d 0) with
      | S754_infinity _ => Err PyOverflowError
      | sf => Ok (SF2Prim sf)
      end
  end.

End Num.

(* ===================================================================== *)
(** ** Text: the built-ins the source calls on [str]                      *)
(* ===================================================================== *)

Module Text.

Local Open Scope string_scope.
Local Open Scope Z_scope.

Definition is_digit (c : ascii) : bool :=
  let n := nat_of_ascii c in ((48 <=? n) && (n <=? 57))%nat.

Definition digit_val (c : ascii) : Z := Z.of_nat (nat_of_ascii c) - 48.

(** Python's whitespace among the ASCII characters: TAB..CR, FS..US and
    the space. *)
Definition is_space (c : ascii) : bool :=
  let n := nat_of_ascii c in
  (((9 <=? n) && (n <=? 13)) || ((28 <=? n) && (n <=? 32)))%nat.

Fixpoint lstrip (s : string) : string :=
  match s with
  | String c t => if is_space c then lstrip t else s
  | EmptyString => s
  end.

(** Removes the characters satisfying [p] from the right end. *)
Fixpoint rstrip_by (p : ascii -> bool) (s : string) : string :=
  match s with
  | EmptyString => EmptyString
  | String c t =>
      match rstrip_by p t with
      | EmptyString => if p c then EmptyString else String c EmptyString
      | t' => String c t'
      end
  end.

(** [s.strip()], also what [re.sub(r'(^\s+|\s+$)', '', s)] leaves. *)
Definition strip (s : string) : string := rstrip_by is_space (lstrip s).

(** The blanks [int] and [float] skip at the two ends of their argument:
    TAB..CR and the space, and not FS..US, which [str.strip] and the
    pattern's [\s] take for blanks as well. *)
Definition is_blank (c : ascii) : bool :=
  let n := nat_of_ascii c in
  (((9 <=? n) && (n <=? 13)) || (n =? 32))%nat.

Fixpoint lstrip_blank (s : string) : string :=
  match s with
  | String c t => if is_blank c then lstrip_blank t else s
  | EmptyString => s
  end.

Definition trim (s : string) : string := rstrip_by is_blank (lstrip_blank s).

(** [s.rstrip(c)] for a one-character argument. *)
Definition rstrip (c : ascii) (s : string) : string :=
  rstrip_by (Ascii.eqb c) s.

Fixpoint replicate (n : nat) (c : ascii) : string :=
  match n with
  | O => EmptyString
  | S n' => String c (replicate n' c)
  end.

(** [s.rjust(n, c)]. *)
Definition rjust (n : nat) (c : ascii) (s : string) : string :=
  replicate (n - String.length s) c ++ s.

Fixpoint contains (c : ascii) (s : string) : bool :=
  match s with
  | EmptyString => false
  | String a t => Ascii.eqb a c || contains c t
  end.

(** [s[0:n]] and [s[n:]]. *)
Fixpoint take (n : nat) (s : string) : string :=
  match n, s with
  | S n', String c t => String c (take n' t)
  | _, _ => EmptyString
  end.

Fixpoint drop (n : nat) (s : string) : string :=
  match n, s with
  | S n', String _ t => drop n' t
  | _, _ => s
  end.

(** [str(z)] of an int. *)
Definition str_of_Z (z : Z) : string := NilZero.string_of_int (Z.to_int z).

Definition lower (c : ascii) : ascii :=
  let n := nat_of_ascii c in
  if ((65 <=? n) && (n <=? 90))%nat then ascii_of_nat (n + 32) else c.

Fixpoint lower_string (s : string) : string :=
  match s with
  | EmptyString => EmptyString
  | String c t => String (lower c) (lower_string t)
  end.

(** The rest of a digit part, [(["_"] digit)*], after its first digit:
    the value and the number of digits read so far, and what is left. *)
Fixpoint digits_tail (acc : Z) (cnt : nat) (s : string) : Z * nat * string :=
  match s with
  | String c t =>
      if is_digit c then digits_tail (10 * acc + digit_val c) (S cnt) t
      else if Ascii.eqb c "_" then
        match t with
        | String d t' =>
            if is_digit d then digits_tail (10 * acc + digit_val d) (S cnt) t'
            else (acc, cnt, s)
        | EmptyString => (acc, cnt, s)
        end
      else (acc, cnt, s)
  | EmptyString => (acc, cnt, s)
  end.

(** A digit part [digit (["_"] digit)*] continuing the value [acc]. *)
Definition digitpart (acc : Z) (s : string) : option (Z * nat * string) :=
  match s with
  | String c t =>
      if is_digit c then Some (digits_tail (10 * acc + digit_val c) 1 t) else None
  | EmptyString => None
  end.

Definition sign_of (s : string) : bool * string :=
  match s with
  | String "-" t => (true, t)
  | String "+" t => (false, t)
  | _ => (false, s)
  end.

(** [sys.get_int_max_str_digits()], as the interpreter starts. *)
Definition max_str_digits : nat := 4300.

(** [int(s)] in base ten: blanks skipped at the two ends, an optional
    sign, one digit part of at most [max_str_digits] digits. *)
Definition int_of_string (s : string) : outcome Z :=
  let '(neg, body) := sign_of (trim s) in
  match digitpart 0 body with
  | Some (v, cnt, EmptyString) =>
      if (max_str_digits <? cnt)%nat then Err PyValueError
      else Ok (if neg then - v else v)
  | _ => Err PyValueError
  end.

(** The float nearest to [(-1)^neg * n * 10^e10]. *)
Definition float_of_decimal (neg : bool) (n : Z) (e10 : Z) : float :=
  match n with
  | Z.pos p =>
      if 0 <=? e10
      then SF2Prim (binary_normalize prec emax
                      ((if neg then Z.neg p else Z.pos p) * 10 ^ e10) 0 false)
      else SF2Prim (SFdiv prec emax (S754_finite neg p 0)
                      (S754_finite false (Z.to_pos (10 ^ (- e10))) 0))
  | _ => if neg then (-0)%float else 0%float
  end.

(** The exponent part [("e"|"E") ["+"|"-"] digitpart], when present. *)
Definition exponent (s : string) : option (Z * string) :=
  match s with
  | String c t =>
      if Ascii.eqb (lower c) "e" then
        let '(neg, body) := sign_of t in
        match digitpart 0 body with
        | Some (v, _, rest) => Some (if neg then - v else v, rest)
        | None => None
        end
      else None
  | EmptyString => None
  end.

(** The mantissa [digitpart ["." [digitpart]] | "." digitpart]: its
    digits read as one integer, and how many of them follow the point. *)
Definition mantissa (s : string) : option (Z * nat * string) :=
  match digitpart 0 s with
  | Some (v, _, String "." rest) =>
      match digitpart v rest with
      | Some (v', k, rest') => Some (v', k, rest')
      | None => Some (v, O, rest)
      end
  | Some (v, _, rest) => Some (v, O, rest)
  | None =>
      match s with
      | String "." rest =>
          match digitpart 0 rest with
          | Some (v, k, rest') => Some (v, k, rest')
          | None => None
          end
      | _ => None
      end
  end.

(** [float(s)]: blanks skipped at the two ends, an optional sign, then
    [inf], [infinity], [nan] in any case or a decimal number with an
    optional exponent. *)
Definition float_of_string (s : string) : outcome float :=
  let '(neg, body) := sign_of (trim s) in
  let low := lower_string body in
  if String.eqb low "inf" || String.eqb low "infinity"
  then Ok (if neg then neg_infinity else infinity)
  else if String.eqb low "nan" then Ok nan
  else
    match mantissa body with
    | Some (v, k, EmptyString) => Ok (float_of_decimal neg v (- Z.of_nat k))
    | Some (v, k, rest) =>
        match exponent rest with
        | Some (e, EmptyString) => Ok (float_of_decimal neg v (e - Z.of_nat k))
        | _ => Err PyValueError
        end
    | None => Err PyValueError
    end.

End Text.

(* ===================================================================== *)
(** ** The coordinate codec: [parseNumber], [packPos], [prgPos]           *)
(* ===================================================================== *)

(** [parseNumber(s, length, lead_zero)].  It returns the int [0] on an
    empty text and a float otherwise. *)
Definition parseNumber (s : string) (length : nat) (lead_zero : bool)
  : outcome pynum :=
  match s with
  | EmptyString => Ok (PInt 0)
  | _ =>
      let s := Text.strip s in
      if Text.contains "." s then PFloat <$> Text.float_of_string s
      else
        match s with
        | EmptyString => Err PyIndexError          (* s[0] of an empty text *)
        | String c t =>
            let '(sign, s) :=
              if Ascii.eqb c "-" then (PInt (-1), t) else (PInt 1, s) in
            if lead_zero then
              if (String.length s <? length)%nat then
                f ← Text.float_of_string s;
                v ← Num.mul sign (PFloat f);
                Num.mul v (PInt (10 ^ Z.of_nat (length - String.length s)))
              else
                f ← Text.float_of_string
                      (Text.take length s ++ "." ++ Text.drop length s)%string;
                Num.mul sign (PFloat f)
            else
              f ← Text.float_of_string s;
              v ← Num.mul sign (PFloat f);
              v ← Num.to_float v;
              PFloat <$> Num.div_float v (10 ^ Z.of_nat length)
        end
  end.

Module Struct.

(** The byte of the eight low bits of [z]. *)
Definition byte_of_Z (z : Z) : Byte.byte :=
  byte_of_ascii (ascii_of_N (Z.to_N (Z.land z 255))).

(** The four bytes of the two's complement of [z], low byte first. *)
Definition le32 (z : Z) : list Byte.byte :=
  [ byte_of_Z z;
    byte_of_Z (Z.shiftr z 8);
    byte_of_Z (Z.shiftr z 16);
    byte_of_Z (Z.shiftr z 24) ].

Definition fits_int32 (z : Z) : bool :=
  (- 2 ^ 31 <=? z) && (z <=? 2 ^ 31 - 1).

(** [struct.pack('<ii', x, y)]. *)
Definition pack_ii (x y : Z) : outcome (list Byte.byte) :=
  if fits_int32 x && fits_int32 y then Ok (le32 x ++ le32 y)
  else Err StructError.

End Struct.

(** [if type(x) is str: x = parseNumber(x, 3, True)]. *)
Definition decode_text (x : pyval) : outcome pyval :=
  match x with
  | PStr s => PNum <$> parseNumber s 3 true
  | _ => Ok x
  end.

(** [int(round(x*1000))] on a cell: only a number has a rounded product. *)
Definition scale_val (x : pyval) : outcome Z :=
  match x with
  | PNum n => Num.scale1000 n
  | _ => Err PyTypeError
  end.

Definition packPos (x y : pyval) : outcome (list Byte.byte) :=
  x ← decode_text x;
  y ← decode_text y;
  x ← scale_val x;
  y ← scale_val y;
  Struct.pack_ii x y.

(** [str(n).rjust(6, '0').rstrip('0')], then ['0'] when nothing is left. *)
Definition digits_text (n : Z) : string :=
  match Text.rstrip "0" (Text.rjust 6 "0" (Text.str_of_Z n)) with
  | EmptyString => "0"%string
  | d => d
  end.

Definition prgPos (x y : pynum) : outcome string :=
  if Num.geb (Num.abs x) (PInt (10 ^ 3)) || Num.geb (Num.abs y) (PInt (10 ^ 3))
  then Err RangeError
  else
    let signx := if Num.ltb x (PInt 0) then "-"%string else ""%string in
    let signy := if Num.ltb y (PInt 0) then "-"%string else ""%string in
    x ← Z.abs <$> Num.scale1000 x;
    y ← Z.abs <$> Num.scale1000 y;
    let x := digits_text x in
    let y := digits_text y in
    Ok ("X" ++ signx ++ x ++ "Y" ++ signy ++ y)%string.

(* ===================================================================== *)
(** ** Cells of a record                                                  *)
(* ===================================================================== *)

Module Cell.

(** [bool(v)]. *)
Definition truthy (v : pyval) : bool :=
  match v with
  | PNone => false
  | PNum n => Num.truthy n
  | PStr s => negb (String.eqb s "")
  end.

(** [a == b]. *)
Definition eqb (a b : pyval) : bool :=
  match a, b with
  | PNone, PNone => true
  | PNum x, PNum y => Num.eqb x y
  | PStr x, PStr y => String.eqb x y
  | _, _ => false
  end.

(** [a or b]. *)
Definition or (a b : pyval) : pyval := if truthy a then a else b.

(** [l[i]]. *)
Definition item {A} (l : list A) (i : nat) : outcome A :=
  match l !! i with
  | Some v => Ok v
  | None => Err PyIndexError
  end.

(** The operand of an arithmetic operator. *)
Definition number (v : pyval) : outcome pynum :=
  match v with
  | PNum n => Ok n
  | _ => Err PyTypeError
  end.

(** [float(v)]. *)
Definition to_float (v : pyval) : outcome float :=
  match v with
  | PNone => Err PyTypeError
  | PNum n => Num.to_float n
  | PStr s => Text.float_of_string s
  end.

End Cell.

(* ===================================================================== *)
(** ** The machining-log parser: [loadBackDrillData]                      *)
(* ===================================================================== *)

Module Log.

Local Open Scope string_scope.
Local Open Scope Z_scope.

Fixpoint skip_digits (s : string) : string :=
  match s with
  | String c t => if Text.is_digit c then skip_digits t else s
  | EmptyString => s
  end.

(** Where [$] matches: at the end, or before a newline that ends the
    text. *)
Definition at_end (s : string) : bool :=
  match s with
  | EmptyString => true
  | String c EmptyString => Ascii.eqb c "010"
  | _ => false
  end.

(** [pattern.match(s)] for [pattern = ^[-+]?\d+\.?\d*$]. *)
Definition numeric_text (s : string) : bool :=
  let body :=
    match s with
    | String c t => if Ascii.eqb c "-" || Ascii.eqb c "+" then t else s
    | EmptyString => s
    end in
  match body with
  | String c t =>
      Text.is_digit c &&
      (let r := skip_digits t in
       at_end r ||
       match r with
       | String d r' => Ascii.eqb d "." && at_end (skip_digits r')
       | EmptyString => false
       end)
  | EmptyString => false
  end.

(** [filePattern.match(path).groups()] for
    [filePattern = .*pos(\d\d)(\d\d)\.dat$]: the month and the day. *)
Definition match_data_file (path : string) : option (string * string) :=
  let cs := rev (list_ascii_of_string path) in
  let cs :=
    match cs with
    | "010"%char :: t => t
    | _ => cs
    end in
  match cs with
  | "t" :: "a" :: "d" :: "." :: d4 :: d3 :: d2 :: d1 :: "s" :: "o" :: "p" :: pre =>
      if Text.is_digit d1 && Text.is_digit d2 && Text.is_digit d3 && Text.is_digit d4
         && forallb (fun c => negb (Ascii.eqb c "010")) pre
      then Some (String d1 (String d2 ""), String d3 (String d4 ""))
      else None
  | _ => None
  end%char.

(** The variables [last_H], [base], [result] and [flags] that the source
    carries over the rows of all the files. *)
Record state : Type := State {
  last_H : option Z;
  base : Z;
  result : list (list pyval);
  flags : gmap string nat
}.

Definition init : state := State None 0 [] ∅.

(** Lines 157-162: the new [base] and [flag] for the counter
    [current_H].  [last_H] stands in a condition, where [None] and [0]
    are both false. *)
Definition unwrap (last_H : option Z) (base current_H : Z) : Z * bool :=
  match last_H with
  | Some h =>
      if negb (h =? 0) && (current_H <? h) then
        if h =? 65535 then (base + 65536, false) else (0, true)
      else (base, false)
  | None => (base, false)
  end.

(** Lines 166-171 for the cell [val] at index [i]. *)
Definition coerce (i : nat) (val : pyval) : outcome pyval :=
  match val with
  | PStr s =>
      if numeric_text s then
        f ← Text.float_of_string s;
        if (4 <? i)%nat && Num.eqb (PFloat f) (PInt 0) then Ok PNone
        else Ok (PNum (PFloat f))
      else Ok val
  | _ => Ok val
  end.

Fixpoint coerce_from (i : nat) (r : list pyval) : outcome (list pyval) :=
  match r with
  | [] => Ok []
  | val :: t => v ← coerce i val; t' ← coerce_from (S i) t; Ok (v :: t')
  end.

(** [while len(r) < 23: r.append(None)]. *)
Definition pad (r : list pyval) : list pyval :=
  (r ++ replicate (23 - length r) PNone)%list.

(** [r0[i] == r[i]]. *)
Definition same_at (r0 r : list pyval) (i : nat) : outcome bool :=
  a ← Cell.item r0 i; b ← Cell.item r i; Ok (Cell.eqb a b).

(** [r0[1] == r[1] and r0[3] == r[3] and r0[4] == r[4]]. *)
Definition same_hole (r0 r : list pyval) : outcome bool :=
  b ← same_at r0 r 1;
  if b : bool then
    b ← same_at r0 r 3;
    if b : bool then same_at r0 r 4 else Ok false
  else Ok false.

(** [for c in range(5, 23): r0[c] = r[c] or r0[c]]. *)
Definition merge_cell (r : list pyval) (acc : outcome (list pyval)) (c : nat)
  : outcome (list pyval) :=
  r0 ← acc;
  a ← Cell.item r c;
  b ← Cell.item r0 c;
  Ok (<[c := Cell.or a b]> r0).

Definition merge (r0 r : list pyval) : outcome (list pyval) :=
  foldl (merge_cell r) (Ok r0) (seq 5 18).

(** [result.append(r)] and what follows it (lines 184-187); [ts] is
    [r[0]], the time stamp written at line 153. *)
Definition append (st : state) (base : Z) (flag : bool) (current_H : Z)
    (ts : string) (r : list pyval) : state :=
  let result := (st.(result) ++ [r])%list in
  State (Some current_H) base result
    (if decide (st.(flags) = ∅) then <[ts := (length result - 1)%nat]> st.(flags)
     else if flag then <[ts := (length result - 1)%nat]> st.(flags)
     else st.(flags)).

(** A row after lines 150-175: the new [base], [flag], the raw counter,
    the time stamp written to [r[0]] and the row itself, coerced and padded. *)
Record parsed : Type := Parsed {
  p_base : Z;
  p_flag : bool;
  p_current : Z;
  p_ts : string;
  p_row : list pyval
}.

(** Lines 150-175 of the body of [for r in csvfile]. *)
Definition read_row (month day : string) (st : state) (row : list string)
  : outcome parsed :=
  let r := PStr <$> row in
  t ← Cell.item row 0;
  let ts := month ++ "/" ++ day ++ " " ++ t in
  let r := <[0%nat := PStr ts]> r in
  h ← Cell.item row 1;
  current_H ← Text.int_of_string h;
  let '(base, flag) := unwrap st.(last_H) st.(base) current_H in
  let r := <[1%nat := PNum (PInt (current_H + base))]> r in
  r ← coerce_from 0 r;
  Ok (Parsed base flag current_H ts (pad r)).

(** Lines 177-187: the row is merged into the last record, or appended. *)
Definition store_row (st : state) (p : parsed) : outcome state :=
  let r := p.(p_row) in
  match last st.(result) with
  | Some r0 =>
      same ← same_hole r0 r;
      if same : bool then
        r0' ← merge r0 r;
        Ok (State st.(last_H) p.(p_base)
              (<[(length st.(result) - 1)%nat := r0']> st.(result)) st.(flags))
      else Ok (append st p.(p_base) p.(p_flag) p.(p_current) p.(p_ts) r)
  | None => Ok (append st p.(p_base) p.(p_flag) p.(p_current) p.(p_ts) r)
  end.

(** The body of [for r in csvfile] (lines 149-187). *)
Definition row_step (month day : string) (st : state) (row : list string)
  : outcome state :=
  p ← read_row month day st row; store_row st p.

Definition rows_step (month day : string) (st : state) (rows : list (list string))
  : outcome state :=
  foldl (fun acc row => st ← acc; row_step month day st row) (Ok st) rows.

(** [len(header) <= 8 or header[0]!="#Date" or header[1]!="N"]. *)
Definition bad_header (header : list string) : bool :=
  (length header <=? 8)%nat
  || negb (String.eqb (default "" (header !! 0%nat)) "#Date")
  || negb (String.eqb (default "" (header !! 1%nat)) "N").

Section Files.

(** The file system: the rows [csv.reader] yields for a path that is a
    file, [None] for a path [path.isfile] rejects. *)
Variable fs : string -> option (list (list string)).

(** The body of [for file_path in files] (lines 131-187). *)
Definition file_step (st : state) (file_path : string) : outcome state :=
  let isDataFile := match_data_file file_path in
  match fs file_path with
  | None => Err NotFoundError
  | Some rows =>
      match isDataFile with
      | None => Err NamingError
      | Some (month, day) =>
          match rows with
          | [] => Err PyStopIteration
          | header :: rows =>
              if bad_header header then Err SchemaError
              else rows_step month day st rows
          end
      end
  end.

(** [files.sort()]. *)
Definition sort_files (files : list string) : list string :=
  merge_sort (fun a b => Is_true (String.leb a b)) files.

Definition loadBackDrillData (files : list string)
  : outcome (list (list pyval) * gmap string nat) :=
  st ← foldl (fun acc f => st ← acc; file_step st f) (Ok init) (sort_files files);
  Ok (st.(result), st.(flags)).

End Files.

End Log.

(* ===================================================================== *)
(** ** The outlier detector: [calc_outliers]                              *)
(* ===================================================================== *)

Module Outliers.

(** [weight[i][col] += 1]. *)
Definition bump (weight : list (list Z)) (i col : nat) : list (list Z) :=
  alter (alter Z.succ col) i weight.

(** [range(6, 23, 3)]. *)
Definition axes : list nat := [6; 9; 12; 15; 18; 21]%nat.

(** The body of [for z in range(6, 23, 3)] (lines 205-210); the quotient
    [(z-6)/3] is whole for every [z] of the range, so that rounding it
    changes nothing. *)
Definition axis_step (data : list (list pyval)) (tol : pynum) (i step : nat)
    (weight : list (list Z)) (z : nat) : outcome (list (list Z)) :=
  let col := ((z - 6) / 3)%nat in
  ri ← Cell.item data i;
  a ← Cell.item ri z;
  if Cell.truthy a then
    rj ← Cell.item data (i + step)%nat;
    b ← Cell.item rj z;
    if Cell.truthy b then
      x ← Cell.number a;
      y ← Cell.number b;
      d ← Num.sub x y;
      if Num.gtb (Num.abs d) tol
      then Ok (bump (bump weight i col) (i + step)%nat col)
      else Ok weight
    else Ok weight
  else Ok weight.

(** The body of [while i < length-step] for one [i]. *)
Definition pair_step (data : list (list pyval)) (tol : pynum) (step : nat)
    (acc : outcome (list (list Z))) (i : nat) : outcome (list (list Z)) :=
  foldl (fun acc z => w ← acc; axis_step data tol i step w z) acc axes.

(** The body of [for step in range(1, lag+1)]. *)
Definition lag_step (data : list (list pyval)) (tol : pynum)
    (acc : outcome (list (list Z))) (step : nat) : outcome (list (list Z)) :=
  foldl (pair_step data tol step) acc (seq 0 (length data - step)).

Definition calc_outliers (data : list (list pyval)) (lag : Z) (tol : pynum)
  : outcome (list (list Z)) :=
  let weight := replicate (length data) (replicate 6 0) in
  foldl (lag_step data tol) (Ok weight) (seq 1 (Z.to_nat lag)).

End Outliers.

(* ===================================================================== *)
(** ** The shift detector: [getIntPos], [judgeShift], [calc_shift]        *)
(* ===================================================================== *)

Module Shift.

Local Open Scope string_scope.
Local Open Scope Z_scope.

(** [if type(x) is str: x = float(x)]. *)
Definition float_text (x : pyval) : outcome pyval :=
  match x with
  | PStr s => PNum ∘ PFloat <$> Text.float_of_string s
  | _ => Ok x
  end.

Definition getIntPos (x y : pyval) : outcome (Z * Z) :=
  x ← float_text x;
  y ← float_text y;
  x ← scale_val x;
  y ← scale_val y;
  Ok (x, y).

(** What [judgeShift] returns: [False], [None] or a pair of floats. *)
Inductive verdict : Type :=
| VFalse
| VNone
| VShift (shiftX shiftY : float).

(** The loop of [judgeShift] from the pair [(shiftX, shiftY)] on: [None]
    when the loop leaves by [return None], the pair at its end
    otherwise. *)
Fixpoint judge_loop (shift : option (Z * Z)) (pairs : list ((Z * Z) * (Z * Z)))
  : option (option (Z * Z)) :=
  match pairs with
  | [] => Some shift
  | (m, n) :: rest =>
      let curX := m.1 - n.1 in
      let curY := m.2 + n.2 in
      let shift := match shift with
                   | None => (curX, curY)
                   | Some s => s
                   end in
      if negb (shift.1 =? curX) || negb (shift.2 =? curY) then None
      else judge_loop (Some shift) rest
  end.

Definition judgeShift (data_pos prg_pos : list (Z * Z)) : outcome verdict :=
  if negb (length data_pos =? length prg_pos)%nat then Ok VFalse
  else
    match judge_loop None (zip data_pos prg_pos) with
    | None => Ok VNone
    | Some (Some (shiftX, shiftY)) =>
        dx ← Num.truediv shiftX 1000;
        dy ← Num.truediv shiftY 1000;
        Ok (VShift dx dy)
    | Some None => Err PyTypeError             (* None/1000 *)
    end.

(** [toolPattern.match(line)] for [toolPattern = ^T0?[2-9]$]. *)
Definition tool_line (line : string) : bool :=
  match line with
  | String c t =>
      Ascii.eqb c "T" &&
      (let t := match t with
                | String z t' => if Ascii.eqb z "0" then t' else t
                | EmptyString => t
                end in
       match t with
       | String d r =>
           let n := nat_of_ascii d in
           ((50 <=? n) && (n <=? 57))%nat && Log.at_end r
       | EmptyString => false
       end)
  | EmptyString => false
  end.

(** The longest prefix [-?\d*] of [s], and what follows it. *)
Fixpoint span_digits (s : string) : string * string :=
  match s with
  | String c t =>
      if Text.is_digit c then
        let '(d, r) := span_digits t in (String c d, r)
      else (EmptyString, s)
  | EmptyString => (EmptyString, s)
  end.

Definition span_number (s : string) : string * string :=
  match s with
  | String "-" t => let '(d, r) := span_digits t in (String "-" d, r)
  | _ => span_digits s
  end.

(** [posPattern.match(line).groups()], where [posPattern] is an [X], a
    group [-?\d*], a [Y] and a second group [-?\d*] between [^] and [$]. *)
Definition pos_line (line : string) : option (string * string) :=
  match line with
  | String "X" t =>
      let '(x, r) := span_number t in
      match r with
      | String "Y" t' =>
          let '(y, r') := span_number t' in
          if Log.at_end r' then Some (x, y) else None
      | _ => None
      end
  | _ => None
  end.

(** The loop over the lines of the program (lines 251-261). *)
Fixpoint scan_prg (sample : Z) (curTool : option string) (prg_pos : list (Z * Z))
    (prg : list string) : outcome (list (Z * Z)) :=
  match prg with
  | [] => Ok prg_pos
  | line :: rest =>
      '(curTool, prg_pos) ←
        (if tool_line line then Ok (Some line, prg_pos)
         else
           match curTool, pos_line line with
           | Some _, Some (x, y) =>
               x ← parseNumber x 3 true;
               y ← parseNumber y 3 true;
               p ← getIntPos (PNum x) (PNum y);
               Ok (curTool, prg_pos ++ [p])%list
           | _, _ => Ok (curTool, prg_pos)
           end);
      if Z.of_nat (length prg_pos) =? sample then Ok prg_pos
      else scan_prg sample curTool prg_pos rest
  end.

(** The [try] block of the loop over the records (line 266). *)
Definition record_pos (r : list pyval) : outcome (Z * Z) :=
  x ← Cell.item r 3;
  x ← Cell.to_float x;
  y ← Cell.item r 4;
  y ← Cell.to_float y;
  getIntPos (PNum (PFloat x)) (PNum (PFloat y)).

(** [data_pos.append((x, y))], then [data_pos.pop(0)] when the list is
    longer than [sample]. *)
Definition slide (sample : Z) (data_pos : list (Z * Z)) (p : Z * Z) : list (Z * Z) :=
  let data_pos := (data_pos ++ [p])%list in
  if sample <? Z.of_nat (length data_pos) then tail data_pos else data_pos.

(** The loop over the records (lines 264-274). *)
Fixpoint scan_data (sample : Z) (prg_pos data_pos : list (Z * Z))
    (data : list (list pyval)) : outcome (option (float * float)) :=
  match data with
  | [] => Ok None
  | r :: rest =>
      match record_pos r with
      | Err _ => scan_data sample prg_pos data_pos rest
      | Ok p =>
          let data_pos := slide sample data_pos p in
          shiftXY ← judgeShift data_pos prg_pos;
          match shiftXY with
          | VShift dx dy => Ok (Some (dx, dy))
          | _ => scan_data sample prg_pos data_pos rest
          end
      end
  end.

(** [calc_shift(prg_file, data, sample)]; [prg] holds the lines of the
    program file, each with its line end. *)
Definition calc_shift (prg : list string) (data : list (list pyval)) (sample : Z)
  : outcome (option (float * float)) :=
  prg_pos ← scan_prg sample None [] prg;
  scan_data sample prg_pos [] data.

End Shift.

(* ===================================================================== *)
(** ** The drill program: [loadPrgData]                                   *)
(* ===================================================================== *)

(** The keys of [tools] are the byte strings of [packPos]. *)
#[global] Instance byte_eq_dec : EqDecision Byte.byte := Byte.byte_eq_dec.
#[global] Instance byte_countable : Countable Byte.byte :=
  inj_countable Byte.to_N Byte.of_N Byte.of_to_N.

Module Prg.

Local Open Scope string_scope.
Local Open Scope Z_scope.

(** [toolPattern.match(line)] for [toolPattern = ^T\d{1,2}$]. *)
Definition tool_line (line : string) : bool :=
  match line with
  | String c (String d r) =>
      Ascii.eqb c "T" && Text.is_digit d &&
      (match r with
       | String d' r' => (Text.is_digit d' && Log.at_end r') || Log.at_end r
       | EmptyString => true
       end)
  | _ => false
  end.

(** What follows the prefix [p] of [s]. *)
Fixpoint after (p s : string) : option string :=
  match p, s with
  | EmptyString, _ => Some s
  | String a p', String b s' => if Ascii.eqb a b then after p' s' else None
  | String _ _, EmptyString => None
  end.

(** [s] without the character [c] at its head, when it is there. *)
Definition skip_char (c : ascii) (s : string) : string :=
  match s with
  | String a t => if Ascii.eqb a c then t else s
  | EmptyString => s
  end.

Definition starts_digit (s : string) : bool :=
  match s with
  | String c _ => Text.is_digit c
  | EmptyString => false
  end.

(** [m18Pattern.match(line)] for [m18Pattern = ^M18Z-?\d*\.?\d*$]. *)
Definition m18_line (line : string) : bool :=
  match after "M18Z" line with
  | Some r =>
      Log.at_end
        (Log.skip_digits (skip_char "." (Log.skip_digits (skip_char "-" r))))
  | None => false
  end.

(** The tail [C\d*\.?\d+$] of [toolSizePattern]: the digits end the line,
    or a point and one digit at least follow them. *)
Definition size_tail (r : string) : bool :=
  match r with
  | String c r =>
      Ascii.eqb c "C" &&
      (let r1 := Log.skip_digits r in
       (starts_digit r && Log.at_end r1)
       || match r1 with
          | String p r2 =>
              Ascii.eqb p "." && starts_digit r2 && Log.at_end (Log.skip_digits r2)
          | EmptyString => false
          end)
  | EmptyString => false
  end.

(** [toolSizePattern.match(line).groups()[0]] for
    [toolSizePattern = ^(T\d{1,2})C\d*\.?\d+$]: the tool the line sizes. *)
Definition tool_size_line (line : string) : option string :=
  match line with
  | String c (String d r) =>
      if Ascii.eqb c "T" && Text.is_digit d then
        match r with
        | String d' r' =>
            if Text.is_digit d' && size_tail r' then Some (Text.take 3 line)
            else if size_tail r then Some (Text.take 2 line)
            else None
        | EmptyString => None
        end
      else None
  | _ => None
  end.

(** The variables [curTool], [tool_size], [tools] and [m18] of the loop
    over the lines. *)
Record state : Type := State {
  curTool : option string;
  tool_size : gmap string string;
  tools : gmap (list Byte.byte) string;
  m18 : gmap string string
}.

Definition init : state := State None ∅ ∅ ∅.

(** The body of [for line in f] (lines 98-114).  [curTool] is [None] or a
    line that matched [toolPattern], which is not empty: [if curTool] asks
    whether a tool is selected. *)
Definition line_step (st : state) (line : string) : outcome state :=
  let line := Text.strip line in
  if String.eqb line "" then Ok st
  else
    match Shift.pos_line line with
    | Some (x, y) =>
        pos ← packPos (PStr x) (PStr y);
        match st.(curTool) with
        | Some t =>
            Ok (State st.(curTool) st.(tool_size) (<[pos := t]> st.(tools)) st.(m18))
        | None => Ok st
        end
    | None =>
        match tool_size_line line with
        | Some t =>
            Ok (State st.(curTool) (<[t := line]> st.(tool_size)) st.(tools) st.(m18))
        | None =>
            if tool_line line
            then Ok (State (Some line) st.(tool_size) st.(tools) st.(m18))
            else if m18_line line then
              match st.(curTool) with
              | Some t =>
                  Ok (State st.(curTool) st.(tool_size) st.(tools)
                        (<[t := line]> st.(m18)))
              | None => Ok st
              end
            else Ok st
        end
    end.

Definition lines_step (st : state) (prg : list string) : outcome state :=
  foldl (fun acc line => st ← acc; line_step st line) (Ok st) prg.

(** [loadPrgData(file_path)]; [prg] holds the lines of the file, each with
    its line end. *)
Definition loadPrgData (prg : list string)
  : outcome (gmap string string * gmap (list Byte.byte) string * gmap string string) :=
  st ← lines_step init prg;
  Ok (st.(tool_size), st.(tools), st.(m18)).

End Prg.

(* ===================================================================== *)
(** ** The window: what [select_data] and [output_prg] compute            *)
(* ===================================================================== *)

Module Gui.

Local Open Scope string_scope.
Local Open Scope Z_scope.

(** The line end ['\n']. *)
Definition newline_text : string := String "010" EmptyString.

(** [s+'\n']. *)
Definition line_of (s : string) : string := s ++ newline_text.

(** Lines 351-354 of [select_data]: the end of the run that starts at
    [start].  The loop keeps the least index it has met above [start], so
    that the order in which the dictionary yields its items is of no
    account; the items come here in the order of [map_to_list]. *)
Definition run_end (flags : gmap string nat) (start len : nat) : nat :=
  foldl (fun end_ item =>
           if (start <? item.2)%nat && (item.2 <? end_)%nat then item.2 else end_)
        len (map_to_list flags).

(** Lines 350-355: [self.data[start:end]]; [None] stands for the
    [KeyError] of [flags[selectedTime]]. *)
Definition select_run (flags : gmap string nat) (data : list (list pyval))
    (selectedTime : string) : option (list (list pyval)) :=
  start ← flags !! selectedTime;
  Some (drop start (take (run_end flags start (length data)) data)).

(** The six check boxes [chkSP1] .. [chkSP6]. *)
Record boxes : Type := Boxes {
  chkSP1 : bool; chkSP2 : bool; chkSP3 : bool;
  chkSP4 : bool; chkSP5 : bool; chkSP6 : bool
}.

Definition checked (b : boxes) : list bool :=
  [b.(chkSP1); b.(chkSP2); b.(chkSP3); b.(chkSP4); b.(chkSP5); b.(chkSP6)].

(** The condition of lines 389-394 (and 456-461), from the axis [k] on:
    [v[k]] is read only when its box is checked and no axis before it
    passed the threshold. *)
Fixpoint exceeds_from (k : nat) (checks : list bool) (threshold : Z) (v : list Z)
  : outcome bool :=
  match checks with
  | [] => Ok false
  | c :: rest =>
      if c then
        x ← Cell.item v k;
        if threshold <? x then Ok true
        else exceeds_from (S k) rest threshold v
      else exceeds_from (S k) rest threshold v
  end.

Definition exceeds (b : boxes) (threshold : Z) (v : list Z) : outcome bool :=
  exceeds_from 0 (checked b) threshold v.

(** What stops [output_prg]: the [KeyError] of [self.toolDepth[tool]], or
    an exception of the functions it calls. *)
Inductive fault : Type :=
| KeyError
| Raised (e : error).

(** The pieces handed to [f.write], in order, and [curTool]. *)
Record writer : Type := Writer {
  written : list string;
  w_curTool : option string
}.

(** The lines of the program before its first tool line (lines 381-385);
    a line of the file keeps its line end. *)
Fixpoint preamble (prg : list string) : list string :=
  match prg with
  | [] => []
  | line :: rest => if Prg.tool_line line then [] else line :: preamble rest
  end.

(** [prgPos(hole[3], hole[4])] on two cells: [abs] of a cell that is not a
    number is a [TypeError], and the second cell is looked at only when
    [abs(x) >= pow(10, 3)] is false. *)
Definition prgPos_cells (x y : pyval) : outcome string :=
  x ← Cell.number x;
  if Num.geb (Num.abs x) (PInt (10 ^ 3)) then Err RangeError
  else y ← Cell.number y; prgPos x y.

Section Rework.

Variable toolPos : gmap (list Byte.byte) string.
Variable toolDepth : gmap string string.
Variable data : list (list pyval).
Variable b : boxes.
Variable threshold : Z.

(** Lines 399-404. *)
Definition select_tool (w : writer) (tool : string) : writer * option fault :=
  if decide (w.(w_curTool) = Some tool) then (w, None)
  else
    let out :=
      (w.(written)
       ++ (match w.(w_curTool) with Some _ => [line_of "M19"] | None => [] end)
       ++ [line_of tool])%list in
    match toolDepth !! tool with
    | Some depth => (Writer (out ++ [line_of depth])%list (Some tool), None)
    | None => (Writer out (Some tool), Some KeyError)
    end.

(** Lines 389-406 for the weights [v] of the record [i]. *)
Definition hole_step (w : writer) (i : nat) (v : list Z) : writer * option fault :=
  match exceeds b threshold v with
  | Err e => (w, Some (Raised e))
  | Ok false => (w, None)
  | Ok true =>
      match (hole ← Cell.item data i;
             x ← Cell.item hole 3;
             y ← Cell.item hole 4;
             pos ← packPos x y;
             Ok (x, y, pos)) with
      | Err e => (w, Some (Raised e))
      | Ok (x, y, pos) =>
          match toolPos !! pos with
          | None => (w, None)
          | Some tool =>
              match select_tool w tool with
              | (w, Some f) => (w, Some f)
              | (w, None) =>
                  match prgPos_cells x y with
                  | Err e => (w, Some (Raised e))
                  | Ok text =>
                      (Writer (w.(written) ++ [text; newline_text])%list w.(w_curTool),
                       None)
                  end
              end
          end
      end
  end.

(** The loop [for i, v in enumerate(self.result)], from the index [i] on;
    it stops at the first exception. *)
Fixpoint holes_step (w : writer) (i : nat) (result : list (list Z))
  : writer * option fault :=
  match result with
  | [] => (w, None)
  | v :: rest =>
      match hole_step w i v with
      | (w, Some f) => (w, Some f)
      | (w, None) => holes_step w (S i) rest
      end
  end.

(** Lines 378-410 of [output_prg]: what is written to the file, and the
    exception that ended the writing, if any. *)
Definition output_prg (prg : list string) (result : list (list Z))
  : list string * option fault :=
  match holes_step (Writer (preamble prg) None) 0 result with
  | (w, Some f) => (w.(written), Some f)
  | (w, None) =>
      ((w.(written)
        ++ (match w.(w_curTool) with Some _ => [line_of "M19"] | None => [] end)
        ++ [line_of "T00"; line_of "M30"])%list, None)
  end.

End Rework.

End Gui.

(* ===================================================================== *)
(** * Notions of the specification                                        *)
(* ===================================================================== *)

(** ** Coordinates *)

(** The point of the 1000-times-rounded grid a coordinate falls on: what
    [packPos] hands to [struct.pack]. *)
Definition grid_of (v : pyval) : outcome Z :=
  v' ← decode_text v; scale_val v'.

(** The digits of a coordinate field, as the specification words them: the
    decimal text of [n] is padded on the left with zeros to six characters,
    [d] is what remains after the zeros at its right end are taken away,
    and [d] is never empty: a text of zeros alone leaves the one digit [0]. *)
Definition digits_of (n : Z) (d : string) : Prop :=
  exists k : nat,
    (Text.replicate (6 - String.length (Text.str_of_Z n)) "0" ++ Text.str_of_Z n
     = d ++ Text.replicate k "0")%string
    /\ d <> ""%string
    /\ (forall p : string, d = (p ++ "0")%string -> p = ""%string).

(** The sign a coordinate field starts with. *)
Definition sign_text (x : pynum) : string :=
  if Num.ltb x (PInt 0) then "-"%string else ""%string.

(** [abs(x) >= 1000] and [abs(x) < 1000], as Python evaluates them. *)
Definition out_of_range (x : pynum) : Prop :=
  Num.geb (Num.abs x) (PInt 1000) = true.

Definition in_range (x : pynum) : Prop :=
  Num.ltb (Num.abs x) (PInt 1000) = true.

(** ** The machining log *)

(** The states the parser goes through: [Log.init], and what
    [Log.row_step] makes of such a state. *)
Inductive reachable : Log.state -> Prop :=
| reach_init : reachable Log.init
| reach_step (month day : string) (st st' : Log.state) (row : list string) :
    reachable st -> Log.row_step month day st row = Ok st' -> reachable st'.

(** What holds of every such state: [base] is not negative, every stored
    record has its 23 columns, and [last_H] is set exactly when a record is
    stored, whose counter is then [last_H] plus the base it was stored
    under, and a run boundary is recorded. *)
Definition wf_state (st : Log.state) : Prop :=
  0 <= st.(Log.base)
  /\ Forall (fun r : list pyval => (23 <= length r)%nat) st.(Log.result)
  /\ match st.(Log.last_H) with
     | None => st.(Log.result) = [] /\ st.(Log.flags) = ∅
     | Some h =>
         st.(Log.flags) <> ∅
         /\ exists (r0 : list pyval) (b : Z),
             last st.(Log.result) = Some r0
             /\ r0 !! 1%nat = Some (PNum (PInt (h + b)))
             /\ 0 <= b
     end.

(** The stored counters, in order. *)
Definition counters (records : list (list pyval)) : list (option pyval) :=
  (fun r : list pyval => r !! 1%nat) <$> records.

(** The cell at [column] of the record at [index]. *)
Definition cell_at (records : list (list pyval)) (index column : nat) : option pyval :=
  records !! index ≫= fun r => r !! column.

(** The records and the run boundaries of a load that succeeded. *)
Definition loaded_records (r : outcome (list (list pyval) * gmap string nat))
  : list (list pyval) :=
  match r with
  | Ok (records, _) => records
  | Err _ => []
  end.

Definition loaded_flags (r : outcome (list (list pyval) * gmap string nat))
  : list (string * nat) :=
  match r with
  | Ok (_, flags) => map_to_list flags
  | Err _ => []
  end.

(** The state after the rows [rows] of one file, from [Log.init]. *)
Definition state_after (month day : string) (rows : list (list string)) : Log.state :=
  match Log.rows_step month day Log.init rows with
  | Ok st => st
  | Err _ => Log.init
  end.

(** What [Log.read_row] makes of [row] in the state [st], and the last
    record of a state. *)
Definition parsed_of (month day : string) (st : Log.state) (row : list string)
  : Log.parsed :=
  match Log.read_row month day st row with
  | Ok p => p
  | Err _ => Log.Parsed 0 false 0 "" []
  end.

Definition last_record (st : Log.state) : list pyval :=
  default [] (last st.(Log.result)).

(** ** Outliers *)

(** Whether the pair of records [i], [j] differs on the axis at column [z]
    by more than [tol]: the test of lines 207-208. *)
Definition differ (data : list (list pyval)) (tol : pynum) (z i j : nat) : bool :=
  match cell_at data i z, cell_at data j z with
  | Some (PNum a), Some (PNum b) =>
      Num.truthy a && Num.truthy b &&
      match Num.sub a b with
      | Ok d => Num.gtb (Num.abs d) tol
      | Err _ => false
      end
  | _, _ => false
  end.

(** The weights of a run of the outlier detector that succeeded, and the
    weight of the first axis of the record [i]. *)
Definition weights_of (r : outcome (list (list Z))) : list (list Z) :=
  match r with
  | Ok weight => weight
  | Err _ => []
  end.

Definition weight_at (weight : list (list Z)) (i : nat) : option Z :=
  weight !! i ≫= fun w => w !! 0%nat.

(** ** The shift *)

(** The offset [(sx, sy)], on the grid of thousandths, that the code looks
    for: machine X minus [sx] is program X, and [sy] minus machine Y is
    program Y, for every pair of the two samples. *)
Definition consistent (sx sy : Z) (data_pos prg_pos : list (Z * Z)) : Prop :=
  length data_pos = length prg_pos
  /\ forall (i : nat) (m n : Z * Z),
       data_pos !! i = Some m -> prg_pos !! i = Some n ->
       m.1 - sx = n.1 /\ sy - m.2 = n.2.

(** The equations as the specification writes them, with machine Y plus
    [sy]. *)
Definition consistent_as_stated (sx sy : Z) (data_pos prg_pos : list (Z * Z)) : Prop :=
  length data_pos = length prg_pos
  /\ forall (i : nat) (m n : Z * Z),
       data_pos !! i = Some m -> prg_pos !! i = Some n ->
       m.1 - sx = n.1 /\ m.2 + sy = n.2.

(** A pair of sampled positions whose differences are the offset [s]. *)
Definition agree (s : Z * Z) (pair : (Z * Z) * (Z * Z)) : Prop :=
  pair.1.1 - pair.2.1 = s.1 /\ pair.1.2 + pair.2.2 = s.2.

(** The positions of the records that have one, in order. *)
Definition positions (data : list (list pyval)) : list (Z * Z) :=
  omap (fun r => match Shift.record_pos r with
                 | Ok p => Some p
                 | Err _ => None
                 end) data.

(** The windows the detector judges, one after each position. *)
Fixpoint windows (sample : Z) (data_pos : list (Z * Z)) (ps : list (Z * Z))
  : list (list (Z * Z)) :=
  match ps with
  | [] => []
  | p :: rest =>
      let w := Shift.slide sample data_pos p in
      w :: windows sample w rest
  end.

(** The end of a line of the program file. *)
Definition newline : string := String "010" EmptyString.

(** The tool-select line of the tool [n], with one digit or two, as the
    drill program writes it. *)
Definition tool_text (two_digits : bool) (n : nat) : string :=
  ("T" ++ (if two_digits && (n <? 10)%nat then "0" else "")
       ++ Text.str_of_Z (Z.of_nat n))%string.

(** Whether [Shift.tool_line] accepts the lines of the tool [n], with and
    without a line end, exactly when [n] is one of 2..9. *)
Definition tool_line_checked (n : nat) : bool :=
  forallb
    (fun line => Bool.eqb (Shift.tool_line line) ((2 <=? n) && (n <=? 9))%nat)
    [ tool_text false n; tool_text true n;
      (tool_text false n ++ newline)%string; (tool_text true n ++ newline)%string ].

(* ===================================================================== *)
(** * Sample inputs                                                       *)
(* ===================================================================== *)

(** A file system holding the one file [name], and one without any file. *)
Definition one_file (name : string) (rows : list (list string))
  : string -> option (list (list string)) :=
  fun path => if String.eqb path name then Some rows else None.

Definition no_file : string -> option (list (list string)) := fun _ => None.

Definition log_header : list string :=
  ["#Date"; "N"; "T"; "X"; "Y"; "Z1"; "Z2"; "Z3"; "Z4"]%string.

Definition log_row (time counter x y z1 z2 : string) : list string :=
  [time; counter; "1"; x; y; z1; z2]%string.

(** Five holes whose counter passes 65535. *)
Definition wrap_log : list (list string) :=
  [ log_header;
    log_row "12:00:01" "65533" "10.5" "20.25" "1.5" "0";
    log_row "12:00:02" "65534" "11.5" "20.25" "1.5" "0";
    log_row "12:00:03" "65535" "12.5" "20.25" "1.5" "0";
    log_row "12:00:04" "2" "13.5" "20.25" "1.5" "0";
    log_row "12:00:05" "3" "14.5" "20.25" "1.5" "0" ]%string.

Definition wrap_loaded : outcome (list (list pyval) * gmap string nat) :=
  Log.loadBackDrillData (one_file "pos0102.dat" wrap_log) ["pos0102.dat"%string].

(** The state after a row with the counter 65535, and a row that follows. *)
Definition full_row : list string :=
  log_row "12:00:03" "65535" "12.5" "20.25" "1.5" "0".

Definition wrap_before : Log.state := state_after "01" "02" [full_row].

Definition wrap_row : list string :=
  log_row "12:00:04" "2" "13.5" "20.25" "1.5" "0".

Definition wrap_after : Log.state := state_after "01" "02" [full_row; wrap_row].

(** A counter that falls below a stored zero. *)
Definition below_zero_log : list (list string) :=
  [ log_header;
    log_row "12:00:01" "65535" "10.5" "20.25" "1.5" "0";
    log_row "12:00:02" "0" "11.5" "20.25" "1.5" "0";
    log_row "12:00:03" "-1" "12.5" "20.25" "1.5" "0" ]%string.

Definition below_zero_loaded : outcome (list (list pyval) * gmap string nat) :=
  Log.loadBackDrillData (one_file "pos0102.dat" below_zero_log) ["pos0102.dat"%string].

(** The state after a row with the counter 0, and a row with the counter
    -1. *)
Definition zero_row : list string :=
  log_row "12:00:02" "0" "11.5" "20.25" "1.5" "0".

Definition zero_before : Log.state := state_after "01" "02" [zero_row].

Definition minus_row : list string :=
  log_row "12:00:03" "-1" "12.5" "20.25" "1.5" "0".

Definition zero_after : Log.state := state_after "01" "02" [zero_row; minus_row].

(** Two rows of one hole, both with a value in column 5. *)
Definition twice_log : list (list string) :=
  [ log_header;
    log_row "12:00:01" "7" "10.5" "20.25" "1.5" "0";
    log_row "12:00:02" "7" "10.5" "20.25" "2.5" "3.5" ]%string.

Definition twice_loaded : outcome (list (list pyval) * gmap string nat) :=
  Log.loadBackDrillData (one_file "pos0102.dat" twice_log) ["pos0102.dat"%string].

(** The first row of [twice_log], the state after it, and the second row. *)
Definition twice_first_row : list string :=
  log_row "12:00:01" "7" "10.5" "20.25" "1.5" "0".

Definition twice_first : Log.state := state_after "01" "02" [twice_first_row].

Definition twice_second : list string :=
  log_row "12:00:02" "7" "10.5" "20.25" "2.5" "3.5".

(** Four holes whose first depth axis (column 6) reads 1.0, 1.02, 1.5 and
    1.51; the column before it reads 0 and is stored as absent. *)
Definition axis_log : list (list string) :=
  [ log_header;
    log_row "12:00:01" "1" "10.5" "20.25" "0" "1.0";
    log_row "12:00:02" "2" "11.5" "20.25" "0" "1.02";
    log_row "12:00:03" "3" "12.5" "20.25" "0" "1.5";
    log_row "12:00:04" "4" "13.5" "20.25" "0" "1.51" ]%string.

Definition axis_records : list (list pyval) :=
  loaded_records
    (Log.loadBackDrillData (one_file "pos0102.dat" axis_log) ["pos0102.dat"%string]).

(** The tolerance 0.01, the double [float('0.01')]. *)
Definition tolerance : pynum :=
  match Text.float_of_string "0.01" with
  | Ok f => PFloat f
  | Err _ => PInt 0
  end.

(** A record at machine position (5, 7), a program with one hole at
    (2, 3) under the tool T02. *)
Definition shift_record : list pyval :=
  [PStr "01/02 12:00:01"; PNum (PInt 1); PNum (PFloat 1);
   PNum (PFloat 5); PNum (PFloat 7)].

Definition shift_program : list string :=
  [ "M48" ++ newline; "T02" ++ newline; "X002Y003" ++ newline ]%string.

(** Programs whose holes stand under the tool T10, and under the tool T01
    after the tool T02. *)
Definition program_T10 : list string :=
  [ "T10" ++ newline; "X001Y002" ++ newline ]%string.

Definition program_T02_T01 : list string :=
  [ "T02" ++ newline; "T01" ++ newline; "X001Y002" ++ newline ]%string.

(* ===================================================================== *)
(** * Further notions                                                     *)
(* ===================================================================== *)

(** ** The records of a load *)

(** A record as the parser stores it: 23 cells at least, the time stamp in
    cell 0, the unwrapped counter, an int, in cell 1, and from column 5 on
    no number but a float that differs from zero. *)
Definition stored_record (r : list pyval) : Prop :=
  (23 <= length r)%nat
  /\ (exists ts : string, r !! 0%nat = Some (PStr ts))
  /\ (exists n : Z, r !! 1%nat = Some (PNum (PInt n)))
  /\ (forall (c : nat) (n : pynum),
        (5 <= c)%nat -> r !! c = Some (PNum n) ->
        (exists f : float, n = PFloat f) /\ Num.eqb n (PInt 0) = false).

(** Every run boundary points at a record, whose time stamp is its key. *)
Definition boundaries_ok (records : list (list pyval)) (flags : gmap string nat)
  : Prop :=
  forall (key : string) (i : nat),
    flags !! key = Some i ->
    exists r : list pyval, records !! i = Some r /\ r !! 0%nat = Some (PStr key).

(** No record is followed by a record of the same hole. *)
Definition neighbours_differ (records : list (list pyval)) : Prop :=
  forall (i : nat) (r0 r : list pyval),
    records !! i = Some r0 -> records !! S i = Some r ->
    Log.same_hole r0 r = Ok false.

(** The run boundaries of a load that succeeded, as the dictionary. *)
Definition loaded_bounds (r : outcome (list (list pyval) * gmap string nat))
  : gmap string nat :=
  match r with
  | Ok (_, flags) => flags
  | Err _ => ∅
  end.

(** ** The weights of the outlier detector *)

(** The weight of the axis [k] of the record [i]. *)
Definition weight_of (weight : list (list Z)) (i k : nat) : option Z :=
  weight !! i ≫= fun w => w !! k.

(** The column that holds the measured depth of the axis [k]. *)
Definition axis_column (k : nat) : nat := (6 + 3 * k)%nat.

Definition count_of (b : bool) : Z := if b then 1 else 0.

(** The sum of [g] over a list. *)
Definition total {A} (g : A -> Z) (l : list A) : Z :=
  foldr (fun x acc => g x + acc) 0 l.

(** How many of the records at most [lag] places after the record [i], or
    before it, differ from it on the axis [k] by more than [tol]. *)
Definition differing (data : list (list pyval)) (tol : pynum) (lag k i : nat) : Z :=
  total (fun s => count_of (differ data tol (axis_column k) i (i + s))
                  + count_of ((s <=? i)%nat
                              && differ data tol (axis_column k) (i - s) i))
        (seq 1 lag).

(** A record the detector can read: 22 cells at least, and in the columns
    of the six axes nothing but an absent value or a float. *)
Definition measured_record (r : list pyval) : Prop :=
  (22 <= length r)%nat
  /\ forall (z : nat) (v : pyval),
       z ∈ Outliers.axes -> r !! z = Some v ->
       v = PNone \/ exists f : float, v = PNum (PFloat f).

(** Two records of 23 cells that differ on the first depth axis (1.0 and
    1.5), the second one with a depth on the last axis as well. *)
Definition depth_pair : list (list pyval) :=
  [ replicate 6 PNone ++ [PNum (PFloat 1)] ++ replicate 16 PNone;
    replicate 6 PNone ++ [PNum (PFloat 1.5)] ++ replicate 14 PNone
      ++ [PNum (PFloat 2.25); PNone] ]%list.

(** What the pair [(i, i + step)] adds on the column [z] to the weight of
    the axis [k] of the record [j]. *)
Definition added (data : list (list pyval)) (tol : pynum) (i step z j k : nat) : Z :=
  if differ data tol z i (i + step) && ((z - 6) / 3 =? k)%nat
  then count_of (i =? j)%nat + count_of (i + step =? j)%nat
  else 0.

(** The shape of the weights: a row of six for each of the [n] records. *)
Definition shaped (n : nat) (w : list (list Z)) : Prop :=
  length w = n /\ Forall (fun row => length row = 6%nat) w.

(** ** The windows of the shift detector *)

(** What the loop over the records makes of the verdict on one window. *)
Definition shift_of (v : outcome Shift.verdict) : outcome (option (float * float)) :=
  match v with
  | Ok (Shift.VShift dx dy) => Ok (Some (dx, dy))
  | Ok _ => Ok None
  | Err e => Err e
  end.

(** The first window, in order, that [judgeShift] accepts. *)
Fixpoint first_shift (prg_pos : list (Z * Z)) (ws : list (list (Z * Z)))
  : outcome (option (float * float)) :=
  match ws with
  | [] => Ok None
  | w :: rest =>
      v ← Shift.judgeShift w prg_pos;
      match v with
      | Shift.VShift dx dy => Ok (Some (dx, dy))
      | _ => first_shift prg_pos rest
      end
  end.

(** Whether a record has a position: [float(r[3])] and [float(r[4])]
    raise nothing and can be rounded. *)
Definition has_position (r : list pyval) : bool := is_ok (Shift.record_pos r).

(** ** The maps of the drill program *)

(** What [loadPrgData] keeps in its maps: a tool is a line [T] and one or
    two digits, the depth of a tool is a line of [m18Pattern], the size
    of a tool is a line of [toolSizePattern] that names it, and a
    position is a key of eight bytes. *)
Definition program_maps_ok
    (tool_size : gmap string string) (tools : gmap (list Byte.byte) string)
    (m18 : gmap string string) : Prop :=
  (forall (key : list Byte.byte) (t : string),
      tools !! key = Some t -> length key = 8%nat /\ Prg.tool_line t = true)
  /\ (forall t line : string,
        m18 !! t = Some line -> Prg.tool_line t = true /\ Prg.m18_line line = true)
  /\ (forall t line : string,
        tool_size !! t = Some line ->
        Prg.tool_line t = true /\ Prg.tool_size_line line = Some t).

(** What holds of the state of the loop over the lines. *)
Definition state_ok (st : Prg.state) : Prop :=
  (forall t, st.(Prg.curTool) = Some t -> Prg.tool_line t = true)
  /\ program_maps_ok st.(Prg.tool_size) st.(Prg.tools) st.(Prg.m18).

(** The maps of a load that succeeded. *)
Definition loaded_sizes
    (r : outcome (gmap string string * gmap (list Byte.byte) string * gmap string string))
  : gmap string string :=
  match r with
  | Ok (tool_size, _, _) => tool_size
  | Err _ => ∅
  end.

Definition loaded_tools
    (r : outcome (gmap string string * gmap (list Byte.byte) string * gmap string string))
  : gmap (list Byte.byte) string :=
  match r with
  | Ok (_, tools, _) => tools
  | Err _ => ∅
  end.

Definition loaded_depths
    (r : outcome (gmap string string * gmap (list Byte.byte) string * gmap string string))
  : gmap string string :=
  match r with
  | Ok (_, _, m18) => m18
  | Err _ => ∅
  end.

(** A program: two sized tools, a depth and holes under each, and a hole
    before any tool. *)
Definition drill_program : list string :=
  [ "M48" ++ newline; "T01C0.5" ++ newline; "T02C1" ++ newline; "%" ++ newline;
    "X009Y009" ++ newline;
    "T01" ++ newline; "M18Z-1.5" ++ newline; "X001Y002" ++ newline;
    "X-0015Y" ++ newline;
    "T02" ++ newline; "M18Z2." ++ newline; "X002Y003" ++ newline;
    "M30" ++ newline ]%string.

(** ** Lines and fields *)

(** Whether every character of [s] satisfies [p]. *)
Fixpoint every (p : ascii -> bool) (s : string) : bool :=
  match s with
  | EmptyString => true
  | String c t => p c && every p t
  end.

(** A text of the group [-?\d*] of [posPattern]: digits, after a minus
    sign or not. *)
Definition number_text (x : string) : bool :=
  match x with
  | String c t => if Ascii.eqb c "-" then every Text.is_digit t
                  else every Text.is_digit x
  | EmptyString => true
  end.

(** Nothing, or the line end. *)
Definition line_end (e : string) : Prop := e = ""%string \/ e = newline.

(** The key of a position on the grid of thousandths. *)
Definition key_of (p : Z * Z) : list Byte.byte :=
  (Struct.le32 p.1 ++ Struct.le32 p.2)%list.

(** What links the loop of [calc_shift] over the lines of a program to
    the loop of [loadPrgData] over the same lines: a tool selected there
    is a tool selected here, and every position sampled is a key. *)
Definition scan_in_load (curTool : option string) (prg_pos : list (Z * Z))
    (st : Prg.state) : Prop :=
  (is_Some curTool -> is_Some st.(Prg.curTool))
  /\ forall p : Z * Z, p ∈ prg_pos -> is_Some (st.(Prg.tools) !! key_of p).

(** ** The rework program *)

Section ReworkNotions.

Variable toolPos : gmap (list Byte.byte) string.
Variable toolDepth : gmap string string.
Variable data : list (list pyval).
Variable b : Gui.boxes.
Variable threshold : Z.
Variable result : list (list Z).

(** The record [i] is written as [text] under [tool]: its weights pass
    the threshold on a checked axis, its position is a key of the tool
    map, under [tool], and [text] is its position as [prgPos] writes it. *)
Definition rework_hole (i : nat) (tool text : string) : Prop :=
  exists (v : list Z) (hole : list pyval) (x y : pyval) (pos : list Byte.byte),
    result !! i = Some v /\ Gui.exceeds b threshold v = Ok true
    /\ data !! i = Some hole /\ hole !! 3%nat = Some x /\ hole !! 4%nat = Some y
    /\ packPos x y = Ok pos /\ toolPos !! pos = Some tool
    /\ Gui.prgPos_cells x y = Ok text.

(** Whether the record [i] is one that passes the threshold at a position
    the program knows. *)
Definition reworked (i : nat) : bool :=
  match result !! i with
  | Some v =>
      match Gui.exceeds b threshold v with
      | Ok true =>
          match (hole ← Cell.item data i;
                 x ← Cell.item hole 3;
                 y ← Cell.item hole 4;
                 packPos x y) with
          | Ok pos => bool_decide (is_Some (toolPos !! pos))
          | Err _ => false
          end
      | _ => false
      end
  | None => false
  end.

(** [M19], when a tool is selected. *)
Definition closing (cur : option string) : list string :=
  match cur with
  | Some _ => [Gui.line_of "M19"]
  | None => []
  end.

(** The body of a rework program, the tool selected at its end and the
    records it drills: nothing; or a body, the [M19] that closes its
    tool, a line of another tool and the depth of this tool; or a body and
    a hole of its tool. *)
Inductive blocks : option string -> list string -> list nat -> Prop :=
| blocks_none : blocks None [] []
| blocks_tool (cur : option string) (tool depth : string) (body : list string)
    (holes : list nat) :
    blocks cur body holes -> cur <> Some tool -> toolDepth !! tool = Some depth ->
    blocks (Some tool)
      (body ++ closing cur ++ [Gui.line_of tool; Gui.line_of depth]) holes
| blocks_hole (tool text : string) (body : list string) (holes : list nat) (i : nat) :
    blocks (Some tool) body holes -> rework_hole i tool text ->
    blocks (Some tool) (body ++ [text; Gui.newline_text]) (holes ++ [i]).

End ReworkNotions.

(** The boxes all checked, and three records at (1, 2), (5, 5) and
    (2, 3): the second is no hole of [drill_program]. *)
Definition all_boxes : Gui.boxes := Gui.Boxes true true true true true true.

Definition rework_records : list (list pyval) :=
  [ [PStr "01/02 12:00:01"; PNum (PInt 1); PNum (PFloat 1);
     PNum (PFloat 1); PNum (PFloat 2)];
    [PStr "01/02 12:00:02"; PNum (PInt 2); PNum (PFloat 1);
     PNum (PFloat 5); PNum (PFloat 5)];
    [PStr "01/02 12:00:03"; PNum (PInt 3); PNum (PFloat 1);
     PNum (PFloat 2); PNum (PFloat 3)] ].

Definition rework_weights : list (list Z) :=
  [ [3; 0; 0; 0; 0; 0]; [0; 0; 0; 0; 0; 4]; [0; 3; 0; 0; 0; 0] ].

Definition rework_written : list string * option Gui.fault :=
  Gui.output_prg (loaded_tools (Prg.loadPrgData drill_program))
    (loaded_depths (Prg.loadPrgData drill_program))
    rework_records all_boxes 2 drill_program rework_weights.

(** A file system with two record files. *)
Definition two_logs : string -> option (list (list string)) :=
  fun path =>
    if String.eqb path "pos0102.dat" then Some wrap_log
    else if String.eqb path "pos0103.dat" then Some twice_log
    else None.

(* ===================================================================== *)
(** * Properties                                                          *)
(* ===================================================================== *)

(** ** The monad of outcomes *)

Lemma bind_Ok {A B} (m : outcome A) (f : A -> outcome B) (b : B) :
  m ≫= f = Ok b <-> exists a, m = Ok a /\ f a = Ok b.
Proof.
  unfold mbind, outcome_bind. destruct m as [a|e]; split.
  - eauto.
  - intros (a' & Ha & Hf). congruence.
  - discriminate.
  - intros (a' & Ha & _). discriminate.
Qed.

Lemma bind_Err {A B} (m : outcome A) (f : A -> outcome B) (e : error) :
  m ≫= f = Err e <-> m = Err e \/ exists a, m = Ok a /\ f a = Err e.
Proof.
  unfold mbind, outcome_bind. destruct m as [a|e']; split.
  - eauto.
  - intros [Hm | (a' & Ha & Hf)]; congruence.
  - intros [= ->]. left. reflexivity.
  - intros [Hm | (a' & Ha & _)]; congruence.
Qed.

Lemma fmap_Ok {A B} (m : outcome A) (f : A -> B) (b : B) :
  f <$> m = Ok b <-> exists a, m = Ok a /\ f a = b.
Proof.
  unfold fmap, outcome_fmap. destruct m as [a|e]; split.
  - intros [= <-]. eauto.
  - intros (a' & [= <-] & <-). reflexivity.
  - discriminate.
  - intros (a' & Ha & _). discriminate.
Qed.

(** ** Binary64 arithmetic *)

Module FloatFacts.

Lemma digits2_pos_size (p : positive) : digits2_pos p = Pos.size p.
Proof. induction p; simpl; congruence. Qed.

Lemma Zdigits2_log2 (p : positive) : Zdigits2 (Z.pos p) = Z.log2 (Z.pos p) + 1.
Proof.
  unfold Zdigits2. rewrite digits2_pos_size.
  destruct p; simpl; lia.
Qed.

Lemma Zdigits2_nonneg (m : Z) : 0 <= Zdigits2 m.
Proof. destruct m; simpl; lia. Qed.

Lemma Zdigits2_mono (a b : Z) : 0 <= a <= b -> Zdigits2 a <= Zdigits2 b.
Proof.
  intros [Ha Hab]. destruct a as [|a|a]; [|
    |lia].
  - apply Zdigits2_nonneg.
  - destruct b as [|b|b]; try lia.
    rewrite !Zdigits2_log2. pose proof (Z.log2_le_mono (Z.pos a) (Z.pos b)). lia.
Qed.

Lemma Zdigits2_succ (a : Z) : 0 <= a -> Zdigits2 (a + 1) <= Zdigits2 a + 1.
Proof.
  intros Ha. destruct a as [|a|a]; [simpl; lia| |lia].
  replace (Z.pos a + 1) with (Z.pos (a + 1)) by lia.
  rewrite !Zdigits2_log2.
  pose proof (Z.log2_succ_le (Z.pos a)).
  replace (Z.succ (Z.pos a)) with (Z.pos (a + 1)) in * by lia. lia.
Qed.

Lemma Zdigits2_mul (a b : positive) :
  Zdigits2 (Z.pos (a * b)) <= Zdigits2 (Z.pos a) + Zdigits2 (Z.pos b).
Proof.
  rewrite !Zdigits2_log2.
  pose proof (Z.log2_mul_above (Z.pos a) (Z.pos b)).
  replace (Z.pos (a * b)) with (Z.pos a * Z.pos b) by lia. lia.
Qed.

Lemma shr_1_m (mrs : shr_record) :
  0 <= shr_m mrs -> 0 <= shr_m (shr_1 mrs) <= shr_m mrs.
Proof.
  destruct mrs as [m r s]. simpl.
  destruct m as [|[p|p|]|[p|p|]]; simpl; lia.
Qed.

Lemma iter_shr_1_m (p : positive) (mrs : shr_record) :
  0 <= shr_m mrs -> 0 <= shr_m (SpecFloat.iter_pos shr_1 p mrs) <= shr_m mrs.
Proof.
  revert mrs. induction p as [p IH|p IH|]; intros mrs H; simpl.
  - pose proof (shr_1_m mrs H) as H1.
    pose proof (IH _ (proj1 H1)) as H2.
    pose proof (IH _ (proj1 H2)) as H3. lia.
  - pose proof (IH _ H) as H2.
    pose proof (IH _ (proj1 H2)) as H3. lia.
  - apply shr_1_m, H.
Qed.

Lemma shr_record_of_loc_m (m : Z) (l : location) : shr_m (shr_record_of_loc m l) = m.
Proof. destruct l as [|[]]; reflexivity. Qed.

Lemma shr_fexp_bounds (m e : Z) (l : location) :
  0 <= m ->
  let '(mrs, e') := shr_fexp prec emax m e l in
  0 <= shr_m mrs <= m /\ (e' = e \/ e' = fexp prec emax (Zdigits2 m + e)).
Proof.
  intros Hm. unfold shr_fexp, shr.
  destruct (fexp prec emax (Zdigits2 m + e) - e) as [|p|p] eqn:E.
  - rewrite shr_record_of_loc_m. split; [lia|auto].
  - pose proof (iter_shr_1_m p (shr_record_of_loc m l)) as H.
    rewrite shr_record_of_loc_m in H. split; [apply H, Hm|]. right. lia.
  - rewrite shr_record_of_loc_m. split; [lia|auto].
Qed.

Lemma round_nearest_even_bounds (m : Z) (l : location) :
  m <= round_nearest_even m l <= m + 1.
Proof.
  unfold round_nearest_even. destruct l as [|[]]; try lia.
  destruct (Z.even m); lia.
Qed.

Lemma fexp_eq (x : Z) : fexp prec emax x = Z.max (x - 53) (-1074).
Proof. reflexivity. Qed.

(** A product of two floats below [2^107 * 2^0] is rounded to a zero or to a
    finite float. *)
Lemma binary_round_aux_finite (s : bool) (M : positive) (E : Z) :
  Zdigits2 (Z.pos M) <= 106 -> E <= 0 ->
  match binary_round_aux prec emax s (Z.pos M) E loc_Exact with
  | S754_zero _ | S754_finite _ _ _ => True
  | _ => False
  end.
Proof.
  intros HM HE. unfold binary_round_aux.
  pose proof (shr_fexp_bounds (Z.pos M) E loc_Exact ltac:(lia)) as H1.
  destruct (shr_fexp prec emax (Z.pos M) E loc_Exact) as [mrs' e'].
  destruct H1 as [Hm' He'].
  set (m2 := round_nearest_even (shr_m mrs') (loc_of_shr_record mrs')).
  pose proof (round_nearest_even_bounds (shr_m mrs') (loc_of_shr_record mrs')) as Hr.
  fold m2 in Hr.
  pose proof (shr_fexp_bounds m2 e' loc_Exact ltac:(lia)) as H2.
  destruct (shr_fexp prec emax m2 e' loc_Exact) as [mrs'' e''].
  destruct H2 as [Hm'' He''].
  assert (Hd2 : Zdigits2 m2 <= 107).
  { pose proof (Zdigits2_mono m2 (Z.pos M + 1) ltac:(lia)).
    pose proof (Zdigits2_succ (Z.pos M) ltac:(lia)). lia. }
  pose proof (Zdigits2_nonneg m2).
  rewrite !fexp_eq in *.
  destruct (shr_m mrs'') as [|p|p] eqn:Em; [exact I| |lia].
  destruct (e'' <=? emax - prec) eqn:El; [exact I|].
  apply Z.leb_gt in El. change (emax - prec) with 971 in El. lia.
Qed.


Lemma binary_round_aux_sign (s : bool) (M E : Z) (l : location) :
  binary_round_aux prec emax s M E l =
  match binary_round_aux prec emax false M E l with
  | S754_zero _ => S754_zero s
  | S754_infinity _ => S754_infinity s
  | S754_finite _ m e => S754_finite s m e
  | S754_nan => S754_nan
  end.
Proof.
  unfold binary_round_aux.
  destruct (shr_fexp prec emax M E l) as [mrs' e'].
  destruct (shr_fexp prec emax _ e' loc_Exact) as [mrs'' e''].
  destruct (shr_m mrs''); try reflexivity.
  destruct (e'' <=? emax - prec); reflexivity.
Qed.

Lemma float_of_Z_1000 : Num.float_of_Z 1000 = Ok 1000%float.
Proof. vm_compute. reflexivity. Qed.

Lemma Prim2SF_1000 : Prim2SF 1000 = S754_finite false 8796093022208000 (-43).
Proof. vm_compute. reflexivity. Qed.

Lemma scale1000_float (f : float) :
  Num.scale1000 (PFloat f) = Num.round_float (f * 1000).
Proof. unfold Num.scale1000, Num.mul. cbn. rewrite float_of_Z_1000. reflexivity. Qed.

Lemma exact_compare_antisym (a b : Num.exact) (c : comparison) :
  Num.exact_compare a b = Some c -> Num.exact_compare b a = Some (CompOpp c).
Proof.
  destruct a as [|s|m1 e1], b as [|t|m2 e2]; simpl; try discriminate.
  - destruct s, t; intros [= <-]; reflexivity.
  - destruct s; intros [= <-]; reflexivity.
  - destruct t; intros [= <-]; reflexivity.
  - intros [= <-]. rewrite (Z.min_comm e2 e1). rewrite Z.compare_antisym. reflexivity.
Qed.

(** What [abs(f) < 1000] says of the float [f]. *)
Lemma below_1000_float (f : float) :
  Num.ltb (Num.abs (PFloat f)) (PInt 1000) = true ->
  match Prim2SF f with
  | S754_zero _ => True
  | S754_finite _ m e => e <= 9 /\ Zdigits2 (Z.pos m) <= 53
  | _ => False
  end.
Proof.
  unfold Num.ltb, Num.abs, Num.compare, Num.exact_of, Num.exact_of_float.
  rewrite abs_spec. pose proof (Prim2SF_valid f) as Hv.
  destruct (Prim2SF f) as [s|s| |s m e]; simpl; try discriminate; [exact (fun _ => I)|].
  intros H.
  destruct (Z.pos m * 2 ^ (e - Z.min e 0) ?= 1000 * 2 ^ (0 - Z.min e 0)) eqn:Ec;
    try discriminate.
  split.
  - destruct (Z_le_gt_dec e 9) as [|Hgt]; [assumption|exfalso].
    rewrite Z.min_r in Ec by lia.
    replace (e - 0) with e in Ec by lia.
    change (1000 * 2 ^ (0 - 0)) with 1000 in Ec.
    assert (Hlt : Z.pos m * 2 ^ e < 1000) by exact Ec.
    pose proof (Z.pow_le_mono_r 2 10 e ltac:(lia) ltac:(lia)) as Hp.
    change (2 ^ 10) with 1024 in Hp.
    assert (1 * 1024 <= Z.pos m * 2 ^ e) by (apply Z.mul_le_mono_nonneg; lia).
    lia.
  - simpl in Hv. unfold bounded, canonical_mantissa in Hv.
    apply andb_true_iff in Hv as [Hc _]. apply Z.eqb_eq in Hc.
    rewrite fexp_eq in Hc. simpl. lia.
Qed.

Lemma mul_1000_spec (f : float) :
  Prim2SF (f * 1000) =
  match Prim2SF f with
  | S754_zero s => S754_zero s
  | S754_infinity s => S754_infinity s
  | S754_nan => S754_nan
  | S754_finite s m e =>
      binary_round_aux prec emax s (Z.pos (m * 8796093022208000)) (e + -43) loc_Exact
  end.
Proof.
  rewrite mul_spec, Prim2SF_1000. unfold SF64mul, SFmul.
  destruct (Prim2SF f) as [s|s| |s m e]; try reflexivity;
    rewrite ?xorb_false_r; reflexivity.
Qed.

(** [int(round(x*1000))] has a value whenever [abs(x) < 1000]. *)
Lemma scale1000_total (x : pynum) :
  Num.ltb (Num.abs x) (PInt 1000) = true -> exists n, Num.scale1000 x = Ok n.
Proof.
  destruct x as [z|f]; [intros _; eexists; reflexivity|].
  intros H. apply below_1000_float in H.
  rewrite scale1000_float. unfold Num.round_float. rewrite mul_1000_spec.
  destruct (Prim2SF f) as [s|s| |s m e]; try contradiction.
  - eexists; reflexivity.
  - destruct H as [He Hd].
    pose proof (binary_round_aux_finite s (m * 8796093022208000) (e + -43)) as Hf.
    pose proof (Zdigits2_mul m 8796093022208000) as Hm.
    change (Zdigits2 (Z.pos 8796093022208000)) with 53 in Hm.
    specialize (Hf ltac:(lia) ltac:(lia)).
    destruct (binary_round_aux prec emax s _ _ loc_Exact); try contradiction;
      eexists; reflexivity.
Qed.

(** Rounding is symmetric: [abs(int(round(x*1000)))] is
    [int(round(abs(x)*1000))]. *)
Lemma scale1000_abs (x : pynum) (n : Z) :
  Num.scale1000 x = Ok n -> Num.scale1000 (Num.abs x) = Ok (Z.abs n).
Proof.
  destruct x as [z|f].
  - cbn. intros [= <-]. f_equal. lia.
  - unfold Num.abs. rewrite !scale1000_float. unfold Num.round_float.
    rewrite !mul_1000_spec, abs_spec.
    destruct (Prim2SF f) as [s|s| |s m e]; simpl; try discriminate.
    + intros [= <-]. reflexivity.
    + rewrite (binary_round_aux_sign s).
      pose proof (binary_round_aux_sign false (Z.pos (m * 8796093022208000))
                    (e + -43) loc_Exact) as Hs.
      destruct (binary_round_aux prec emax false _ _ loc_Exact) as [s'|s'| |s' m' e'];
        try discriminate.
      * intros [= <-]. reflexivity.
      * intros [= <-]. f_equal.
        assert (0 <= Num.round_half_even (Z.pos m') e').
        { unfold Num.round_half_even.
          destruct (0 <=? e') eqn:E0.
          - apply Z.leb_le in E0. pose proof (Z.pow_pos_nonneg 2 e'). nia.
          - apply Z.leb_gt in E0.
            pose proof (Z.pow_pos_nonneg 2 (- e') ltac:(lia) ltac:(lia)).
            pose proof (Z.div_pos (Z.pos m') (2 ^ (- e')) ltac:(lia) ltac:(lia)).
            destruct (_ ?= _); [destruct (Z.even _)| |]; lia. }
        injection Hs as ->. destruct s; lia.
Qed.

End FloatFacts.

(** ** Text *)

Module TextFacts.
Import Text.
Local Open Scope string_scope.

Lemma rstrip_by_split (c : ascii) (s : string) :
  exists k, s = rstrip c s ++ replicate k c.
Proof.
  unfold rstrip. induction s as [|a t [k IH]]; simpl.
  - exists 0%nat. reflexivity.
  - revert IH. destruct (rstrip_by (Ascii.eqb c) t) as [|b t'] eqn:Et.
    + simpl. intros IH. destruct (Ascii.eqb c a) eqn:Eca.
      * apply Ascii.eqb_eq in Eca. subst a. exists (S k).
        rewrite IH at 1. reflexivity.
      * exists k. rewrite IH at 1. reflexivity.
    + intros IH. exists k. rewrite IH at 1. reflexivity.
Qed.

Lemma rstrip_by_last (c : ascii) (s p : string) (a : ascii) :
  rstrip c s = p ++ String a "" -> a <> c.
Proof.
  unfold rstrip. revert p. induction s as [|b t IH]; intros p; simpl.
  - destruct p; discriminate.
  - revert IH. destruct (rstrip_by (Ascii.eqb c) t) as [|b' t'] eqn:Et; intros IH.
    + destruct (Ascii.eqb c b) eqn:Ecb.
      * destruct p; discriminate.
      * destruct p as [|x [|y p']]; simpl; try discriminate.
        intros [= <-] ->. rewrite Ascii.eqb_refl in Ecb. discriminate.
    + destruct p as [|x p']; simpl.
      * discriminate.
      * intros [= <- Hp]. apply (IH p'). exact Hp.
Qed.

Lemma append_one_empty (p : string) (a : ascii) :
  String a "" = p ++ String a "" -> p = "".
Proof.
  destruct p as [|x [|y p']]; simpl; [reflexivity|discriminate|discriminate].
Qed.

Lemma append_empty (s1 s2 : string) : s1 ++ s2 = "" -> s1 = "" /\ s2 = "".
Proof. destruct s1; [intros H; split; [reflexivity|exact H]|discriminate]. Qed.

Lemma rstrip_by_replicate (q : ascii -> bool) (c : ascii) (k : nat) :
  q c = true -> rstrip_by q (replicate k c) = "".
Proof.
  intros Hq. induction k as [|k IH]; [reflexivity|].
  cbn [replicate rstrip_by]. rewrite IH, Hq. reflexivity.
Qed.

Lemma rstrip_by_app (q : ascii -> bool) (s t : string) :
  rstrip_by q t <> "" -> rstrip_by q (s ++ t) = s ++ rstrip_by q t.
Proof.
  intros Ht. induction s as [|a s IH]; [reflexivity|].
  change (rstrip_by q (String a (s ++ t)) = String a (s ++ rstrip_by q t)).
  cbn [rstrip_by]. rewrite IH.
  destruct (s ++ rstrip_by q t) as [|b u] eqn:E; [|reflexivity].
  apply append_empty in E as [_ E]. contradiction.
Qed.

Lemma last_char (d : string) : d <> "" -> exists p a, d = p ++ String a "".
Proof.
  induction d as [|b d IH]; [contradiction|]. intros _.
  destruct d as [|c d'].
  - exists "", b. reflexivity.
  - destruct IH as (p & a & Hp); [discriminate|].
    exists (String b p), a. rewrite Hp. reflexivity.
Qed.

End TextFacts.

Lemma digits_text_spec (n : Z) : digits_of n (digits_text n).
Proof.
  unfold digits_of, digits_text, Text.rjust.
  set (s := (Text.replicate (6 - String.length (Text.str_of_Z n)) "0"
               ++ Text.str_of_Z n)%string).
  destruct (TextFacts.rstrip_by_split "0" s) as [k Hk].
  pose proof (TextFacts.rstrip_by_last "0" s) as Hlast.
  destruct (Text.rstrip "0" s) as [|a t] eqn:Es.
  - destruct k as [|k].
    + exfalso. subst s.
      apply TextFacts.append_empty in Hk as [Hpad Hstr].
      rewrite Hstr in Hpad. discriminate.
    + exists k. split; [exact Hk|]. split; [discriminate|].
      intros p Hp. exact (TextFacts.append_one_empty p "0" Hp).
  - exists k. split; [exact Hk|]. split; [discriminate|].
    intros p Hp. exfalso. apply (Hlast p "0"%char); [exact Hp|reflexivity].
Qed.

(** The digits the specification describes are those [digits_text]
    computes, and no other text. *)
Lemma digits_of_iff (n : Z) (d : string) : digits_of n d <-> d = digits_text n.
Proof.
  split; [|intros ->; apply digits_text_spec].
  intros (k & Hk & Hne & Hz).
  unfold digits_text, Text.rjust, Text.rstrip. rewrite Hk.
  destruct (TextFacts.last_char d Hne) as (p & a & ->).
  destruct (Ascii.eqb "0" a) eqn:Ea.
  - apply Ascii.eqb_eq in Ea. subst a. rewrite (Hz p eq_refl).
    change (("" ++ "0") ++ Text.replicate k "0")%string
      with (Text.replicate (S k) "0").
    rewrite TextFacts.rstrip_by_replicate by reflexivity. reflexivity.
  - assert (Hl : Text.rstrip_by (Ascii.eqb "0") (String a (Text.replicate k "0"))
                 = String a "").
    { cbn [Text.rstrip_by].
      rewrite TextFacts.rstrip_by_replicate by reflexivity.
      rewrite Ea. reflexivity. }
    assert (Happ : forall u v w : string, ((u ++ v) ++ w = u ++ v ++ w)%string).
    { induction u as [|c u IH]; intros v w; [reflexivity|].
      change (String c ((u ++ v) ++ w) = String c (u ++ v ++ w))%string.
      rewrite IH. reflexivity. }
    rewrite Happ.
    change (String a "" ++ Text.replicate k "0")%string
      with (String a (Text.replicate k "0")).
    rewrite TextFacts.rstrip_by_app by (rewrite Hl; discriminate).
    rewrite Hl. destruct p; reflexivity.
Qed.

(** ** [struct.pack('<ii', x, y)] *)

Module StructFacts.
Import Struct.

Lemma byte_of_Z_inj (a b : Z) :
  byte_of_Z a = byte_of_Z b -> Z.land a 255 = Z.land b 255.
Proof.
  unfold byte_of_Z. intros H.
  apply (f_equal ascii_of_byte) in H.
  rewrite !ascii_of_byte_of_ascii in H.
  apply (f_equal N_of_ascii) in H.
  assert (Hr : forall z, (Z.to_N (Z.land z 255) < 256)%N).
  { intros z. change 255 with (Z.ones 8). rewrite Z.land_ones by lia.
    pose proof (Z.mod_pos_bound z (2 ^ 8)). lia. }
  rewrite !N_ascii_embedding in H by apply Hr.
  apply (f_equal Z.of_N) in H.
  assert (Hn : forall z, 0 <= Z.land z 255).
  { intros z. apply Z.land_nonneg. lia. }
  rewrite !Z2N.id in H by apply Hn.
  exact H.
Qed.

Lemma le32_length (z : Z) : length (le32 z) = 4%nat.
Proof. reflexivity. Qed.

Lemma le32_inj (a b : Z) :
  fits_int32 a = true -> fits_int32 b = true -> le32 a = le32 b -> a = b.
Proof.
  unfold fits_int32, le32. intros Ha Hb [= H0 H1 H2 H3].
  apply byte_of_Z_inj in H0, H1, H2, H3.
  change 255 with (Z.ones 8) in *.
  rewrite !Z.land_ones in * by lia.
  rewrite !Z.shiftr_div_pow2 in * by lia.
  apply andb_true_iff in Ha, Hb.
  destruct Ha as [Ha1 Ha2], Hb as [Hb1 Hb2].
  apply Z.leb_le in Ha1, Ha2, Hb1, Hb2.
  change (2 ^ 31) with 2147483648 in *.
  change (2 ^ 8) with 256 in *.
  change (2 ^ 16) with 65536 in *.
  change (2 ^ 24) with 16777216 in *.
  Z.div_mod_to_equations. lia.
Qed.

Lemma pack_ii_Ok (x y : Z) (k : list Byte.byte) :
  pack_ii x y = Ok k <->
  fits_int32 x = true /\ fits_int32 y = true /\ k = le32 x ++ le32 y.
Proof.
  unfold pack_ii.
  destruct (fits_int32 x), (fits_int32 y); simpl; split;
    try discriminate; try (intros (? & ? & ?); discriminate).
  - intros [= <-]. auto.
  - intros (_ & _ & ->). reflexivity.
Qed.

Lemma pack_ii_inj (x y x' y' : Z) (k : list Byte.byte) :
  pack_ii x y = Ok k -> pack_ii x' y' = Ok k -> x = x' /\ y = y'.
Proof.
  intros H H'. apply pack_ii_Ok in H, H'.
  destruct H as (Hx & Hy & ->), H' as (Hx' & Hy' & He).
  apply app_inj_1 in He; [| reflexivity].
  destruct He as [E1 E2]. split; apply le32_inj; assumption.
Qed.

End StructFacts.

(** ** [packPos] *)

Lemma packPos_grid (x y : pyval) (zx zy : Z) :
  grid_of x = Ok zx -> grid_of y = Ok zy ->
  packPos x y = Struct.pack_ii zx zy.
Proof.
  unfold grid_of, packPos. intros Hx Hy.
  apply bind_Ok in Hx as (x' & Hx & Hsx).
  apply bind_Ok in Hy as (y' & Hy & Hsy).
  rewrite Hx. cbn. rewrite Hy. cbn. rewrite Hsx. cbn. rewrite Hsy. reflexivity.
Qed.

Lemma packPos_Ok_grid (x y : pyval) (k : list Byte.byte) :
  packPos x y = Ok k ->
  exists zx zy, grid_of x = Ok zx /\ grid_of y = Ok zy /\ Struct.pack_ii zx zy = Ok k.
Proof.
  unfold packPos, grid_of. intros H.
  apply bind_Ok in H as (x' & Hx & H).
  apply bind_Ok in H as (y' & Hy & H).
  apply bind_Ok in H as (zx & Hsx & H).
  apply bind_Ok in H as (zy & Hsy & H).
  exists zx, zy. rewrite Hx, Hy. cbn. auto.
Qed.

Lemma fits_int32_iff (z : Z) :
  Struct.fits_int32 z = true <-> - 2 ^ 31 <= z <= 2 ^ 31 - 1.
Proof.
  unfold Struct.fits_int32. rewrite andb_true_iff, !Z.leb_le. reflexivity.
Qed.

Lemma packPos_unfit_l (x y : pyval) (zx : Z) :
  grid_of x = Ok zx -> Struct.fits_int32 zx = false -> is_ok (packPos x y) = false.
Proof.
  unfold grid_of, packPos. intros Hx Hfx.
  apply bind_Ok in Hx as (x' & Hx & Hsx). rewrite Hx. cbn [mbind outcome_bind].
  destruct (decode_text y) as [y'|e]; [|reflexivity]. cbn [mbind outcome_bind].
  rewrite Hsx. cbn [mbind outcome_bind].
  destruct (scale_val y') as [zy|e]; [|reflexivity]. cbn [mbind outcome_bind].
  unfold Struct.pack_ii. rewrite Hfx. reflexivity.
Qed.

Lemma packPos_unfit_r (x y : pyval) (zy : Z) :
  grid_of y = Ok zy -> Struct.fits_int32 zy = false -> is_ok (packPos x y) = false.
Proof.
  unfold grid_of, packPos. intros Hy Hfy.
  apply bind_Ok in Hy as (y' & Hy & Hsy).
  destruct (decode_text x) as [x'|e]; [|reflexivity]. cbn [mbind outcome_bind].
  rewrite Hy. cbn [mbind outcome_bind].
  destruct (scale_val x') as [zx|e]; [|reflexivity]. cbn [mbind outcome_bind].
  rewrite Hsy. cbn [mbind outcome_bind].
  unfold Struct.pack_ii. rewrite Hfy, andb_false_r. reflexivity.
Qed.

(** C10.  [packPos] succeeds exactly on the coordinates whose scaled and
    rounded values fit a signed 32-bit integer: when both values lie in
    [-2^31, 2^31 - 1] it returns a key of 8 bytes; when one of them lies
    outside, it fails, with [struct.error] when both coordinates have a
    rounded value; and a key is only ever returned for two values of that
    range, so that none is produced by wrapping or truncating. *)
Theorem packPos_total_on_int32 :
  (forall (x y : pyval) (zx zy : Z),
      grid_of x = Ok zx -> grid_of y = Ok zy ->
      - 2 ^ 31 <= zx <= 2 ^ 31 - 1 -> - 2 ^ 31 <= zy <= 2 ^ 31 - 1 ->
      exists k, packPos x y = Ok k /\ length k = 8%nat)
  /\
  (forall (x y : pyval) (zx zy : Z),
      grid_of x = Ok zx -> grid_of y = Ok zy ->
      ~ (- 2 ^ 31 <= zx <= 2 ^ 31 - 1 /\ - 2 ^ 31 <= zy <= 2 ^ 31 - 1) ->
      packPos x y = Err StructError)
  /\
  (forall (x y : pyval) (z : Z),
      (grid_of x = Ok z \/ grid_of y = Ok z) ->
      ~ (- 2 ^ 31 <= z <= 2 ^ 31 - 1) ->
      is_ok (packPos x y) = false)
  /\
  (forall (x y : pyval) (k : list Byte.byte),
      packPos x y = Ok k ->
      exists zx zy : Z,
        grid_of x = Ok zx /\ grid_of y = Ok zy
        /\ - 2 ^ 31 <= zx <= 2 ^ 31 - 1 /\ - 2 ^ 31 <= zy <= 2 ^ 31 - 1
        /\ k = Struct.le32 zx ++ Struct.le32 zy /\ length k = 8%nat).
Proof.
  split; [|split; [|split]].
  - intros x y zx zy Hx Hy Hfx Hfy. rewrite (packPos_grid x y zx zy Hx Hy).
    apply fits_int32_iff in Hfx, Hfy. unfold Struct.pack_ii. rewrite Hfx, Hfy.
    eexists. split; reflexivity.
  - intros x y zx zy Hx Hy Hout. rewrite (packPos_grid x y zx zy Hx Hy).
    unfold Struct.pack_ii.
    destruct (Struct.fits_int32 zx) eqn:Ex; [|reflexivity].
    destruct (Struct.fits_int32 zy) eqn:Ey; [|reflexivity].
    exfalso. apply Hout. split; apply fits_int32_iff; assumption.
  - intros x y z [Hg|Hg] Hout.
    + apply (packPos_unfit_l x y z Hg).
      destruct (Struct.fits_int32 z) eqn:E; [|reflexivity].
      exfalso. apply Hout, fits_int32_iff, E.
    + apply (packPos_unfit_r x y z Hg).
      destruct (Struct.fits_int32 z) eqn:E; [|reflexivity].
      exfalso. apply Hout, fits_int32_iff, E.
  - intros x y k Hk.
    apply packPos_Ok_grid in Hk as (zx & zy & Hx & Hy & Hp).
    apply StructFacts.pack_ii_Ok in Hp as (Hfx & Hfy & ->).
    exists zx, zy. split; [exact Hx|]. split; [exact Hy|].
    split; [apply fits_int32_iff, Hfx|]. split; [apply fits_int32_iff, Hfy|].
    split; reflexivity.
Qed.

Lemma packPos_total_on_int32_witness :
  exists k : list Byte.byte,
    packPos (PNum (PFloat 1.5)) (PStr "-002") = Ok k /\ length k = 8%nat.
Proof.
  apply (proj1 packPos_total_on_int32 (PNum (PFloat 1.5)) (PStr "-002") 1500 (-2000)).
  - vm_compute. reflexivity.
  - vm_compute. reflexivity.
  - lia.
  - lia.
Defined.

(** A coordinate beyond the 32-bit range: no key, [struct.error]. *)
Example packPos_out_of_int32 :
  grid_of (PNum (PInt 2147484)) = Ok 2147484000
  /\ packPos (PNum (PInt 2147484)) (PNum (PInt 0)) = Err StructError.
Proof. split; vm_compute; reflexivity. Qed.

(** C8.  [packPos] is a function of the grid point alone: two calls on
    the same arguments return the same key, a position given as
    program-native text and the same position given as a number return the
    same key, and so do any two positions that scale and round to the same
    pair of integers; and it is injective on the grid: positions whose
    scaled and rounded pairs differ never share a key. *)
Theorem packPos_deterministic_injective :
  (forall x y, packPos x y = packPos x y)
  /\
  (forall x y x' y' zx zy,
      grid_of x = Ok zx -> grid_of y = Ok zy ->
      grid_of x' = Ok zx -> grid_of y' = Ok zy ->
      packPos x y = packPos x' y')
  /\
  (forall sx sy nx ny,
      parseNumber sx 3 true = Ok nx -> parseNumber sy 3 true = Ok ny ->
      packPos (PStr sx) (PStr sy) = packPos (PNum nx) (PNum ny))
  /\
  (forall x y x' y' zx zy zx' zy' k k',
      grid_of x = Ok zx -> grid_of y = Ok zy ->
      grid_of x' = Ok zx' -> grid_of y' = Ok zy' ->
      (zx, zy) <> (zx', zy') ->
      packPos x y = Ok k -> packPos x' y' = Ok k' -> k <> k').
Proof.
  split; [reflexivity|]. split; [|split].
  - intros x y x' y' zx zy Hx Hy Hx' Hy'.
    rewrite (packPos_grid _ _ _ _ Hx Hy), (packPos_grid _ _ _ _ Hx' Hy').
    reflexivity.
  - intros sx sy nx ny Hx Hy. unfold packPos. cbn. rewrite Hx, Hy. reflexivity.
  - intros x y x' y' zx zy zx' zy' k k' Hx Hy Hx' Hy' Hne Hk Hk' ->.
    rewrite (packPos_grid _ _ _ _ Hx Hy) in Hk.
    rewrite (packPos_grid _ _ _ _ Hx' Hy') in Hk'.
    destruct (StructFacts.pack_ii_inj _ _ _ _ _ Hk Hk') as [-> ->].
    apply Hne. reflexivity.
Qed.

Lemma packPos_deterministic_injective_witness :
  Struct.le32 1500 ++ Struct.le32 2000 <> Struct.le32 1500 ++ Struct.le32 2500.
Proof.
  apply (proj2 (proj2 (proj2 packPos_deterministic_injective))
           (PStr "0015") (PStr "002") (PNum (PFloat 1.5)) (PNum (PFloat 2.5))
           1500 2000 1500 2500);
    try (vm_compute; reflexivity).
  intros [= ].
Defined.

(** ** [prgPos] *)

Lemma scale1000_error (x : pynum) (e : error) :
  Num.scale1000 x = Err e -> e = PyValueError \/ e = PyOverflowError.
Proof.
  destruct x as [z|f]; [discriminate|].
  rewrite FloatFacts.scale1000_float. unfold Num.round_float.
  destruct (Prim2SF (f * 1000)); intros [= <-]; auto.
Qed.

Lemma compare_int_antisym (a : pynum) (z : Z) (c : comparison) :
  Num.compare a (PInt z) = Some c -> Num.compare (PInt z) a = Some (CompOpp c).
Proof.
  destruct a as [x|f]; simpl.
  - intros [= <-]. rewrite (Z.compare_antisym x z). reflexivity.
  - apply FloatFacts.exact_compare_antisym.
Qed.

Lemma in_range_not_out (x : pynum) : in_range x -> Num.geb (Num.abs x) (PInt 1000) = false.
Proof.
  unfold in_range, Num.ltb, Num.geb, Num.leb.
  destruct (Num.compare (Num.abs x) (PInt 1000)) as [[]|] eqn:E; try discriminate.
  apply compare_int_antisym in E. rewrite E. reflexivity.
Qed.

Lemma prgPos_in_range (x y : pynum) (nx ny : Z) :
  Num.geb (Num.abs x) (PInt 1000) = false ->
  Num.geb (Num.abs y) (PInt 1000) = false ->
  Num.scale1000 x = Ok nx -> Num.scale1000 y = Ok ny ->
  prgPos x y =
  Ok ("X" ++ sign_text x ++ digits_text (Z.abs nx)
          ++ "Y" ++ sign_text y ++ digits_text (Z.abs ny))%string.
Proof.
  intros Hx Hy Hnx Hny. unfold prgPos.
  change (10 ^ 3) with 1000. rewrite Hx, Hy, Hnx, Hny. reflexivity.
Qed.

(** C5.  [prgPos] raises its range error if and only if [abs(x) >= 1000] or
    [abs(y) >= 1000]; for every [x] and [y] with [abs(x) < 1000] and
    [abs(y) < 1000] it returns the text [X], sign, digits, [Y], sign,
    digits, where a sign is [-] for a negative coordinate and empty
    otherwise, and the digits of a coordinate are [abs(value)*1000] rounded,
    padded on the left to six digits, with the zeros at the right end
    removed, but never empty (a text of zeros leaves [0]). *)
Theorem prgPos_range_and_shape (x y : pynum) :
  (prgPos x y = Err RangeError <-> out_of_range x \/ out_of_range y)
  /\
  (in_range x -> in_range y ->
   exists (nx ny : Z) (dx dy : string),
     Num.scale1000 (Num.abs x) = Ok nx /\ Num.scale1000 (Num.abs y) = Ok ny /\
     digits_of nx dx /\ digits_of ny dy /\
     prgPos x y = Ok ("X" ++ sign_text x ++ dx ++ "Y" ++ sign_text y ++ dy)%string).
Proof.
  split.
  - unfold out_of_range, prgPos. change (10 ^ 3) with 1000.
    destruct (Num.geb (Num.abs x) (PInt 1000)) eqn:Ex; [split; auto|].
    destruct (Num.geb (Num.abs y) (PInt 1000)) eqn:Ey; [split; auto|].
    simpl. split.
    + intros H. exfalso.
      apply bind_Err in H as [H | (ax & _ & H)].
      * destruct (Num.scale1000 x) as [nx|e] eqn:Es; [discriminate|].
        injection H as ->. apply scale1000_error in Es as [|]; discriminate.
      * apply bind_Err in H as [H | (ay & _ & H)]; [|discriminate].
        destruct (Num.scale1000 y) as [ny|e] eqn:Es; [discriminate|].
        injection H as ->. apply scale1000_error in Es as [|]; discriminate.
    + intros [|]; discriminate.
  - intros Hx Hy.
    destruct (FloatFacts.scale1000_total x Hx) as [nx Hnx].
    destruct (FloatFacts.scale1000_total y Hy) as [ny Hny].
    exists (Z.abs nx), (Z.abs ny), (digits_text (Z.abs nx)), (digits_text (Z.abs ny)).
    split; [apply FloatFacts.scale1000_abs, Hnx|].
    split; [apply FloatFacts.scale1000_abs, Hny|].
    split; [apply digits_text_spec|].
    split; [apply digits_text_spec|].
    apply prgPos_in_range; auto using in_range_not_out.
Qed.

Lemma prgPos_range_and_shape_witness :
  exists (nx ny : Z) (dx dy : string),
    Num.scale1000 (Num.abs (PFloat 1.5)) = Ok nx /\
    Num.scale1000 (Num.abs (PFloat (-2))) = Ok ny /\
    digits_of nx dx /\ digits_of ny dy /\
    prgPos (PFloat 1.5) (PFloat (-2))
    = Ok ("X" ++ sign_text (PFloat 1.5) ++ dx ++ "Y" ++ sign_text (PFloat (-2)) ++ dy)%string.
Proof.
  apply (proj2 (prgPos_range_and_shape (PFloat 1.5) (PFloat (-2)))).
  - vm_compute. reflexivity.
  - vm_compute. reflexivity.
Defined.

(** Sample fields: a plain position, a zero coordinate and a negative value
    that rounds to zero. *)
Example prgPos_samples :
  prgPos (PFloat 1.5) (PFloat (-2)) = Ok "X0015Y-002"%string
  /\ prgPos (PInt 0) (PFloat 12.5) = Ok "X0Y0125"%string
  /\ prgPos (PFloat (-1000)) (PInt 0) = Err RangeError
  /\ prgPos (PFloat infinity) (PInt 0) = Err RangeError.
Proof. repeat split; vm_compute; reflexivity. Qed.

(** A NaN is neither [>= 1000] nor [< 1000]: the guard lets it pass and
    [round] raises the [ValueError] of the conversion. *)
Example prgPos_nan :
  Num.geb (Num.abs (PFloat nan)) (PInt 1000) = false
  /\ Num.ltb (Num.abs (PFloat nan)) (PInt 1000) = false
  /\ prgPos (PFloat nan) (PInt 0) = Err PyValueError.
Proof. repeat split; vm_compute; reflexivity. Qed.

(** ** The machining-log parser *)

Module LogFacts.
Import Log.

Lemma item_Ok {A} (l : list A) (i : nat) (v : A) :
  Cell.item l i = Ok v <-> l !! i = Some v.
Proof.
  unfold Cell.item. destruct (l !! i); split; intros H; congruence.
Qed.

Lemma item_total {A} (l : list A) (i : nat) :
  (i < length l)%nat -> exists v, Cell.item l i = Ok v.
Proof.
  intros H. destruct (lookup_lt_is_Some_2 l i H) as [v Hv].
  exists v. apply item_Ok, Hv.
Qed.

Lemma unwrap_base_nonneg (h : option Z) (base c : Z) :
  0 <= base -> 0 <= (unwrap h base c).1.
Proof.
  unfold unwrap. intros Hb.
  destruct h as [h|]; [|exact Hb].
  destruct (negb (h =? 0) && (c <? h)); [|exact Hb].
  destruct (h =? 65535); simpl; lia.
Qed.

Lemma coerce_num (i : nat) (n : pynum) : coerce i (PNum n) = Ok (PNum n).
Proof. reflexivity. Qed.

Lemma coerce_from_spec (r : list pyval) : forall (i : nat) (r' : list pyval),
  coerce_from i r = Ok r' ->
  length r' = length r
  /\ forall (j : nat) (n : pynum), r !! j = Some (PNum n) -> r' !! j = Some (PNum n).
Proof.
  induction r as [|v t IH]; intros i r' H; simpl in H.
  - injection H as <-. split; [reflexivity|]. intros j n Hj. exact Hj.
  - apply bind_Ok in H as (v' & Hv & H).
    apply bind_Ok in H as (t' & Ht & H). injection H as <-.
    destruct (IH _ _ Ht) as [Hlen Hnum]. split; [simpl; congruence|].
    intros [|j] n Hj; simpl in *.
    + injection Hj as ->. rewrite coerce_num in Hv. congruence.
    + apply Hnum, Hj.
Qed.

Lemma pad_length (r : list pyval) : (23 <= length (pad r))%nat.
Proof. unfold pad. rewrite length_app, length_replicate. lia. Qed.

Lemma pad_lookup (r : list pyval) (j : nat) (v : pyval) :
  r !! j = Some v -> pad r !! j = Some v.
Proof. intros H. unfold pad. apply lookup_app_l_Some, H. Qed.

(** What [read_row] hands on. *)
Lemma read_row_spec (month day : string) (st : state) (row : list string) (p : parsed) :
  read_row month day st row = Ok p ->
  exists (t h : string),
    row !! 0%nat = Some t /\ row !! 1%nat = Some h
    /\ Text.int_of_string h = Ok p.(p_current)
    /\ (p.(p_base), p.(p_flag)) = unwrap st.(last_H) st.(base) p.(p_current)
    /\ p.(p_ts) = (month ++ "/" ++ day ++ " " ++ t)%string
    /\ (23 <= length p.(p_row))%nat
    /\ p.(p_row) !! 1%nat = Some (PNum (PInt (p.(p_current) + p.(p_base)))).
Proof.
  unfold read_row. intros H.
  apply bind_Ok in H as (t & Ht & H). apply item_Ok in Ht.
  apply bind_Ok in H as (h & Hh & H). apply item_Ok in Hh.
  apply bind_Ok in H as (c & Hc & H).
  destruct (unwrap (last_H st) (base st) c) as [b f] eqn:Eu.
  apply bind_Ok in H as (r & Hr & H). injection H as <-. simpl.
  exists t, h. repeat split; try assumption; try (symmetry; assumption).
  - apply pad_length.
  - apply pad_lookup.
    apply coerce_from_spec in Hr as [_ Hnum]. apply Hnum.
    apply list_lookup_insert_eq.
    rewrite length_insert, length_fmap.
    apply lookup_lt_Some in Hh. exact Hh.
Qed.


Lemma merge_cell_Ok (r acc : list pyval) (c : nat) (a b : pyval) :
  r !! c = Some a -> acc !! c = Some b ->
  merge_cell r (Ok acc) c = Ok (<[c := Cell.or a b]> acc).
Proof.
  intros Ha Hb. unfold merge_cell. cbn.
  apply item_Ok in Ha, Hb. rewrite Ha. cbn. rewrite Hb. reflexivity.
Qed.

(** The loop of the merge over any columns [cs] inside both rows. *)
Lemma merge_loop_spec (r : list pyval) (cs : list nat) : forall acc : list pyval,
  Forall (fun c => (c < length acc)%nat /\ (c < length r)%nat) cs ->
  exists r' : list pyval,
    foldl (merge_cell r) (Ok acc) cs = Ok r'
    /\ length r' = length acc
    /\ (forall j : nat, j ∉ cs -> r' !! j = acc !! j)
    /\ (NoDup cs ->
        forall (j : nat) (a b : pyval),
          j ∈ cs -> r !! j = Some a -> acc !! j = Some b ->
          r' !! j = Some (Cell.or a b)).
Proof.
  induction cs as [|c cs IH]; intros acc Hcs.
  - exists acc. repeat split; try reflexivity.
    intros _ j a b Hj. apply elem_of_nil in Hj. contradiction.
  - apply Forall_cons in Hcs as [[Hca Hcr] Hcs].
    destruct (lookup_lt_is_Some_2 acc c Hca) as [b Hb].
    destruct (lookup_lt_is_Some_2 r c Hcr) as [a Ha].
    cbn [foldl]. rewrite (merge_cell_Ok r acc c a b Ha Hb).
    destruct (IH (<[c := Cell.or a b]> acc)) as (r' & Hf & Hlen & Hout & Hin).
    { rewrite length_insert. exact Hcs. }
    exists r'. split; [exact Hf|]. split; [rewrite Hlen; apply length_insert|].
    split.
    + intros j Hj. apply not_elem_of_cons in Hj as [Hjc Hj].
      rewrite (Hout j Hj). apply list_lookup_insert_ne. congruence.
    + intros Hnd j a' b' Hj Ha' Hb'.
      apply NoDup_cons in Hnd as [Hc Hnd].
      destruct (decide (j = c)) as [->|Hjc].
      * rewrite (Hout c Hc).
        assert (a' = a) by congruence. assert (b' = b) by congruence. subst.
        apply list_lookup_insert_eq, Hca.
      * apply elem_of_cons in Hj as [Hj|Hj]; [contradiction|].
        apply (Hin Hnd j a' b' Hj Ha').
        rewrite list_lookup_insert_ne by congruence. exact Hb'.
Qed.

Lemma merge_columns (j : nat) : j ∈ seq 5 18 <-> (5 <= j < 23)%nat.
Proof. rewrite elem_of_seq. lia. Qed.

(** [merge]: the columns 5..22 of [r0] become [r[c] or r0[c]], the other
    columns stay. *)
Lemma merge_spec (r0 r : list pyval) :
  (23 <= length r0)%nat -> (23 <= length r)%nat ->
  exists r0' : list pyval,
    merge r0 r = Ok r0'
    /\ length r0' = length r0
    /\ (forall j : nat, ~ (5 <= j < 23)%nat -> r0' !! j = r0 !! j)
    /\ (forall (j : nat) (a b : pyval),
          (5 <= j < 23)%nat -> r !! j = Some a -> r0 !! j = Some b ->
          r0' !! j = Some (Cell.or a b)).
Proof.
  intros H0 Hr. unfold merge.
  destruct (merge_loop_spec r (seq 5 18) r0) as (r0' & Hf & Hlen & Hout & Hin).
  { apply Forall_forall. intros c Hc. apply merge_columns in Hc. lia. }
  exists r0'. split; [exact Hf|]. split; [exact Hlen|]. split.
  - intros j Hj. apply Hout. rewrite merge_columns. exact Hj.
  - intros j a b Hj. apply (Hin (NoDup_seq 5 18)). apply merge_columns, Hj.
Qed.

Lemma same_hole_total (r0 r : list pyval) :
  (23 <= length r0)%nat -> (23 <= length r)%nat -> exists b, same_hole r0 r = Ok b.
Proof.
  intros H0 Hr.
  assert (Hs : forall i, (i < 23)%nat -> exists b, same_at r0 r i = Ok b).
  { intros i Hi. unfold same_at.
    destruct (item_total r0 i ltac:(lia)) as [a Ha].
    destruct (item_total r i ltac:(lia)) as [b Hb].
    rewrite Ha. cbn. rewrite Hb. cbn. eauto. }
  unfold same_hole.
  destruct (Hs 1%nat ltac:(lia)) as [b1 ->]. cbn.
  destruct b1; [|eauto].
  destruct (Hs 3%nat ltac:(lia)) as [b3 ->]. cbn.
  destruct b3; [|eauto].
  apply Hs. lia.
Qed.

Lemma same_hole_counter (r0 r : list pyval) (a b : pyval) :
  same_hole r0 r = Ok true -> r0 !! 1%nat = Some a -> r !! 1%nat = Some b ->
  Cell.eqb a b = true.
Proof.
  unfold same_hole, same_at. intros H Ha Hb.
  apply item_Ok in Ha, Hb. rewrite Ha in H. cbn in H. rewrite Hb in H. cbn in H.
  destruct (Cell.eqb a b); [reflexivity|discriminate].
Qed.

(** [store_row] when the row is the hole of the last record. *)
Lemma store_row_merge (st : state) (p : parsed) (r0 : list pyval) :
  last st.(result) = Some r0 -> same_hole r0 p.(p_row) = Ok true ->
  store_row st p =
  r0' ← merge r0 p.(p_row);
  Ok (State st.(last_H) p.(p_base)
        (<[(length st.(result) - 1)%nat := r0']> st.(result)) st.(flags)).
Proof. intros Hl Hs. unfold store_row. rewrite Hl, Hs. reflexivity. Qed.

(** [store_row] when it is not. *)
Lemma store_row_append (st : state) (p : parsed) :
  (forall r0, last st.(result) = Some r0 -> same_hole r0 p.(p_row) = Ok false) ->
  store_row st p =
  Ok (append st p.(p_base) p.(p_flag) p.(p_current) p.(p_ts) p.(p_row)).
Proof.
  intros H. unfold store_row.
  destruct (last (result st)) as [r0|]; [|reflexivity].
  rewrite (H r0 eq_refl). reflexivity.
Qed.

Lemma last_insert_last {A} (l : list A) (x : A) :
  l <> [] -> last (<[(length l - 1)%nat := x]> l) = Some x.
Proof.
  intros Hl. rewrite last_lookup, length_insert.
  replace (Init.Nat.pred (length l)) with (length l - 1)%nat by lia.
  apply list_lookup_insert_eq.
  destruct l; [contradiction|simpl; lia].
Qed.

Lemma wf_store_row (st st' : state) (p : parsed) :
  wf_state st -> 0 <= p.(p_base) -> (23 <= length p.(p_row))%nat ->
  p.(p_row) !! 1%nat = Some (PNum (PInt (p.(p_current) + p.(p_base)))) ->
  store_row st p = Ok st' -> wf_state st'.
Proof.
  intros (Hb & Hall & Hlast) Hpb Hlen Hcnt Hst.
  assert (Happ : wf_state (append st p.(p_base) p.(p_flag) p.(p_current)
                             p.(p_ts) p.(p_row))).
  { unfold wf_state, append. simpl. split; [exact Hpb|]. split.
    - apply Forall_app. split; [exact Hall|]. apply Forall_singleton. exact Hlen.
    - split.
      + destruct (decide (flags st = ∅)) as [He|Hne].
        * apply insert_non_empty.
        * destruct (p_flag p); [apply insert_non_empty|exact Hne].
      + exists (p_row p), (p_base p). rewrite last_snoc. auto. }
  unfold store_row in Hst.
  destruct (last (result st)) as [r0|] eqn:El; [|injection Hst as <-; exact Happ].
  apply bind_Ok in Hst as (same & Hsame & Hst).
  destruct same; [|injection Hst as <-; exact Happ].
  apply bind_Ok in Hst as (r0' & Hm & Hst). injection Hst as <-.
  assert (Hr0 : (23 <= length r0)%nat).
  { rewrite Forall_forall in Hall. apply Hall.
    apply last_Some_elem_of in El. exact El. }
  destruct (merge_spec r0 (p_row p) Hr0 Hlen) as (r0'' & Hm' & Hl' & Hout & _).
  rewrite Hm in Hm'. injection Hm' as <-.
  unfold wf_state. simpl. split; [exact Hpb|]. split.
  - apply Forall_insert; [exact Hall|lia].
  - destruct (last_H st) as [h|].
    + destruct Hlast as (Hf & r1 & b & Hl1 & Hc1 & Hb1).
      split; [exact Hf|]. exists r0', b.
      rewrite ?El in Hl1. injection Hl1 as <-.
      split; [|split; [|exact Hb1]].
      * apply last_insert_last. intros Hnil. rewrite Hnil in El. discriminate.
      * rewrite Hout by lia. exact Hc1.
    + destruct Hlast as [Hnil _]. rewrite Hnil in *. discriminate.
Qed.

Lemma wf_init : wf_state init.
Proof.
  unfold wf_state, init. simpl. split; [lia|]. split; [constructor|]. split; reflexivity.
Qed.

Lemma wf_row_step (month day : string) (st st' : state) (row : list string) :
  wf_state st -> row_step month day st row = Ok st' -> wf_state st'.
Proof.
  intros Hwf H. unfold row_step in H.
  apply bind_Ok in H as (p & Hp & H).
  destruct (read_row_spec _ _ _ _ _ Hp) as (t & h & _ & _ & _ & Hu & _ & Hlen & Hcnt).
  apply (wf_store_row st st' p Hwf); try assumption.
  replace (p_base p) with (unwrap (last_H st) (base st) (p_current p)).1
    by (rewrite <- Hu; reflexivity).
  apply unwrap_base_nonneg. apply Hwf.
Qed.

Lemma reachable_wf (st : state) : reachable st -> wf_state st.
Proof.
  induction 1 as [|month day st st' row _ IH H]; [apply wf_init|].
  apply (wf_row_step month day st st' row IH H).
Qed.

End LogFacts.

(** The key of a run boundary *)

Module StampFacts.
Import Log.

Lemma contains_app (c : ascii) (s1 s2 : string) :
  Text.contains c (s1 ++ s2) = Text.contains c s1 || Text.contains c s2.
Proof.
  induction s1 as [|a s1 IH]; [reflexivity|].
  change (Text.contains c (String a (s1 ++ s2))
          = Text.contains c (String a s1) || Text.contains c s2).
  cbn [Text.contains]. rewrite IH, orb_assoc. reflexivity.
Qed.

Lemma skip_digits_contains (c : ascii) (s : string) :
  Text.contains c s = true ->
  Text.is_digit c = true \/ Text.contains c (skip_digits s) = true.
Proof.
  induction s as [|a t IH]; [discriminate|].
  cbn [Text.contains skip_digits].
  destruct (Text.is_digit a) eqn:Ea.
  - intros H. apply orb_true_iff in H as [H|H]; [|exact (IH H)].
    apply Ascii.eqb_eq in H. subst a. left. exact Ea.
  - intros H. right. exact H.
Qed.

Lemma at_end_contains (c : ascii) (s : string) :
  at_end s = true -> Text.contains c s = true -> c = "010"%char.
Proof.
  destruct s as [|a [|b t]]; try discriminate.
  cbn [at_end Text.contains]. intros Ha H.
  apply Ascii.eqb_eq in Ha. subst a.
  rewrite orb_false_r in H. apply Ascii.eqb_eq in H. symmetry. exact H.
Qed.

(** A text that [pattern] matches holds no slash. *)
Lemma numeric_text_no_slash (s : string) :
  numeric_text s = true -> Text.contains "/" s = false.
Proof.
  intros H. destruct (Text.contains "/" s) eqn:Ec; [exfalso|reflexivity].
  unfold numeric_text in H.
  assert (Hbody : exists body,
             Text.contains "/" body = true
             /\ match body with
                | String c t =>
                    Text.is_digit c &&
                    (let r := skip_digits t in
                     at_end r ||
                     match r with
                     | String d r' => Ascii.eqb d "." && at_end (skip_digits r')
                     | EmptyString => false
                     end)
                | EmptyString => false
                end = true).
  { destruct s as [|a t]; [discriminate|].
    destruct (Ascii.eqb a "-" || Ascii.eqb a "+") eqn:Es.
    - exists t. split; [|exact H]. cbn [Text.contains] in Ec.
      apply orb_true_iff in Ec as [Ec|Ec]; [|exact Ec].
      apply Ascii.eqb_eq in Ec. subst a. discriminate.
    - exists (String a t). auto. }
  clear H Ec. destruct Hbody as ([|a t] & Hc & H); [discriminate|].
  apply andb_true_iff in H as [Ha H]. cbn [Text.contains] in Hc.
  apply orb_true_iff in Hc as [Hc|Hc].
  { apply Ascii.eqb_eq in Hc. subst a. discriminate. }
  apply skip_digits_contains in Hc as [Hc|Hc]; [discriminate|].
  cbv zeta in H. apply orb_true_iff in H as [H|H].
  { apply (at_end_contains _ _ H) in Hc. discriminate. }
  destruct (skip_digits t) as [|d r']; [discriminate|].
  apply andb_true_iff in H as [Hd H]. apply Ascii.eqb_eq in Hd. subst d.
  cbn [Text.contains] in Hc. apply orb_true_iff in Hc as [Hc|Hc]; [discriminate|].
  apply skip_digits_contains in Hc as [Hc|Hc]; [discriminate|].
  apply (at_end_contains _ _ H) in Hc. discriminate.
Qed.

(** The time stamp written to [r[0]] is never taken for a number. *)
Lemma timestamp_not_numeric (month day t : string) :
  numeric_text (month ++ "/" ++ day ++ " " ++ t) = false.
Proof.
  destruct (numeric_text _) eqn:E; [|reflexivity].
  apply numeric_text_no_slash in E.
  rewrite contains_app in E.
  change (Text.contains "/" ("/" ++ day ++ " " ++ t)) with true in E.
  rewrite orb_true_r in E. discriminate.
Qed.

(** [r[0]], the key of a run boundary, is the time stamp of line 153 also
    after the cells have been coerced. *)
Lemma read_row_stamp (month day : string) (st : state) (row : list string) (p : parsed) :
  read_row month day st row = Ok p -> p.(p_row) !! 0%nat = Some (PStr p.(p_ts)).
Proof.
  unfold read_row. intros H.
  apply bind_Ok in H as (t & Ht & H).
  apply bind_Ok in H as (h & Hh & H).
  apply bind_Ok in H as (c & Hc & H).
  destruct (unwrap (last_H st) (base st) c) as [b f].
  apply bind_Ok in H as (r & Hr & H). injection H as <-. cbn [p_row p_ts].
  unfold Cell.item in Ht. destruct row as [|t0 row]; [discriminate|].
  injection Ht as ->.
  cbn in Hr. rewrite timestamp_not_numeric in Hr.
  apply bind_Ok in Hr as (v & Hv & Hr). injection Hv as <-.
  apply bind_Ok in Hr as (r1 & _ & Hr). injection Hr as <-.
  reflexivity.
Qed.

End StampFacts.

(** C9.  After a stored row whose raw counter is 0 the decreasing-counter
    check is skipped: whatever the counter of the next row, even a smaller
    one, the row is not wrap-adjusted ([base] stays, the counter is stored
    as raw counter plus the old [base]) and no run boundary is recorded for
    it, because the guard reads a last counter of 0 as an unset one. *)
Theorem zero_counter_skips_check
    (month day : string) (st st' : Log.state) (row : list string) :
  reachable st -> st.(Log.last_H) = Some 0 ->
  Log.row_step month day st row = Ok st' ->
  exists p : Log.parsed,
    Log.read_row month day st row = Ok p
    /\ Log.unwrap None st.(Log.base) p.(Log.p_current)
       = Log.unwrap (Some 0) st.(Log.base) p.(Log.p_current)
    /\ p.(Log.p_base) = st.(Log.base) /\ p.(Log.p_flag) = false
    /\ p.(Log.p_row) !! 1%nat
       = Some (PNum (PInt (p.(Log.p_current) + st.(Log.base))))
    /\ st'.(Log.base) = st.(Log.base)
    /\ st'.(Log.flags) = st.(Log.flags).
Proof.
  intros Hreach Hlast Hstep.
  pose proof (LogFacts.reachable_wf st Hreach) as (_ & _ & Hwf).
  rewrite Hlast in Hwf. destruct Hwf as [Hflags _].
  unfold Log.row_step in Hstep.
  apply bind_Ok in Hstep as (p & Hp & Hstore).
  exists p. split; [exact Hp|]. split; [reflexivity|].
  destruct (LogFacts.read_row_spec _ _ _ _ _ Hp)
    as (t & h & _ & _ & _ & Hu & _ & _ & Hcnt).
  rewrite Hlast in Hu. cbn in Hu. injection Hu as Hbase Hflag.
  rewrite Hbase in Hcnt.
  split; [exact Hbase|]. split; [exact Hflag|]. split; [exact Hcnt|].
  unfold Log.store_row in Hstore.
  assert (Happ : forall s, s = Log.append st (Log.p_base p) (Log.p_flag p)
                               (Log.p_current p) (Log.p_ts p) (Log.p_row p) ->
                           Log.base s = Log.base st /\ Log.flags s = Log.flags st).
  { intros s ->. unfold Log.append. simpl. split; [exact Hbase|].
    destruct (decide (Log.flags st = ∅)); [contradiction|].
    rewrite Hflag. reflexivity. }
  destruct (last (Log.result st)) as [r0|].
  - apply bind_Ok in Hstore as (same & _ & Hstore). destruct same.
    + apply bind_Ok in Hstore as (r0' & _ & Hstore). injection Hstore as <-.
      simpl. split; [exact Hbase|reflexivity].
    + injection Hstore as Hs. apply Happ. symmetry. exact Hs.
  - injection Hstore as Hs. apply Happ. symmetry. exact Hs.
Qed.


Lemma reachable_rows (month day : string) (rows : list (list string)) :
  forall st st' : Log.state,
    reachable st -> Log.rows_step month day st rows = Ok st' -> reachable st'.
Proof.
  unfold Log.rows_step.
  induction rows as [|row rows IH] using rev_ind; intros st st' Hr H.
  - injection H as <-. exact Hr.
  - rewrite foldl_app in H. cbn [foldl] in H.
    apply bind_Ok in H as (st1 & H1 & H).
    apply (reach_step month day st1 st' row); [|exact H].
    apply (IH st st1 Hr H1).
Qed.

Lemma reachable_state_after (month day : string) (rows : list (list string)) :
  reachable (state_after month day rows).
Proof.
  unfold state_after.
  destruct (Log.rows_step month day Log.init rows) as [st|e] eqn:E.
  - apply (reachable_rows month day rows Log.init st reach_init E).
  - apply reach_init.
Qed.

Lemma zero_counter_skips_check_witness :
  exists p : Log.parsed,
    Log.read_row "01" "02" zero_before minus_row = Ok p
    /\ Log.unwrap None zero_before.(Log.base) p.(Log.p_current)
       = Log.unwrap (Some 0) zero_before.(Log.base) p.(Log.p_current)
    /\ p.(Log.p_base) = zero_before.(Log.base) /\ p.(Log.p_flag) = false
    /\ p.(Log.p_row) !! 1%nat
       = Some (PNum (PInt (p.(Log.p_current) + zero_before.(Log.base))))
    /\ zero_after.(Log.base) = zero_before.(Log.base)
    /\ zero_after.(Log.flags) = zero_before.(Log.flags).
Proof.
  apply (zero_counter_skips_check "01" "02" zero_before zero_after minus_row).
  - apply (reach_step "01" "02" Log.init zero_before zero_row reach_init).
    vm_compute. reflexivity.
  - vm_compute. reflexivity.
  - vm_compute. reflexivity.
Defined.

Lemma unwrap_cases (h base c : Z) :
  h <> 0 ->
  Log.unwrap (Some h) base c =
  if c <? h then (if h =? 65535 then (base + 65536, false) else (0, true))
  else (base, false).
Proof.
  intros Hh. unfold Log.unwrap.
  replace (h =? 0) with false by (symmetry; apply Z.eqb_neq; exact Hh).
  reflexivity.
Qed.

(** A counter that is not negative is smaller than no stored counter of 0,
    so the guard [last_H and current_H < last_H] is then the comparison
    alone. *)
Lemma unwrap_from (h base c : Z) :
  0 <= c ->
  Log.unwrap (Some h) base c =
  if c <? h then (if h =? 65535 then (base + 65536, false) else (0, true))
  else (base, false).
Proof.
  intros Hc. destruct (Z.eq_dec h 0) as [->|Hh].
  - unfold Log.unwrap. cbn.
    replace (c <? 0) with false by (symmetry; apply Z.ltb_ge; exact Hc).
    reflexivity.
  - apply unwrap_cases. exact Hh.
Qed.

(** A row stored under a smaller counter than the last record is never
    taken for the hole of that record. *)
Lemma smaller_counter_not_same (r0 r : list pyval) (a b : Z) :
  r0 !! 1%nat = Some (PNum (PInt a)) -> r !! 1%nat = Some (PNum (PInt b)) ->
  b < a -> Log.same_hole r0 r = Ok false.
Proof.
  intros Ha Hb Hlt. unfold Log.same_hole, Log.same_at.
  apply LogFacts.item_Ok in Ha, Hb. rewrite Ha. cbn. rewrite Hb. cbn.
  unfold Num.eqb, Num.compare.
  destruct (a ?= b) eqn:E; try reflexivity.
  apply Z.compare_eq in E. lia.
Qed.

(** C1.  On the rows with the raw counters 65533, 65534, 65535, 2, 3 the
    stored counters are 65533, 65534, 65535, 65538, 65539 and only the
    first row is a run boundary.  In general, for a row whose counter, not
    negative as a hole counter is, is smaller than the last stored raw
    counter [h]: if [h] is 65535 the row is a wraparound ([base] grows by
    65536, no boundary is flagged), and otherwise [base] returns to 0, the
    row is stored and recorded as a run boundary; a counter that is not
    smaller changes nothing. *)
Theorem counter_unwrap_rule :
  (is_ok wrap_loaded = true
   /\ counters (loaded_records wrap_loaded)
      = [Some (PNum (PInt 65533)); Some (PNum (PInt 65534));
         Some (PNum (PInt 65535)); Some (PNum (PInt 65538));
         Some (PNum (PInt 65539))]
   /\ loaded_flags wrap_loaded = [("01/02 12:00:01"%string, 0%nat)])
  /\
  (forall (month day : string) (st st' : Log.state) (row : list string)
          (p : Log.parsed) (h : Z),
      reachable st -> st.(Log.last_H) = Some h ->
      Log.read_row month day st row = Ok p ->
      Log.store_row st p = Ok st' ->
      0 <= p.(Log.p_current) ->
      (p.(Log.p_current) < h -> h = 65535 ->
       p.(Log.p_base) = st.(Log.base) + 65536 /\ p.(Log.p_flag) = false
       /\ st'.(Log.base) = st.(Log.base) + 65536
       /\ st'.(Log.flags) = st.(Log.flags))
      /\
      (p.(Log.p_current) < h -> h <> 65535 ->
       p.(Log.p_base) = 0 /\ p.(Log.p_flag) = true
       /\ st'.(Log.base) = 0
       /\ st'.(Log.result) = st.(Log.result) ++ [p.(Log.p_row)]
       /\ p.(Log.p_row) !! 1%nat = Some (PNum (PInt p.(Log.p_current)))
       /\ st'.(Log.flags)
          = <[p.(Log.p_ts) := length st.(Log.result)]> st.(Log.flags))
      /\
      (h <= p.(Log.p_current) ->
       p.(Log.p_base) = st.(Log.base) /\ p.(Log.p_flag) = false)).
Proof.
  split.
  - vm_compute. repeat split; reflexivity.
  - intros month day st st' row p h Hreach Hlast Hp Hstore Hpos.
    pose proof (LogFacts.reachable_wf st Hreach) as (Hb & Hall & Hwf).
    rewrite Hlast in Hwf. destruct Hwf as (Hflags & r0 & b & Hl0 & Hc0 & Hb0).
    destruct (LogFacts.read_row_spec _ _ _ _ _ Hp)
      as (t & hs & _ & _ & _ & Hu & _ & Hlen & Hcnt).
    rewrite Hlast, unwrap_from in Hu by exact Hpos.
    split; [|split].
    + intros Hlt H65.
      replace (Log.p_current p <? h) with true in Hu
        by (symmetry; apply Z.ltb_lt; exact Hlt).
      replace (h =? 65535) with true in Hu by (symmetry; apply Z.eqb_eq; exact H65).
      injection Hu as Hbase Hflag.
      split; [exact Hbase|]. split; [exact Hflag|].
      unfold Log.store_row in Hstore. rewrite Hl0 in Hstore.
      apply bind_Ok in Hstore as (same & _ & Hstore). destruct same.
      * apply bind_Ok in Hstore as (r0' & _ & Hstore). injection Hstore as <-.
        simpl. split; [exact Hbase|reflexivity].
      * injection Hstore as <-. unfold Log.append. simpl. split; [exact Hbase|].
        destruct (decide (Log.flags st = ∅)); [contradiction|].
        rewrite Hflag. reflexivity.
    + intros Hlt H65.
      replace (Log.p_current p <? h) with true in Hu
        by (symmetry; apply Z.ltb_lt; exact Hlt).
      replace (h =? 65535) with false in Hu by (symmetry; apply Z.eqb_neq; exact H65).
      injection Hu as Hbase Hflag.
      rewrite Hbase, Z.add_0_r in Hcnt.
      rewrite LogFacts.store_row_append in Hstore.
      * injection Hstore as <-. unfold Log.append. simpl.
        split; [exact Hbase|]. split; [exact Hflag|]. split; [exact Hbase|].
        split; [reflexivity|]. split; [exact Hcnt|].
        rewrite length_app. simpl.
        replace (length (Log.result st) + 1 - 1)%nat with (length (Log.result st))
          by lia.
        destruct (decide (Log.flags st = ∅)); [reflexivity|].
        rewrite Hflag. reflexivity.
      * intros r1 Hl1. rewrite Hl0 in Hl1. injection Hl1 as <-.
        apply (smaller_counter_not_same r0 _ (h + b) (Log.p_current p) Hc0 Hcnt).
        lia.
    + intros Hge.
      replace (Log.p_current p <? h) with false in Hu
        by (symmetry; apply Z.ltb_ge; exact Hge).
      injection Hu as Hbase Hflag. split; assumption.
Qed.

Lemma counter_unwrap_rule_witness :
  (parsed_of "01" "02" wrap_before wrap_row).(Log.p_base)
  = wrap_before.(Log.base) + 65536
  /\ (parsed_of "01" "02" wrap_before wrap_row).(Log.p_flag) = false
  /\ wrap_after.(Log.base) = wrap_before.(Log.base) + 65536
  /\ wrap_after.(Log.flags) = wrap_before.(Log.flags).
Proof.
  refine (proj1 (proj2 counter_unwrap_rule "01" "02" wrap_before wrap_after wrap_row
                   (parsed_of "01" "02" wrap_before wrap_row) 65535 _ _ _ _ _) _ _).
  - apply (reach_step "01" "02" Log.init wrap_before full_row reach_init).
    vm_compute. reflexivity.
  - vm_compute. reflexivity.
  - vm_compute. reflexivity.
  - vm_compute. reflexivity.
  - vm_compute. discriminate.
  - vm_compute. reflexivity.
  - reflexivity.
Defined.

(** Why the rule asks for a counter that is not negative: the counter -1
    after a stored counter of 0 is a decrease from a counter other than
    65535, and yet [base] stays 65536 (the row is stored as 65535, not as
    -1) and the row is no run boundary. *)
Lemma decrease_after_zero_unflagged :
  is_ok below_zero_loaded = true
  /\ counters (loaded_records below_zero_loaded)
     = [Some (PNum (PInt 65535)); Some (PNum (PInt 65536)); Some (PNum (PInt 65535))]
  /\ counters (loaded_records below_zero_loaded)
     <> [Some (PNum (PInt 65535)); Some (PNum (PInt 65536)); Some (PNum (PInt (-1)))]
  /\ loaded_flags below_zero_loaded = [("01/02 12:00:01"%string, 0%nat)].
Proof.
  vm_compute. repeat split; try reflexivity. discriminate.
Qed.

(** C2, as the code has it.  When the current row has the counter, the X
    and the Y of the last stored record, the row is not appended, and in
    every column 5..22 the record takes the value of the current row where
    the current row has one, and keeps its own value where the current row
    has none: the latest value present wins.  The columns 0..4 of the
    record, [last_H] and the run boundaries are left as they are. *)
Theorem merge_latest_value_wins
    (month day : string) (st : Log.state) (row : list string)
    (p : Log.parsed) (r0 : list pyval) :
  reachable st -> last st.(Log.result) = Some r0 ->
  Log.read_row month day st row = Ok p ->
  Log.same_hole r0 p.(Log.p_row) = Ok true ->
  exists (st' : Log.state) (r0' : list pyval),
    Log.row_step month day st row = Ok st'
    /\ length st'.(Log.result) = length st.(Log.result)
    /\ last st'.(Log.result) = Some r0'
    /\ st'.(Log.last_H) = st.(Log.last_H)
    /\ st'.(Log.flags) = st.(Log.flags)
    /\ (forall (c : nat) (a b : pyval),
          (5 <= c < 23)%nat -> p.(Log.p_row) !! c = Some a -> r0 !! c = Some b ->
          r0' !! c = Some (if Cell.truthy a then a else b))
    /\ (forall c : nat, (c < 5)%nat -> r0' !! c = r0 !! c).
Proof.
  intros Hreach Hl0 Hp Hsame.
  pose proof (LogFacts.reachable_wf st Hreach) as (_ & Hall & _).
  destruct (LogFacts.read_row_spec _ _ _ _ _ Hp) as (_ & _ & _ & _ & _ & _ & _ & Hlen & _).
  assert (Hr0 : (23 <= length r0)%nat).
  { rewrite Forall_forall in Hall. apply Hall, last_Some_elem_of, Hl0. }
  destruct (LogFacts.merge_spec r0 (Log.p_row p) Hr0 Hlen)
    as (r0' & Hm & Hlen' & Hout & Hin).
  eexists _, r0'. unfold Log.row_step. rewrite Hp. cbn.
  rewrite (LogFacts.store_row_merge st p r0 Hl0 Hsame), Hm. cbn.
  split; [reflexivity|]. simpl.
  split; [apply length_insert|].
  split; [apply LogFacts.last_insert_last; intros Hnil; rewrite Hnil in Hl0;
          discriminate|].
  split; [reflexivity|]. split; [reflexivity|]. split.
  - intros c a b Hc Ha Hb. apply (Hin c a b Hc Ha Hb).
  - intros c Hc. apply Hout. lia.
Qed.

Lemma merge_latest_value_wins_witness :
  exists (st' : Log.state) (r0' : list pyval),
    Log.row_step "01" "02" twice_first twice_second = Ok st'
    /\ length st'.(Log.result) = length twice_first.(Log.result)
    /\ last st'.(Log.result) = Some r0'
    /\ st'.(Log.last_H) = twice_first.(Log.last_H)
    /\ st'.(Log.flags) = twice_first.(Log.flags)
    /\ (forall (c : nat) (a b : pyval),
          (5 <= c < 23)%nat ->
          (parsed_of "01" "02" twice_first twice_second).(Log.p_row) !! c = Some a ->
          last_record twice_first !! c = Some b ->
          r0' !! c = Some (if Cell.truthy a then a else b))
    /\ (forall c : nat, (c < 5)%nat -> r0' !! c = last_record twice_first !! c).
Proof.
  apply (merge_latest_value_wins "01" "02" twice_first twice_second
           (parsed_of "01" "02" twice_first twice_second)
           (last_record twice_first)).
  - apply (reach_step "01" "02" Log.init twice_first twice_first_row reach_init).
    vm_compute. reflexivity.
  - vm_compute. reflexivity.
  - vm_compute. reflexivity.
  - vm_compute. reflexivity.
Defined.

(** The rule of C2 as the specification words it fails on [twice_log]: the
    first row holds 1.5 in column 5, the second row of the same hole holds
    2.5 there, and the one record stored holds 2.5; in column 6, where the
    first row has no value, it holds the 3.5 of the second row. *)
Lemma merge_overwrites_present_field :
  is_ok twice_loaded = true
  /\ length (loaded_records twice_loaded) = 1%nat
  /\ cell_at twice_first.(Log.result) 0 5 = Some (PNum (PFloat 1.5))
  /\ cell_at (loaded_records twice_loaded) 0 5 = Some (PNum (PFloat 2.5))
  /\ cell_at (loaded_records twice_loaded) 0 5 <> Some (PNum (PFloat 1.5))
  /\ cell_at (loaded_records twice_loaded) 0 6 = Some (PNum (PFloat 3.5)).
Proof.
  split; [vm_compute; reflexivity|].
  split; [vm_compute; reflexivity|].
  split; [vm_compute; reflexivity|].
  split; [vm_compute; reflexivity|].
  split; [|vm_compute; reflexivity].
  intros H.
  apply (f_equal (fun v : option pyval =>
                    match v with
                    | Some (PNum (PFloat f)) => (f =? 1.5)%float
                    | _ => false
                    end)) in H.
  vm_compute in H. discriminate.
Qed.

Lemma sort_files_one (path : string) : Log.sort_files [path] = [path].
Proof. reflexivity. Qed.

(** C7, as the code has it.  For each log file the parser first requires
    the file to exist and fails with [NotFoundError] otherwise, whatever its
    name; only for an existing file does it look for the month/day token in
    the name and fail with [NamingError] when it is absent.  A file that
    does not exist and whose name lacks the token is reported as
    [NotFoundError]. *)
Theorem existence_checked_before_name
    (fs : string -> option (list (list string))) (st : Log.state) (path : string) :
  (fs path = None ->
   Log.file_step fs st path = Err NotFoundError
   /\ Log.loadBackDrillData fs [path] = Err NotFoundError)
  /\
  (forall rows : list (list string),
      fs path = Some rows -> Log.match_data_file path = None ->
      Log.file_step fs st path = Err NamingError
      /\ Log.loadBackDrillData fs [path] = Err NamingError).
Proof.
  split.
  - intros Hfs. unfold Log.loadBackDrillData. rewrite sort_files_one.
    cbn. unfold Log.file_step. rewrite Hfs. split; reflexivity.
  - intros rows Hfs Hname. unfold Log.loadBackDrillData. rewrite sort_files_one.
    cbn. unfold Log.file_step. rewrite Hfs, Hname. split; reflexivity.
Qed.

Lemma existence_checked_before_name_witness :
  Log.file_step no_file Log.init "record.txt" = Err NotFoundError
  /\ Log.loadBackDrillData no_file ["record.txt"%string] = Err NotFoundError.
Proof.
  apply (proj1 (existence_checked_before_name no_file Log.init "record.txt")).
  reflexivity.
Defined.

(** The order C7 states fails on a file that neither exists nor carries the
    date token: it is reported as not found. *)
Lemma missing_file_without_date_not_found :
  no_file "record.txt"%string = None
  /\ Log.match_data_file "record.txt" = None
  /\ Log.loadBackDrillData no_file ["record.txt"%string] = Err NotFoundError
  /\ Log.loadBackDrillData no_file ["record.txt"%string] <> Err NamingError.
Proof.
  split; [reflexivity|]. split; [reflexivity|]. split; [reflexivity|].
  discriminate.
Qed.

(** ** The outlier detector *)

(** One step of the detector on two cells that are absent or floats: the
    two weights grow exactly when the pair differs. *)
Lemma axis_step_differ (data : list (list pyval)) (tol : pynum) (i step z : nat)
    (weight : list (list Z)) (a b : pyval) :
  cell_at data i z = Some a -> cell_at data (i + step) z = Some b ->
  (a = PNone \/ exists f, a = PNum (PFloat f)) ->
  (b = PNone \/ exists f, b = PNum (PFloat f)) ->
  Outliers.axis_step data tol i step weight z
  = Ok (if differ data tol z i (i + step)
        then Outliers.bump (Outliers.bump weight i ((z - 6) / 3)) (i + step) ((z - 6) / 3)
        else weight).
Proof.
  intros Ha Hb Hta Htb. unfold differ. rewrite Ha, Hb.
  unfold cell_at in Ha, Hb. unfold Outliers.axis_step, Cell.item.
  destruct (data !! i) as [ri|]; [|discriminate]. cbn in Ha.
  destruct (data !! (i + step)%nat) as [rj|]; [|discriminate]. cbn in Hb.
  cbn [mbind outcome_bind]. rewrite Ha. cbn [mbind outcome_bind].
  destruct Hta as [-> | [fa ->]]; [destruct b as [|[]|]; reflexivity|].
  cbn [Cell.truthy].
  destruct (Num.truthy (PFloat fa)); [|destruct b as [|[]|]; reflexivity].
  rewrite Hb. cbn [mbind outcome_bind].
  destruct Htb as [-> | [fb ->]]; [reflexivity|].
  cbn [Cell.truthy]. destruct (Num.truthy (PFloat fb)); [|reflexivity].
  cbn. destruct (Num.gtb _ tol); reflexivity.
Qed.

(** C3, as the code has it.  With [lag = 2] and the tolerance 0.01, on four
    records whose one depth axis reads 1.0, 1.02, 1.5, 1.51 the weights of
    that axis are 2, 3, 3, 2 and the weights of the other axes are 0: the
    pairs compared are (0,1), (1,2), (2,3), (0,2) and (1,3), and each of
    them differs by more than 0.01 (1.02 - 1.0 is 0.02, and 1.51 - 1.5 is
    0.010000000000000009 in binary64), so that each pair counts at both of
    its ends. *)
Theorem outliers_lag2_sample :
  Outliers.calc_outliers axis_records 2 tolerance
  = Ok [ [2; 0; 0; 0; 0; 0]; [3; 0; 0; 0; 0; 0];
         [3; 0; 0; 0; 0; 0]; [2; 0; 0; 0; 0; 0] ]
  /\ (fun r : list pyval => r !! 6%nat) <$> axis_records
     = [ Some (PNum (PFloat 1)); Some (PNum (PFloat 0x1.051eb851eb852p+0));
         Some (PNum (PFloat 1.5)); Some (PNum (PFloat 0x1.828f5c28f5c29p+0)) ]
  /\ differ axis_records tolerance 6 0 1 = true
  /\ differ axis_records tolerance 6 1 2 = true
  /\ differ axis_records tolerance 6 2 3 = true
  /\ differ axis_records tolerance 6 0 2 = true
  /\ differ axis_records tolerance 6 1 3 = true.
Proof. vm_compute. repeat split; reflexivity. Qed.

(** The weights C3 states, zero at the records 0 and 3, are not the weights
    computed: the record 0 differs from the records 1 and 2, the record 3
    from the records 1 and 2. *)
Lemma outliers_lag2_ends_flagged :
  is_ok (Outliers.calc_outliers axis_records 2 tolerance) = true
  /\ weight_at (weights_of (Outliers.calc_outliers axis_records 2 tolerance)) 0
     = Some 2
  /\ weight_at (weights_of (Outliers.calc_outliers axis_records 2 tolerance)) 3
     = Some 2
  /\ weight_at (weights_of (Outliers.calc_outliers axis_records 2 tolerance)) 0
     <> Some 0
  /\ weight_at (weights_of (Outliers.calc_outliers axis_records 2 tolerance)) 3
     <> Some 0
  /\ differ axis_records tolerance 6 0 1 = true
  /\ differ axis_records tolerance 6 2 3 = true.
Proof.
  vm_compute. repeat split; try reflexivity; discriminate.
Qed.

(** ** The shift detector *)

Module ShiftFacts.
Import Shift.

Lemma judge_loop_cons (s m n : Z * Z) (rest : list ((Z * Z) * (Z * Z))) :
  judge_loop (Some s) ((m, n) :: rest)
  = if (s.1 =? m.1 - n.1) && (s.2 =? m.2 + n.2) then judge_loop (Some s) rest
    else None.
Proof.
  cbn [judge_loop].
  destruct (s.1 =? m.1 - n.1), (s.2 =? m.2 + n.2); reflexivity.
Qed.

Lemma judge_loop_Some (s : Z * Z) (pairs : list ((Z * Z) * (Z * Z))) :
  Forall (agree s) pairs -> judge_loop (Some s) pairs = Some (Some s).
Proof.
  induction 1 as [|[m n] rest [Hx Hy] _ IH]; [reflexivity|].
  rewrite judge_loop_cons. simpl in Hx, Hy.
  rewrite <- Hx, <- Hy, !Z.eqb_refl. exact IH.
Qed.

Lemma judge_loop_Some_inv (s : Z * Z) (pairs : list ((Z * Z) * (Z * Z)))
    (r : option (Z * Z)) :
  judge_loop (Some s) pairs = Some r -> r = Some s /\ Forall (agree s) pairs.
Proof.
  revert r. induction pairs as [|[m n] rest IH]; intros r H.
  - injection H as <-. split; [reflexivity|constructor].
  - rewrite judge_loop_cons in H.
    destruct (s.1 =? m.1 - n.1) eqn:Ex; [|discriminate].
    destruct (s.2 =? m.2 + n.2) eqn:Ey; [|discriminate].
    simpl in H. apply Z.eqb_eq in Ex, Ey.
    destruct (IH r H) as [Hr Hall].
    split; [exact Hr|]. constructor; [|exact Hall].
    split; simpl; congruence.
Qed.

Lemma judge_loop_None_cons (m n : Z * Z) (rest : list ((Z * Z) * (Z * Z))) :
  judge_loop None ((m, n) :: rest)
  = judge_loop (Some (m.1 - n.1, m.2 + n.2)) rest.
Proof. cbn [judge_loop]. rewrite !Z.eqb_refl. reflexivity. Qed.

Lemma agree_zip (s : Z * Z) (d p : list (Z * Z)) :
  length d = length p ->
  Forall (agree s) (zip d p) <-> consistent s.1 s.2 d p.
Proof.
  intros Hlen. unfold consistent, agree. split.
  - intros Hall. split; [exact Hlen|]. intros i m n Hm Hn.
    rewrite Forall_lookup in Hall.
    specialize (Hall i (m, n)). simpl in Hall.
    rewrite lookup_zip_with, Hm in Hall. simpl in Hall. rewrite Hn in Hall.
    specialize (Hall eq_refl). lia.
  - intros [_ H]. apply Forall_lookup. intros i [m n] Hi.
    apply lookup_zip_with_Some in Hi as (m' & n' & [= <- <-] & Hm & Hn).
    specialize (H i m n Hm Hn). simpl. lia.
Qed.

(** What the three results of [judgeShift] mean, for a sample of records
    that is not empty. *)
Lemma judgeShift_spec (d p : list (Z * Z)) :
  d <> [] ->
  match judgeShift d p with
  | Ok (VShift dx dy) =>
      exists sx sy : Z,
        consistent sx sy d p
        /\ Num.truediv sx 1000 = Ok dx /\ Num.truediv sy 1000 = Ok dy
  | Ok VFalse => length d <> length p
  | Ok VNone => length d = length p /\ forall sx sy : Z, ~ consistent sx sy d p
  | Err e =>
      exists sx sy : Z,
        consistent sx sy d p
        /\ (Num.truediv sx 1000 = Err e
            \/ (is_ok (Num.truediv sx 1000) = true /\ Num.truediv sy 1000 = Err e))
  end.
Proof.
  intros Hd. unfold judgeShift.
  destruct (length d =? length p)%nat eqn:El; simpl.
  2: { apply Nat.eqb_neq in El. exact El. }
  apply Nat.eqb_eq in El.
  destruct d as [|m d']; [contradiction|].
  destruct p as [|n p']; [discriminate|].
  cbn [zip zip_with]. rewrite judge_loop_None_cons.
  set (s := (m.1 - n.1, m.2 + n.2)).
  assert (Hhead : agree s (m, n)) by (split; reflexivity).
  destruct (judge_loop (Some s) (zip_with pair d' p')) as [r|] eqn:Ej.
  - apply judge_loop_Some_inv in Ej as [-> Hall].
    assert (Hc : consistent s.1 s.2 (m :: d') (n :: p')).
    { apply agree_zip; [exact El|]. constructor; assumption. }
    simpl in Hc. simpl.
    destruct (Num.truediv (m.1 - n.1) 1000) as [dx|e] eqn:Ex; cbn.
    + destruct (Num.truediv (m.2 + n.2) 1000) as [dy|e] eqn:Ey; cbn.
      * exists (m.1 - n.1), (m.2 + n.2). auto.
      * exists (m.1 - n.1), (m.2 + n.2). split; [exact Hc|]. right.
        rewrite Ex. auto.
    + exists (m.1 - n.1), (m.2 + n.2). auto.
  - split; [exact El|]. intros sx sy Hc.
    apply (agree_zip (sx, sy)) in Hc; [|exact El].
    cbn [zip zip_with] in Hc. apply Forall_cons in Hc as [Hh Hall].
    assert (s = (sx, sy)).
    { unfold s. destruct Hh as [Hx Hy]. simpl in Hx, Hy. congruence. }
    subst s. rewrite H in Ej.
    rewrite (judge_loop_Some _ _ Hall) in Ej. discriminate.
Qed.

Lemma slide_nonempty (sample : Z) (dp : list (Z * Z)) (q : Z * Z) :
  0 < sample -> slide sample dp q <> [].
Proof.
  intros Hs. unfold slide.
  destruct (sample <? Z.of_nat (length (dp ++ [q]))) eqn:E.
  - apply Z.ltb_lt in E. rewrite length_app in E. simpl in E.
    destruct dp as [|a [|b dp']]; simpl in *; try lia; discriminate.
  - destruct dp; discriminate.
Qed.

Lemma windows_nonempty (sample : Z) (ps : list (Z * Z)) :
  0 < sample -> forall dp w, w ∈ windows sample dp ps -> w <> [].
Proof.
  intros Hs. induction ps as [|q ps IH]; intros dp w Hw; simpl in Hw.
  - apply elem_of_nil in Hw. contradiction.
  - apply elem_of_cons in Hw as [->|Hw].
    + apply slide_nonempty, Hs.
    + apply (IH _ _ Hw).
Qed.

(** The loop over the records returns what the first window that
    [judgeShift] accepts gives. *)
Lemma scan_data_Some (sample : Z) (prg_pos : list (Z * Z)) (data : list (list pyval))
    (dx dy : float) :
  forall dp : list (Z * Z),
    scan_data sample prg_pos dp data = Ok (Some (dx, dy)) ->
    exists w : list (Z * Z),
      w ∈ windows sample dp (positions data)
      /\ judgeShift w prg_pos = Ok (VShift dx dy).
Proof.
  induction data as [|r data IH]; intros dp H; simpl in H; [discriminate|].
  unfold positions. simpl. fold (positions data).
  destruct (record_pos r) as [q|e]; [|apply IH, H].
  simpl.
  apply bind_Ok in H as (v & Hj & H).
  destruct v as [| |dx' dy'].
  - destruct (IH _ H) as (w & Hw & Hjw). exists w. split; [|exact Hjw].
    apply elem_of_cons. right. exact Hw.
  - destruct (IH _ H) as (w & Hw & Hjw). exists w. split; [|exact Hjw].
    apply elem_of_cons. right. exact Hw.
  - injection H as <- <-. exists (slide sample dp q). split; [|exact Hj].
    apply elem_of_cons. left. reflexivity.
Qed.

Lemma scan_data_None (sample : Z) (prg_pos : list (Z * Z)) (data : list (list pyval)) :
  forall dp : list (Z * Z),
    (forall w, w ∈ windows sample dp (positions data) ->
               judgeShift w prg_pos = Ok VFalse \/ judgeShift w prg_pos = Ok VNone) ->
    scan_data sample prg_pos dp data = Ok None.
Proof.
  induction data as [|r data IH]; intros dp H; simpl; [reflexivity|].
  unfold positions in H. simpl in H. fold (positions data) in H.
  destruct (record_pos r) as [q|e]; [|apply IH, H].
  simpl in H.
  assert (Hrest : scan_data sample prg_pos (slide sample dp q) data = Ok None).
  { apply IH. intros w Hw. apply H. apply elem_of_cons. right. exact Hw. }
  destruct (H (slide sample dp q)) as [Hj|Hj];
    [apply elem_of_cons; left; reflexivity| |]; rewrite Hj; exact Hrest.
Qed.

End ShiftFacts.

(** C4, as the code has it.  When the detector returns [(dx, dy)], there is
    a window of consecutive record positions and an offset [(sx, sy)] on the
    grid of thousandths, with [dx = sx/1000] and [dy = sy/1000], such that
    for every pair of a window position and a program position
    [machineX - sx = programX] and [sy - machineY = programY]; and when no
    window has such an offset, the detector returns [None]. *)
Theorem detected_shift_is_consistent
    (prg : list string) (data : list (list pyval)) (sample : Z)
    (prg_pos : list (Z * Z)) :
  0 < sample ->
  Shift.scan_prg sample None [] prg = Ok prg_pos ->
  (forall dx dy : float,
      Shift.calc_shift prg data sample = Ok (Some (dx, dy)) ->
      exists (w : list (Z * Z)) (sx sy : Z),
        w ∈ windows sample [] (positions data)
        /\ consistent sx sy w prg_pos
        /\ Num.truediv sx 1000 = Ok dx /\ Num.truediv sy 1000 = Ok dy)
  /\
  ((forall w : list (Z * Z),
       w ∈ windows sample [] (positions data) ->
       forall sx sy : Z, ~ consistent sx sy w prg_pos) ->
   Shift.calc_shift prg data sample = Ok None).
Proof.
  intros Hs Hprg. unfold Shift.calc_shift. rewrite Hprg. cbn. split.
  - intros dx dy H.
    apply ShiftFacts.scan_data_Some in H as (w & Hw & Hj).
    pose proof (ShiftFacts.judgeShift_spec w prg_pos
                  (ShiftFacts.windows_nonempty sample _ Hs _ _ Hw)) as Hspec.
    rewrite Hj in Hspec. destruct Hspec as (sx & sy & Hc & Hx & Hy).
    exists w, sx, sy. auto.
  - intros Hnone. apply ShiftFacts.scan_data_None. intros w Hw.
    pose proof (ShiftFacts.judgeShift_spec w prg_pos
                  (ShiftFacts.windows_nonempty sample _ Hs _ _ Hw)) as Hspec.
    destruct (Shift.judgeShift w prg_pos) as [[| |dx dy]|e]; auto.
    + destruct Hspec as (sx & sy & Hc & _). destruct (Hnone w Hw sx sy Hc).
    + destruct Hspec as (sx & sy & Hc & _). destruct (Hnone w Hw sx sy Hc).
Qed.

Lemma detected_shift_is_consistent_witness :
  exists (w : list (Z * Z)) (sx sy : Z),
    w ∈ windows 10 [] (positions [shift_record])
    /\ consistent sx sy w [(2000, 3000)]
    /\ Num.truediv sx 1000 = Ok 3%float /\ Num.truediv sy 1000 = Ok 10%float.
Proof.
  apply (proj1 (detected_shift_is_consistent shift_program [shift_record] 10
                  [(2000, 3000)] ltac:(reflexivity) ltac:(vm_compute; reflexivity))).
  vm_compute. reflexivity.
Defined.

(** The equations C4 states fail on the offset the detector returns: for
    the machine position (5, 7) and the program position (2, 3) it returns
    (3, 10), and 7 + 10 is not 3; it is 10 - 7 that is 3. *)
Lemma detected_shift_not_as_stated :
  Shift.calc_shift shift_program [shift_record] 10 = Ok (Some (3, 10)%float)
  /\ positions [shift_record] = [(5000, 7000)]
  /\ Shift.scan_prg 10 None [] shift_program = Ok [(2000, 3000)]
  /\ Num.truediv 3000 1000 = Ok 3%float /\ Num.truediv 10000 1000 = Ok 10%float
  /\ consistent 3000 10000 [(5000, 7000)] [(2000, 3000)]
  /\ ~ consistent_as_stated 3000 10000 [(5000, 7000)] [(2000, 3000)]
  /\ (7 + 10 =? 3)%float = false /\ (10 - 7 =? 3)%float = true.
Proof.
  split; [vm_compute; reflexivity|]. split; [vm_compute; reflexivity|].
  split; [vm_compute; reflexivity|]. split; [vm_compute; reflexivity|].
  split; [vm_compute; reflexivity|]. split; [|split].
  - split; [reflexivity|]. intros [|i] m n Hm Hn; [|discriminate].
    injection Hm as <-. injection Hn as <-. simpl. lia.
  - intros [_ H]. specialize (H 0%nat (5000, 7000) (2000, 3000) eq_refl eq_refl).
    simpl in H. lia.
  - split; vm_compute; reflexivity.
Qed.

Lemma scan_prg_cons (sample : Z) (curTool : option string) (acc : list (Z * Z))
    (line : string) (rest : list string) :
  Shift.tool_line line = false ->
  (curTool = None \/ Shift.pos_line line = None) ->
  Shift.scan_prg sample curTool acc (line :: rest)
  = if Z.of_nat (length acc) =? sample then Ok acc
    else Shift.scan_prg sample curTool acc rest.
Proof.
  intros Ht Hc. cbn [Shift.scan_prg]. rewrite Ht.
  destruct Hc as [-> | ->]; [reflexivity|].
  destruct curTool; reflexivity.
Qed.

Lemma scan_prg_tool (sample : Z) (curTool : option string) (acc : list (Z * Z))
    (line : string) (rest : list string) :
  Shift.tool_line line = true ->
  Shift.scan_prg sample curTool acc (line :: rest)
  = if Z.of_nat (length acc) =? sample then Ok acc
    else Shift.scan_prg sample (Some line) acc rest.
Proof. intros Ht. cbn [Shift.scan_prg]. rewrite Ht. reflexivity. Qed.

(** Before the first accepted tool line nothing is sampled. *)
Lemma scan_prg_skip (sample : Z) (pre rest : list string) :
  sample <> 0 ->
  Forall (fun line => Shift.tool_line line = false) pre ->
  Shift.scan_prg sample None [] (pre ++ rest) = Shift.scan_prg sample None [] rest.
Proof.
  intros Hs. induction 1 as [|line pre Hl _ IH]; [reflexivity|].
  cbn [app]. rewrite (scan_prg_cons sample None [] line _ Hl (or_introl eq_refl)).
  replace (Z.of_nat (length (@nil (Z * Z))) =? sample) with false; [exact IH|].
  symmetry. apply Z.eqb_neq. simpl. lia.
Qed.

Lemma tool_lines_checked : forallb tool_line_checked (seq 0 100) = true.
Proof. vm_compute. reflexivity. Qed.

Lemma tool_line_number (n : nat) (two_digits : bool) (e : string) :
  (n < 100)%nat -> e = ""%string \/ e = newline ->
  Shift.tool_line (tool_text two_digits n ++ e) = ((2 <=? n) && (n <=? 9))%nat.
Proof.
  intros Hn He.
  pose proof tool_lines_checked as H. rewrite forallb_forall in H.
  specialize (H n). unfold tool_line_checked in H.
  cbn [forallb] in H.
  assert (Hin : In n (seq 0 100)) by (apply in_seq; lia).
  specialize (H Hin).
  apply andb_true_iff in H as [H1 H]. apply andb_true_iff in H as [H2 H].
  apply andb_true_iff in H as [H3 H]. apply andb_true_iff in H as [H4 _].
  apply Bool.eqb_prop in H1, H2, H3, H4.
  assert (Hempty : forall s : string, (s ++ "")%string = s).
  { induction s as [|a s IH]; [reflexivity|].
    change (String a (s ++ "") = String a s)%string. rewrite IH. reflexivity. }
  destruct He as [-> | ->]; destruct two_digits; rewrite ?Hempty; assumption.
Qed.

(** C6, as the code has it.  The detector starts to sample at the first
    line that [^T0?[2-9]$] matches: the lines before it add nothing to the
    sample, whatever they are.  Among the tool-select lines T0..T99, written
    with one digit or two, it matches those of the tools 2 to 9 and no
    other.  A line it does not match leaves the selection as it is, so that
    after a tool line T2..T9 every position line is sampled, also when a
    line T1, T01 or T10..T99 stands between. *)
Theorem sampling_starts_at_T2_to_T9 :
  (forall (sample : Z) (pre rest : list string),
      sample <> 0 ->
      Forall (fun line => Shift.tool_line line = false) pre ->
      Shift.scan_prg sample None [] (pre ++ rest)
      = Shift.scan_prg sample None [] rest)
  /\
  (forall (n : nat) (two_digits : bool) (e : string),
      (n < 100)%nat -> e = ""%string \/ e = newline ->
      Shift.tool_line (tool_text two_digits n ++ e) = ((2 <=? n) && (n <=? 9))%nat)
  /\
  (forall (sample : Z) (t : string) (acc : list (Z * Z)) (line : string)
          (rest : list string),
      Shift.tool_line line = false -> Shift.pos_line line = None ->
      Shift.scan_prg sample (Some t) acc (line :: rest)
      = if Z.of_nat (length acc) =? sample then Ok acc
        else Shift.scan_prg sample (Some t) acc rest)
  /\
  (forall (sample : Z) (t : string) (acc : list (Z * Z)) (line x y : string)
          (rest : list string) (nx ny : pynum) (p : Z * Z),
      Shift.tool_line line = false -> Shift.pos_line line = Some (x, y) ->
      parseNumber x 3 true = Ok nx -> parseNumber y 3 true = Ok ny ->
      Shift.getIntPos (PNum nx) (PNum ny) = Ok p ->
      Shift.scan_prg sample (Some t) acc (line :: rest)
      = if Z.of_nat (length (acc ++ [p])) =? sample then Ok (acc ++ [p])
        else Shift.scan_prg sample (Some t) (acc ++ [p]) rest).
Proof.
  split; [exact scan_prg_skip|]. split; [exact tool_line_number|]. split.
  - intros sample t acc line rest Ht Hp.
    apply scan_prg_cons; auto.
  - intros sample t acc line x y rest nx ny p Ht Hp Hx Hy Hpos.
    cbn [Shift.scan_prg]. rewrite Ht, Hp, Hx.
    cbn [mbind outcome_bind]. rewrite Hy.
    cbn [mbind outcome_bind]. rewrite Hpos. reflexivity.
Qed.

Lemma sampling_starts_at_T2_to_T9_witness :
  Shift.scan_prg 10 None [] ([("M48" ++ newline)%string; ("T10" ++ newline)%string]
                             ++ [("T02" ++ newline)%string; ("X002Y003" ++ newline)%string])
  = Shift.scan_prg 10 None [] [("T02" ++ newline)%string; ("X002Y003" ++ newline)%string].
Proof.
  apply (proj1 sampling_starts_at_T2_to_T9 10).
  - discriminate.
  - repeat constructor.
Defined.

(** What C6 says of the tools T10..T99 and T1 fails: holes under T10 alone
    are not sampled, and a hole under T01 is sampled when T02 came
    before. *)
Lemma sampling_misses_T10_takes_T01 :
  Shift.scan_prg 10 None [] program_T10 = Ok []
  /\ Shift.scan_prg 10 None [] program_T02_T01 = Ok [(1000, 2000)]
  /\ Shift.tool_line ("T10" ++ newline) = false
  /\ Shift.tool_line ("T01" ++ newline) = false.
Proof. vm_compute. repeat split; reflexivity. Qed.
(* ===================================================================== *)
(** * Further properties of the code                                      *)
(* ===================================================================== *)

(** ** The records and the boundaries of a load *)

Module LoadFacts.
Import Log LogFacts.

(** A load that succeeded is its records and its boundaries. *)
Lemma loaded_eq (r : outcome (list (list pyval) * gmap string nat)) :
  is_ok r = true -> r = Ok (loaded_records r, loaded_bounds r).
Proof. destruct r as [[records flags]|e]; [reflexivity|discriminate]. Qed.

Lemma foldl_Err {A B} (f : A -> B -> outcome A) (e : error) (l : list B) :
  foldl (fun acc x => a ← acc; f a x) (Err e) l = Err e.
Proof. induction l as [|x l IH]; [reflexivity|exact IH]. Qed.

Lemma foldl_Ok_cons {A B} (f : A -> B -> outcome A) (a a' : A) (x : B) (l : list B) :
  foldl (fun acc x => a ← acc; f a x) (Ok a) (x :: l) = Ok a' ->
  exists a1, f a x = Ok a1 /\ foldl (fun acc x => a ← acc; f a x) (Ok a1) l = Ok a'.
Proof.
  cbn [foldl]. change (Ok a ≫= (fun a0 => f a0 x)) with (f a x).
  destruct (f a x) as [a1|e] eqn:E.
  - intros H. exists a1. split; [reflexivity|exact H].
  - rewrite foldl_Err. discriminate.
Qed.

Lemma reachable_files (fs : string -> option (list (list string))) (files : list string) :
  forall st st' : state,
    reachable st ->
    foldl (fun acc f => st ← acc; file_step fs st f) (Ok st) files = Ok st' ->
    reachable st'.
Proof.
  induction files as [|f files IH]; intros st st' Hr H.
  - injection H as <-. exact Hr.
  - apply foldl_Ok_cons in H as (st1 & H1 & H).
    apply (IH st1 st'); [|exact H].
    unfold file_step in H1.
    destruct (fs f) as [rows|]; [|discriminate].
    destruct (match_data_file f) as [[month day]|]; [|discriminate].
    destruct rows as [|header rows]; [discriminate|].
    destruct (bad_header header); [discriminate|].
    apply (reachable_rows month day rows st st1 Hr H1).
Qed.

Lemma loaded_reachable (fs : string -> option (list (list string))) (files : list string)
    (records : list (list pyval)) (flags : gmap string nat) :
  loadBackDrillData fs files = Ok (records, flags) ->
  exists st : state, reachable st /\ st.(result) = records /\ st.(Log.flags) = flags.
Proof.
  unfold loadBackDrillData. intros H.
  apply bind_Ok in H as (st & Hst & H). injection H as <- <-.
  exists st. split; [|split; reflexivity].
  apply (reachable_files fs _ init st reach_init Hst).
Qed.

(** What a row does to the state: it is appended, when the last record is
    not its hole, or merged into the last record. *)
Lemma row_step_cases (month day : string) (st st' : state) (row : list string) :
  row_step month day st row = Ok st' ->
  exists p : parsed,
    read_row month day st row = Ok p
    /\ ((st' = append st p.(p_base) p.(p_flag) p.(p_current) p.(p_ts) p.(p_row)
         /\ forall r0, last st.(result) = Some r0 -> same_hole r0 p.(p_row) = Ok false)
        \/ exists r0 r0' : list pyval,
             last st.(result) = Some r0
             /\ same_hole r0 p.(p_row) = Ok true
             /\ merge r0 p.(p_row) = Ok r0'
             /\ st' = State st.(last_H) p.(p_base)
                        (<[(length st.(result) - 1)%nat := r0']> st.(result))
                        st.(Log.flags)).
Proof.
  unfold row_step. intros H.
  apply bind_Ok in H as (p & Hp & H). exists p. split; [exact Hp|].
  unfold store_row in H.
  destruct (last (result st)) as [r0|] eqn:El.
  - apply bind_Ok in H as (same & Hsame & H). destruct same.
    + apply bind_Ok in H as (r0' & Hm & H). injection H as <-.
      right. exists r0, r0'. auto.
    + injection H as <-. left. split; [reflexivity|].
      intros r1 [= <-]. exact Hsame.
  - injection H as <-. left. split; [reflexivity|]. intros r1 [=].
Qed.

Lemma coerce_from_lookup (r : list pyval) : forall (i j : nat) (r' : list pyval) (v' : pyval),
  coerce_from i r = Ok r' -> r' !! j = Some v' ->
  exists v, r !! j = Some v /\ coerce (i + j) v = Ok v'.
Proof.
  induction r as [|v t IH]; intros i j r' v' H Hj; simpl in H.
  - injection H as <-. rewrite lookup_nil in Hj. discriminate.
  - apply bind_Ok in H as (w & Hw & H).
    apply bind_Ok in H as (t' & Ht & H). injection H as <-.
    destruct j as [|j]; simpl in Hj.
    + injection Hj as <-. exists v. split; [reflexivity|].
      rewrite Nat.add_0_r. exact Hw.
    + destruct (IH _ _ _ _ Ht Hj) as (u & Hu & Hc). exists u. split; [exact Hu|].
      replace (i + S j)%nat with (S i + j)%nat by lia. exact Hc.
Qed.

Lemma coerce_depth (c : nat) (s : string) (n : pynum) :
  (5 <= c)%nat -> coerce c (PStr s) = Ok (PNum n) ->
  (exists f : float, n = PFloat f) /\ Num.eqb n (PInt 0) = false.
Proof.
  intros Hc. unfold coerce.
  destruct (numeric_text s); [|discriminate].
  destruct (Text.float_of_string s) as [f|e]; [|discriminate].
  unfold mbind, outcome_bind.
  assert (H4 : (4 <? c)%nat = true) by (apply Nat.ltb_lt; lia).
  rewrite H4. cbn [andb].
  destruct (Num.eqb (PFloat f) (PInt 0)) eqn:E; [discriminate|].
  intros [= <-]. split; [eauto|exact E].
Qed.

Lemma read_row_stored (month day : string) (st : state) (row : list string) (p : parsed) :
  read_row month day st row = Ok p -> stored_record p.(p_row).
Proof.
  intros Hp.
  destruct (read_row_spec _ _ _ _ _ Hp) as (t & h & Ht & Hh & _ & _ & _ & Hlen & Hcnt).
  split; [exact Hlen|]. split; [|split].
  - exists (p_ts p). apply (StampFacts.read_row_stamp _ _ _ _ _ Hp).
  - eauto.
  - intros c n Hc Hn.
    unfold read_row in Hp.
    apply bind_Ok in Hp as (t' & _ & Hp).
    apply bind_Ok in Hp as (h' & _ & Hp).
    apply bind_Ok in Hp as (cur & _ & Hp).
    destruct (unwrap (last_H st) (base st) cur) as [b f].
    apply bind_Ok in Hp as (r & Hr & Hp). injection Hp as <-. simpl in Hn.
    unfold pad in Hn. apply lookup_app_Some in Hn as [Hn|[_ Hn]].
    + destruct (coerce_from_lookup _ _ _ _ _ Hr Hn) as (v & Hv & Hcv).
      rewrite list_lookup_insert_ne in Hv by lia.
      rewrite list_lookup_insert_ne in Hv by lia.
      rewrite list_lookup_fmap in Hv.
      destruct (row !! c) as [s|]; [|discriminate]. injection Hv as <-.
      apply (coerce_depth (0 + c) s n); [lia|exact Hcv].
    + apply lookup_replicate in Hn as [Hn _]. discriminate.
Qed.

Lemma merge_stored (r0 r r0' : list pyval) :
  stored_record r0 -> stored_record r -> merge r0 r = Ok r0' -> stored_record r0'.
Proof.
  intros (H0 & [ts Hts] & [n Hn] & Hd0) (Hr & _ & _ & Hd) Hm.
  destruct (merge_spec r0 r H0 Hr) as (r1 & Hm' & Hlen & Hout & Hin).
  rewrite Hm in Hm'. injection Hm' as <-.
  split; [lia|]. split; [|split].
  - exists ts. rewrite Hout by lia. exact Hts.
  - exists n. rewrite Hout by lia. exact Hn.
  - intros c m Hc Hcm.
    destruct (decide (c < 23)%nat) as [Hlt|Hge].
    + destruct (lookup_lt_is_Some_2 r0 c ltac:(lia)) as [b Hb].
      destruct (lookup_lt_is_Some_2 r c ltac:(lia)) as [a Ha].
      rewrite (Hin c a b ltac:(lia) Ha Hb) in Hcm. injection Hcm as Hcm.
      unfold Cell.or in Hcm. destruct (Cell.truthy a); subst.
      * apply (Hd c m Hc Ha).
      * apply (Hd0 c m Hc Hb).
    + rewrite Hout in Hcm by lia. apply (Hd0 c m Hc Hcm).
Qed.

Lemma reachable_stored (st : state) : reachable st -> Forall stored_record st.(result).
Proof.
  induction 1 as [|month day st st' row Hr IH H]; [constructor|].
  apply row_step_cases in H as (p & Hp & [[-> _]|(r0 & r0' & Hl & _ & Hm & ->)]).
  - simpl. apply Forall_app. split; [exact IH|].
    apply Forall_singleton. apply (read_row_stored _ _ _ _ _ Hp).
  - simpl. apply Forall_insert; [exact IH|].
    apply (merge_stored r0 (p_row p) r0'); [| |exact Hm].
    + rewrite Forall_forall in IH. apply IH. apply last_Some_elem_of, Hl.
    + apply (read_row_stored _ _ _ _ _ Hp).
Qed.

Lemma reachable_boundaries (st : state) :
  reachable st -> boundaries_ok st.(result) st.(Log.flags).
Proof.
  induction 1 as [|month day st st' row Hr IH H].
  - intros key i Hk. cbn in Hk. rewrite lookup_empty in Hk. discriminate.
  - apply row_step_cases in H as (p & Hp & [[-> _]|(r0 & r0' & Hl & _ & Hm & ->)]).
    + assert (Hold : forall key i, Log.flags st !! key = Some i ->
                exists r, (result st ++ [p_row p]) !! i = Some r
                          /\ r !! 0%nat = Some (PStr key)).
      { intros key i Hk. destruct (IH key i Hk) as (r & Hi & H0).
        exists r. split; [|exact H0]. apply lookup_app_l_Some, Hi. }
      assert (Hnew : forall key i,
                <[p_ts p := (length (result st ++ [p_row p]) - 1)%nat]> (Log.flags st)
                  !! key = Some i ->
                exists r, (result st ++ [p_row p]) !! i = Some r
                          /\ r !! 0%nat = Some (PStr key)).
      { intros key i Hk. apply lookup_insert_Some in Hk as [[<- <-]|[_ Hk]].
        - exists (p_row p). split.
          + rewrite length_app. simpl.
            replace (length (result st) + 1 - 1)%nat with (length (result st)) by lia.
            apply list_lookup_middle. reflexivity.
          + apply (StampFacts.read_row_stamp _ _ _ _ _ Hp).
        - apply Hold, Hk. }
      unfold boundaries_ok, append. simpl.
      destruct (decide (Log.flags st = ∅)); [exact Hnew|].
      destruct (p_flag p); [exact Hnew|exact Hold].
    + intros key i Hk. simpl in *. destruct (IH key i Hk) as (r & Hi & H0).
      destruct (decide (i = length (result st) - 1)%nat) as [->|Hne].
      * exists r0'. split.
        -- apply list_lookup_insert_eq. apply lookup_lt_Some in Hi. exact Hi.
        -- rewrite last_lookup in Hl.
           replace (Init.Nat.pred (length (result st))) with (length (result st) - 1)%nat
             in Hl by lia.
           assert (r = r0) by congruence. subst r.
           assert (Hs0 : stored_record r0).
           { pose proof (reachable_stored st Hr) as Hall.
             rewrite Forall_forall in Hall. apply Hall.
             apply (list_elem_of_lookup_2 _ _ _ Hi). }
           assert (Hsp : stored_record (p_row p))
             by apply (read_row_stored _ _ _ _ _ Hp).
           destruct (merge_spec r0 (p_row p) ltac:(apply Hs0) ltac:(apply Hsp))
             as (r1 & Hm' & _ & Hout & _).
           rewrite Hm in Hm'. injection Hm' as <-.
           rewrite Hout by lia. exact H0.
      * exists r. split; [|exact H0].
        rewrite list_lookup_insert_ne by congruence. exact Hi.
Qed.

Lemma same_hole_ext (r0 r0' r r' : list pyval) :
  (forall j, (j < 5)%nat -> r0' !! j = r0 !! j) ->
  (forall j, (j < 5)%nat -> r' !! j = r !! j) ->
  same_hole r0' r' = same_hole r0 r.
Proof.
  intros H0 Hr. unfold same_hole, same_at, Cell.item.
  rewrite !H0, !Hr by lia. reflexivity.
Qed.

Lemma reachable_neighbours (st : state) :
  reachable st -> neighbours_differ st.(result).
Proof.
  induction 1 as [|month day st st' row Hr IH H].
  - intros i r0 r Hi. cbn in Hi. rewrite lookup_nil in Hi. discriminate.
  - apply row_step_cases in H as (p & Hp & [[-> Hlast]|(r0 & r0' & Hl & _ & Hm & ->)]).
    + intros i a c Ha Hc. simpl in *.
      destruct (decide (S i < length (result st))%nat) as [Hlt|Hge].
      * rewrite lookup_app_l in Ha by lia. rewrite lookup_app_l in Hc by lia.
        apply (IH i a c Ha Hc).
      * pose proof (lookup_lt_Some _ _ _ Hc) as Hb.
        rewrite length_app in Hb. simpl in Hb.
        assert (Hi : S i = length (result st)) by lia.
        rewrite Hi, list_lookup_middle in Hc by reflexivity. injection Hc as <-.
        rewrite lookup_app_l in Ha by lia.
        apply Hlast. rewrite last_lookup.
        replace (Init.Nat.pred (length (result st))) with i by lia. exact Ha.
    + assert (Hs0 : stored_record r0).
      { pose proof (reachable_stored st Hr) as Hall.
        rewrite Forall_forall in Hall. apply Hall. apply last_Some_elem_of, Hl. }
      assert (Hsp : stored_record (p_row p))
        by apply (read_row_stored _ _ _ _ _ Hp).
      destruct (merge_spec r0 (p_row p) ltac:(apply Hs0) ltac:(apply Hsp))
        as (r1 & Hm' & _ & Hout & _).
      rewrite Hm in Hm'. injection Hm' as <-.
      rewrite last_lookup in Hl.
      replace (Init.Nat.pred (length (result st))) with (length (result st) - 1)%nat
        in Hl by lia.
      intros i a c Ha Hc. simpl in *.
      pose proof (lookup_lt_Some _ _ _ Hc) as Hb. rewrite length_insert in Hb.
      rewrite list_lookup_insert_ne in Ha by lia.
      destruct (decide (S i = length (result st) - 1)%nat) as [Hi|Hne].
      * rewrite Hi in Hc. rewrite list_lookup_insert_eq in Hc by lia. injection Hc as <-.
        rewrite <- Hi in Hl. rewrite <- (IH i a r0 Ha Hl).
        apply same_hole_ext; [reflexivity|]. intros j Hj. apply Hout. lia.
      * rewrite list_lookup_insert_ne in Hc by lia. apply (IH i a c Ha Hc).
Qed.

End LoadFacts.

Module OrderFacts.

Lemma ascii_compare_eq (a b : ascii) : Ascii.compare a b = Eq -> a = b.
Proof.
  unfold Ascii.compare. intros H. apply N.compare_eq in H.
  rewrite <- (ascii_N_embedding a), <- (ascii_N_embedding b). congruence.
Qed.

Lemma leb_cons (a b : ascii) (s t : string) :
  String.leb (String a s) (String b t)
  = match Ascii.compare a b with
    | Eq => String.leb s t
    | Lt => true
    | Gt => false
    end.
Proof.
  unfold String.leb. simpl. destruct (Ascii.compare a b); reflexivity.
Qed.

Lemma leb_trans (s1 : string) : forall s2 s3 : string,
  String.leb s1 s2 = true -> String.leb s2 s3 = true -> String.leb s1 s3 = true.
Proof.
  induction s1 as [|a s1 IH]; intros s2 s3 H12 H23.
  - destruct s3; reflexivity.
  - destruct s2 as [|b s2]; [discriminate|].
    destruct s3 as [|c s3]; [discriminate|].
    rewrite leb_cons in *.
    unfold Ascii.compare in *.
    destruct (N.compare_spec (N_of_ascii a) (N_of_ascii b)) as [Eab|Lab|Gab];
      destruct (N.compare_spec (N_of_ascii b) (N_of_ascii c)) as [Ebc|Lbc|Gbc];
      try discriminate;
      destruct (N.compare_spec (N_of_ascii a) (N_of_ascii c)) as [Eac|Lac|Gac];
      try reflexivity; try lia.
    apply (IH s2 s3 H12 H23).
Qed.

#[local] Instance leb_transitive : Transitive (fun a b => Is_true (String.leb a b)).
Proof.
  intros a b c Hab Hbc. apply Is_true_true in Hab, Hbc. apply Is_true_true.
  apply (leb_trans a b c Hab Hbc).
Qed.

#[local] Instance leb_antisymm : AntiSymm eq (fun a b => Is_true (String.leb a b)).
Proof.
  intros a b Hab Hba. apply Is_true_true in Hab, Hba.
  apply (String.leb_antisym a b Hab Hba).
Qed.

#[local] Instance leb_is_total : Total (fun a b => Is_true (String.leb a b)).
Proof.
  intros a b. destruct (String.leb_total a b) as [H|H]; [left|right];
    apply Is_true_true, H.
Qed.

Lemma sort_files_perm (files files' : list string) :
  files ≡ₚ files' -> Log.sort_files files = Log.sort_files files'.
Proof.
  intros Hp. unfold Log.sort_files.
  apply (Sorted_unique (fun a b => Is_true (String.leb a b))).
  - apply Sorted_merge_sort; apply _.
  - apply Sorted_merge_sort; apply _.
  - rewrite !merge_sort_Permutation. exact Hp.
Qed.

End OrderFacts.

(** X1: every record of a load that succeeds has 23 cells at least, its
    time stamp as a text in cell 0, its unwrapped counter as an int in
    cell 1 and, from column 5 on, no number but a float other than zero: a
    measured zero is stored as absent and stays absent through the merges. *)
Theorem loaded_records_are_stored
    (fs : string -> option (list (list string))) (files : list string)
    (records : list (list pyval)) (flags : gmap string nat) :
  Log.loadBackDrillData fs files = Ok (records, flags) ->
  Forall stored_record records.
Proof.
  intros H. apply LoadFacts.loaded_reachable in H as (st & Hr & <- & _).
  apply LoadFacts.reachable_stored, Hr.
Qed.

Lemma loaded_records_are_stored_witness :
  Forall stored_record (loaded_records twice_loaded).
Proof.
  apply (loaded_records_are_stored (one_file "pos0102.dat" twice_log)
           ["pos0102.dat"%string] _ (loaded_bounds twice_loaded)).
  apply (LoadFacts.loaded_eq twice_loaded). vm_compute. reflexivity.
Defined.

(** X2: the run boundaries of a load that succeeds point into the
    records: each key is the time stamp in cell 0 of the record at its
    index, and there is a boundary exactly when there is a record. *)
Theorem boundaries_point_at_records
    (fs : string -> option (list (list string))) (files : list string)
    (records : list (list pyval)) (flags : gmap string nat) :
  Log.loadBackDrillData fs files = Ok (records, flags) ->
  boundaries_ok records flags /\ (records = [] <-> flags = ∅).
Proof.
  intros H. apply LoadFacts.loaded_reachable in H as (st & Hr & <- & <-).
  split; [apply LoadFacts.reachable_boundaries, Hr|].
  destruct (LogFacts.reachable_wf st Hr) as (_ & _ & Hl).
  destruct (Log.last_H st) as [h|].
  - destruct Hl as (Hne & r0 & b & Hlast & _).
    split; intros E; [|contradiction].
    rewrite E in Hlast. discriminate.
  - destruct Hl as [-> ->]. split; reflexivity.
Qed.

Lemma boundaries_point_at_records_witness :
  boundaries_ok (loaded_records wrap_loaded) (loaded_bounds wrap_loaded)
  /\ (loaded_records wrap_loaded = [] <-> loaded_bounds wrap_loaded = ∅).
Proof.
  apply (boundaries_point_at_records (one_file "pos0102.dat" wrap_log)
           ["pos0102.dat"%string]).
  apply (LoadFacts.loaded_eq wrap_loaded). vm_compute. reflexivity.
Defined.

(** X3: in the records of a load that succeeds no record is followed by
    a record of the same hole (same counter, X and Y): rows of one hole
    that follow each other are always merged into one record. *)
Theorem loaded_neighbours_differ
    (fs : string -> option (list (list string))) (files : list string)
    (records : list (list pyval)) (flags : gmap string nat) :
  Log.loadBackDrillData fs files = Ok (records, flags) ->
  neighbours_differ records.
Proof.
  intros H. apply LoadFacts.loaded_reachable in H as (st & Hr & <- & _).
  apply LoadFacts.reachable_neighbours, Hr.
Qed.

Lemma loaded_neighbours_differ_witness :
  neighbours_differ (loaded_records wrap_loaded).
Proof.
  apply (loaded_neighbours_differ (one_file "pos0102.dat" wrap_log)
           ["pos0102.dat"%string] _ (loaded_bounds wrap_loaded)).
  apply (LoadFacts.loaded_eq wrap_loaded). vm_compute. reflexivity.
Defined.

(** X4: the order in which the files are handed over is of no account:
    they are read in the order of their names, so that two lists with the
    same files give the same records, the same boundaries or the same
    exception. *)
Theorem load_order_irrelevant
    (fs : string -> option (list (list string))) (files files' : list string) :
  files ≡ₚ files' ->
  Log.loadBackDrillData fs files = Log.loadBackDrillData fs files'.
Proof.
  intros Hp. unfold Log.loadBackDrillData.
  rewrite (OrderFacts.sort_files_perm files files' Hp). reflexivity.
Qed.

Lemma load_order_irrelevant_witness :
  Log.loadBackDrillData two_logs ["pos0103.dat"; "pos0102.dat"]%string
  = Log.loadBackDrillData two_logs ["pos0102.dat"; "pos0103.dat"]%string.
Proof.
  apply (load_order_irrelevant two_logs).
  apply perm_swap.
Defined.
Module RunFacts.
Import Gui.

(** The loop of [run_end] over any list of items. *)
Lemma run_end_loop (start : nat) (items : list (string * nat)) : forall acc : nat,
  let e := foldl (fun end_ (item : string * nat) =>
                    if (start <? item.2)%nat && (item.2 <? end_)%nat
                    then item.2 else end_) acc items in
  (e <= acc)%nat
  /\ (e = acc \/ (exists key, (key, e) ∈ items) /\ (start < e)%nat)
  /\ (forall key j, (key, j) ∈ items -> (start < j)%nat -> (e <= j)%nat).
Proof.
  induction items as [|[k i] items IH]; intros acc; cbn zeta.
  - cbn [foldl]. split; [lia|]. split; [left; reflexivity|].
    intros key j Hj. apply elem_of_nil in Hj. contradiction.
  - cbn [foldl snd].
    destruct ((start <? i)%nat && (i <? acc)%nat) eqn:E.
    + apply andb_true_iff in E as [E1 E2].
      apply Nat.ltb_lt in E1, E2.
      destruct (IH i) as (Hle & Hor & Hmin). cbn zeta in *.
      split; [lia|]. split.
      * right. destruct Hor as [->|[[key Hk] Hs]].
        -- split; [|exact E1]. exists k. apply elem_of_cons. left. reflexivity.
        -- split; [|exact Hs]. exists key. apply elem_of_cons. right. exact Hk.
      * intros key j Hj Hs. apply elem_of_cons in Hj as [[= -> ->]|Hj].
        -- exact Hle.
        -- apply (Hmin key j Hj Hs).
    + destruct (IH acc) as (Hle & Hor & Hmin). cbn zeta in *.
      split; [exact Hle|]. split.
      * destruct Hor as [->|[[key Hk] Hs]]; [left; reflexivity|].
        right. split; [|exact Hs]. exists key. apply elem_of_cons. right. exact Hk.
      * intros key j Hj Hs. apply elem_of_cons in Hj as [[= -> ->]|Hj].
        -- apply andb_false_iff in E as [E|E].
           ++ apply Nat.ltb_ge in E. lia.
           ++ apply Nat.ltb_ge in E. lia.
        -- apply (Hmin key j Hj Hs).
Qed.

Lemma run_end_spec (flags : gmap string nat) (start len : nat) :
  (run_end flags start len <= len)%nat
  /\ (run_end flags start len = len
      \/ (exists key, flags !! key = Some (run_end flags start len))
         /\ (start < run_end flags start len)%nat)
  /\ (forall key j, flags !! key = Some j -> (start < j)%nat ->
                    (run_end flags start len <= j)%nat).
Proof.
  unfold run_end.
  destruct (run_end_loop start (map_to_list flags) len) as (Hle & Hor & Hmin).
  cbn zeta in *. split; [exact Hle|]. split.
  - destruct Hor as [H|[[key Hk] Hs]]; [left; exact H|].
    right. split; [|exact Hs]. exists key. apply elem_of_map_to_list in Hk. exact Hk.
  - intros key j Hj. apply Hmin with key. apply elem_of_map_to_list. exact Hj.
Qed.

End RunFacts.

(** X5: the run [select_data] keeps for a boundary: it starts with the
    record the boundary points at, goes on to the record before the least
    boundary above it, or to the last record when there is none, and is
    not empty; no boundary lies inside it. *)
Theorem selected_run_ends_at_next_boundary
    (flags : gmap string nat) (data : list (list pyval)) (key : string) (start : nat) :
  flags !! key = Some start -> (start < length data)%nat ->
  exists stop : nat,
    Gui.select_run flags data key = Some (drop start (take stop data))
    /\ (start < stop <= length data)%nat
    /\ (stop = length data \/ exists k, flags !! k = Some stop)
    /\ (forall k j, flags !! k = Some j -> ~ (start < j < stop)%nat)
    /\ (forall i, (i < stop - start)%nat ->
                  drop start (take stop data) !! i = data !! (start + i)%nat)
    /\ length (drop start (take stop data)) = (stop - start)%nat.
Proof.
  intros Hk Hs.
  destruct (RunFacts.run_end_spec flags start (length data)) as (Hle & Hor & Hmin).
  exists (Gui.run_end flags start (length data)).
  split; [unfold Gui.select_run; rewrite Hk; reflexivity|].
  assert (Hlt : (start < Gui.run_end flags start (length data))%nat).
  { destruct Hor as [->|[_ H]]; [exact Hs|exact H]. }
  split; [lia|]. split.
  - destruct Hor as [H|[H _]]; [left; exact H|right; exact H].
  - split.
    + intros k j Hj [H1 H2]. specialize (Hmin k j Hj H1). lia.
    + split.
      * intros i Hi. rewrite lookup_drop. apply lookup_take_lt. lia.
      * rewrite length_drop, length_take. lia.
Qed.

Lemma selected_run_ends_at_next_boundary_witness :
  exists stop : nat,
    Gui.select_run (loaded_bounds wrap_loaded) (loaded_records wrap_loaded)
      "01/02 12:00:01"
    = Some (drop 0 (take stop (loaded_records wrap_loaded)))
    /\ (0 < stop <= length (loaded_records wrap_loaded))%nat
    /\ (stop = length (loaded_records wrap_loaded)
        \/ exists k, loaded_bounds wrap_loaded !! k = Some stop)
    /\ (forall k j, loaded_bounds wrap_loaded !! k = Some j -> ~ (0 < j < stop)%nat)
    /\ (forall i, (i < stop - 0)%nat ->
                  drop 0 (take stop (loaded_records wrap_loaded)) !! i
                  = loaded_records wrap_loaded !! (0 + i)%nat)
    /\ length (drop 0 (take stop (loaded_records wrap_loaded))) = (stop - 0)%nat.
Proof.
  apply (selected_run_ends_at_next_boundary (loaded_bounds wrap_loaded)
           (loaded_records wrap_loaded) "01/02 12:00:01" 0).
  - vm_compute. reflexivity.
  - vm_compute. lia.
Defined.

(** X6: on the records and the boundaries of a load that succeeds, every
    key of the boundaries selects a run: [flags[selectedTime]] is an index
    of a record, the run is not empty and its first record carries the
    chosen time stamp. *)
Theorem loaded_boundary_selects_run
    (fs : string -> option (list (list string))) (files : list string)
    (records : list (list pyval)) (flags : gmap string nat) (key : string) :
  Log.loadBackDrillData fs files = Ok (records, flags) ->
  is_Some (flags !! key) ->
  exists (run : list (list pyval)) (r : list pyval),
    Gui.select_run flags records key = Some run
    /\ run !! 0%nat = Some r
    /\ r !! 0%nat = Some (PStr key)
    /\ Forall stored_record run.
Proof.
  intros Hload [start Hk].
  pose proof (LoadFacts.loaded_reachable _ _ _ _ Hload) as (st & Hr & <- & <-).
  destruct (LoadFacts.reachable_boundaries st Hr key start Hk) as (r & Hi & H0).
  pose proof (lookup_lt_Some _ _ _ Hi) as Hs.
  destruct (RunFacts.run_end_spec (Log.flags st) start (length (Log.result st)))
    as (Hle & Hor & _).
  assert (Hlt : (start < Gui.run_end (Log.flags st) start (length (Log.result st)))%nat).
  { destruct Hor as [->|[_ H]]; [exact Hs|exact H]. }
  exists (drop start (take (Gui.run_end (Log.flags st) start (length (Log.result st)))
                        (Log.result st))), r.
  split; [unfold Gui.select_run; rewrite Hk; reflexivity|].
  split; [|split; [exact H0|]].
  - rewrite lookup_drop, Nat.add_0_r. rewrite lookup_take_lt by lia. exact Hi.
  - apply Forall_drop, Forall_take. apply LoadFacts.reachable_stored, Hr.
Qed.

Lemma loaded_boundary_selects_run_witness :
  exists (run : list (list pyval)) (r : list pyval),
    Gui.select_run (loaded_bounds wrap_loaded) (loaded_records wrap_loaded)
      "01/02 12:00:01" = Some run
    /\ run !! 0%nat = Some r
    /\ r !! 0%nat = Some (PStr "01/02 12:00:01")
    /\ Forall stored_record run.
Proof.
  apply (loaded_boundary_selects_run (one_file "pos0102.dat" wrap_log)
           ["pos0102.dat"%string]).
  - apply (LoadFacts.loaded_eq wrap_loaded). vm_compute. reflexivity.
  - exists 0%nat. vm_compute. reflexivity.
Defined.

(** ** The outlier detector *)

Module OutlierFacts.
Import Outliers.

Lemma weight_of_bump (w : list (list Z)) (i c j k : nat) :
  weight_of (bump w i c) j k
  = (fun v => v + count_of ((i =? j)%nat && (c =? k)%nat)) <$> weight_of w j k.
Proof.
  unfold weight_of, bump.
  destruct (decide (i = j)) as [->|Hij].
  - rewrite list_lookup_alter_eq, Nat.eqb_refl. cbn [andb].
    destruct (w !! j) as [row|]; [|reflexivity]. cbn.
    destruct (decide (c = k)) as [->|Hck].
    + rewrite list_lookup_alter_eq, Nat.eqb_refl.
      destruct (row !! k) as [v|]; [|reflexivity]. cbn. unfold count_of.
      f_equal; lia.
    + rewrite list_lookup_alter_ne by exact Hck.
      apply Nat.eqb_neq in Hck. rewrite Hck.
      destruct (row !! k) as [v|]; [|reflexivity]. cbn. unfold count_of.
      f_equal; lia.
  - rewrite list_lookup_alter_ne by exact Hij.
    apply Nat.eqb_neq in Hij. rewrite Hij. cbn [andb].
    destruct (w !! j) as [row|]; [|reflexivity]. cbn.
    destruct (row !! k) as [v|]; [|reflexivity]. cbn. unfold count_of.
    f_equal; lia.
Qed.

Lemma length_bump (w : list (list Z)) (i c : nat) : length (bump w i c) = length w.
Proof. unfold bump. apply length_alter. Qed.

(** Whenever the body of the loop over the axes returns, it has added the
    pair to both its records, or left the weights as they were. *)
Lemma axis_step_Ok (data : list (list pyval)) (tol : pynum) (i step z : nat)
    (w w' : list (list Z)) :
  axis_step data tol i step w z = Ok w' ->
  w' = if differ data tol z i (i + step)
       then bump (bump w i ((z - 6) / 3)) (i + step) ((z - 6) / 3)
       else w.
Proof.
  unfold axis_step, differ, cell_at, Cell.item. intros H.
  destruct (data !! i) as [ri|]; [|discriminate]. cbn in H |- *.
  destruct (ri !! z) as [a|]; [|discriminate]. cbn in H |- *.
  destruct (Cell.truthy a) eqn:Ta.
  - destruct (data !! (i + step)%nat) as [rj|]; [|discriminate]. cbn in H |- *.
    destruct (rj !! z) as [b|]; [|discriminate]. cbn in H |- *.
    destruct (Cell.truthy b) eqn:Tb.
    + destruct a as [|x|s]; [discriminate| |discriminate].
      destruct b as [|y|s]; [discriminate| |discriminate].
      cbn in H, Ta, Tb. rewrite Ta, Tb. cbn [andb].
      destruct (Num.sub x y) as [d|e]; [|discriminate]. cbn in H.
      destruct (Num.gtb (Num.abs d) tol); congruence.
    + injection H as <-.
      destruct a as [|x|s]; try reflexivity.
      destruct b as [|y|s]; try reflexivity.
      cbn in Tb. rewrite Tb, andb_false_r. reflexivity.
  - injection H as <-.
    destruct a as [|x|s]; try reflexivity.
    cbn in Ta. rewrite Ta.
    destruct (data !! (i + step)%nat) as [rj|]; [|reflexivity]. cbn.
    destruct (rj !! z) as [[|y|s]|]; reflexivity.
Qed.

Lemma axis_step_added (data : list (list pyval)) (tol : pynum) (i step z : nat)
    (w w' : list (list Z)) (j k : nat) :
  axis_step data tol i step w z = Ok w' ->
  weight_of w' j k = (fun v => v + added data tol i step z j k) <$> weight_of w j k.
Proof.
  intros H. apply axis_step_Ok in H as ->. unfold added.
  generalize ((z - 6) / 3)%nat. intros col.
  destruct (differ data tol z i (i + step)).
  - rewrite !weight_of_bump. cbn [andb].
    destruct (weight_of w j k) as [v|]; [|reflexivity]. cbn. f_equal.
    destruct (col =? k)%nat; rewrite ?andb_true_r, ?andb_false_r;
      unfold count_of; lia.
  - cbn [andb]. destruct (weight_of w j k) as [v|]; [|reflexivity]. cbn.
    f_equal. lia.
Qed.

(** A loop that stops at the first exception adds up what its bodies add. *)
Lemma loop_added {B} (body : outcome (list (list Z)) -> B -> outcome (list (list Z)))
    (add : B -> Z) (j k : nat) :
  (forall e x, body (Err e) x = Err e) ->
  (forall w x w', body (Ok w) x = Ok w' ->
                  weight_of w' j k = (fun v => v + add x) <$> weight_of w j k) ->
  forall (l : list B) (w w' : list (list Z)),
    foldl body (Ok w) l = Ok w' ->
    weight_of w' j k = (fun v => v + total add l) <$> weight_of w j k.
Proof.
  intros Herr Hbody. induction l as [|x l IH]; intros w w' H.
  - injection H as <-. cbn. destruct (weight_of w j k); [|reflexivity].
    cbn. f_equal. lia.
  - cbn [foldl] in H. destruct (body (Ok w) x) as [w1|e] eqn:E.
    + rewrite (IH w1 w' H), (Hbody w x w1 E).
      destruct (weight_of w j k); [|reflexivity]. unfold total. cbn. f_equal. lia.
    + assert (Hf : foldl body (Err e) l = Err e).
      { clear -Herr. induction l as [|y l IH]; [reflexivity|].
        cbn [foldl]. rewrite Herr. exact IH. }
      rewrite Hf in H. discriminate.
Qed.

Lemma loop_Err {B} (body : outcome (list (list Z)) -> B -> outcome (list (list Z))) :
  (forall e x, body (Err e) x = Err e) ->
  forall (l : list B) (e : error), foldl body (Err e) l = Err e.
Proof.
  intros Herr. induction l as [|y l IH]; intros e; [reflexivity|].
  cbn [foldl]. rewrite Herr. apply IH.
Qed.

Lemma pair_step_Err (data : list (list pyval)) (tol : pynum) (step : nat)
    (e : error) (i : nat) :
  pair_step data tol step (Err e) i = Err e.
Proof. unfold pair_step. apply loop_Err. reflexivity. Qed.

Lemma lag_step_Err (data : list (list pyval)) (tol : pynum) (e : error) (step : nat) :
  lag_step data tol (Err e) step = Err e.
Proof. unfold lag_step. apply loop_Err. apply pair_step_Err. Qed.

Lemma calc_outliers_added (data : list (list pyval)) (lag : Z) (tol : pynum)
    (w : list (list Z)) (j k : nat) :
  calc_outliers data lag tol = Ok w ->
  weight_of w j k
  = (fun v => v + total (fun step =>
                   total (fun i =>
                     total (fun z => added data tol i step z j k) axes)
                     (seq 0 (length data - step)))
                   (seq 1 (Z.to_nat lag)))
    <$> weight_of (replicate (length data) (replicate 6 0)) j k.
Proof.
  unfold calc_outliers. apply loop_added; [apply lag_step_Err|].
  intros w0 step w1. unfold lag_step. apply loop_added; [apply pair_step_Err|].
  intros w2 i w3. unfold pair_step. apply loop_added; [reflexivity|].
  intros w4 z w5 H. apply (axis_step_added data tol i step z w4 w5 j k H).
Qed.

(** The sums. *)
Lemma total_ext {A} (f g : A -> Z) (l : list A) :
  (forall x, x ∈ l -> f x = g x) -> total f l = total g l.
Proof.
  unfold total. induction l as [|x l IH]; intros H; [reflexivity|]. cbn [foldr].
  rewrite (H x) by (apply elem_of_cons; left; reflexivity).
  rewrite IH; [reflexivity|]. intros y Hy. apply H. apply elem_of_cons. right. exact Hy.
Qed.

Lemma total_plus {A} (f g : A -> Z) (l : list A) :
  total (fun x => f x + g x) l = total f l + total g l.
Proof. unfold total. induction l as [|x l IH]; cbn [foldr]; lia. Qed.

Lemma total_nonneg {A} (f : A -> Z) (l : list A) (b : Z) :
  (forall x, 0 <= f x <= b) -> 0 <= total f l <= b * Z.of_nat (length l).
Proof.
  intros H. unfold total. induction l as [|x l IH]; cbn [foldr length]; [lia|].
  specialize (H x). rewrite Nat2Z.inj_succ. lia.
Qed.

(** The one index [j] of a range. *)
Lemma total_at (g : nat -> Z) (j : nat) (a n : nat) :
  total (fun i => if (i =? j)%nat then g i else 0) (seq a n)
  = if ((a <=? j) && (j <? a + n))%nat then g j else 0.
Proof.
  unfold total. revert a. induction n as [|n IH]; intros a.
  - cbn [seq foldr].
    destruct ((a <=? j) && (j <? a + 0))%nat eqn:E; [|reflexivity].
    apply andb_true_iff in E as [E E'].
    apply Nat.leb_le in E. apply Nat.ltb_lt in E'. lia.
  - cbn [seq foldr]. rewrite IH.
    destruct (a =? j)%nat eqn:Ea.
    + apply Nat.eqb_eq in Ea. subst a.
      assert (H1 : (S j <=? j)%nat = false) by (apply Nat.leb_gt; lia).
      assert (H2 : (j <=? j)%nat = true) by (apply Nat.leb_le; lia).
      assert (H3 : (j <? j + S n)%nat = true) by (apply Nat.ltb_lt; lia).
      rewrite H1, H2, H3. cbn [andb]. lia.
    + apply Nat.eqb_neq in Ea.
      destruct (a <=? j)%nat eqn:E1, (S a <=? j)%nat eqn:E2;
        destruct (j <? a + S n)%nat eqn:E3, (j <? S a + n)%nat eqn:E4;
        cbn [andb]; try lia;
        repeat match goal with
               | H : (_ <=? _)%nat = true |- _ => apply Nat.leb_le in H
               | H : (_ <=? _)%nat = false |- _ => apply Nat.leb_gt in H
               | H : (_ <? _)%nat = true |- _ => apply Nat.ltb_lt in H
               | H : (_ <? _)%nat = false |- _ => apply Nat.ltb_ge in H
               end; lia.
Qed.

Lemma total_at_shift (g : nat -> Z) (j s n : nat) :
  total (fun i => if (i + s =? j)%nat then g i else 0) (seq 0 n)
  = if ((s <=? j) && (j - s <? n))%nat then g (j - s)%nat else 0.
Proof.
  destruct (s <=? j)%nat eqn:E; cbn [andb].
  - apply Nat.leb_le in E.
    rewrite (total_ext _ (fun i => if (i =? j - s)%nat then g i else 0)).
    + rewrite total_at. cbn. reflexivity.
    + intros i _. destruct (i + s =? j)%nat eqn:E1, (i =? j - s)%nat eqn:E2;
        try reflexivity;
        repeat match goal with
               | H : (_ =? _)%nat = true |- _ => apply Nat.eqb_eq in H
               | H : (_ =? _)%nat = false |- _ => apply Nat.eqb_neq in H
               end; lia.
  - apply Nat.leb_gt in E.
    rewrite (total_ext _ (fun _ => 0)).
    + clear. unfold total. induction (seq 0 n) as [|x l IH]; cbn [foldr]; lia.
    + intros i _. destruct (i + s =? j)%nat eqn:E1; [|reflexivity].
      apply Nat.eqb_eq in E1. lia.
Qed.

(** Over the six columns, only the column of the axis [k] adds. *)
Lemma total_axes (data : list (list pyval)) (tol : pynum) (i step j k : nat) :
  (k < 6)%nat ->
  total (fun z => added data tol i step z j k) axes
  = if differ data tol (axis_column k) i (i + step)
    then count_of (i =? j)%nat + count_of (i + step =? j)%nat
    else 0.
Proof.
  intros Hk. unfold added, axes, total, axis_column.
  do 6 (destruct k as [|k]; [cbn;
    repeat match goal with
           | |- context [differ ?d ?t ?z ?a ?b] => destruct (differ d t z a b)
           end; cbn; lia|]).
  lia.
Qed.

Lemma differ_out_of_range_r (data : list (list pyval)) (tol : pynum) (z i j : nat) :
  (length data <= j)%nat -> differ data tol z i j = false.
Proof.
  intros H. unfold differ, cell_at.
  rewrite (lookup_ge_None_2 data j H). cbn.
  destruct (data !! i ≫= _) as [[| |]|]; reflexivity.
Qed.

Lemma total_pairs (data : list (list pyval)) (tol : pynum) (step j k : nat) :
  (k < 6)%nat -> (j < length data)%nat ->
  total (fun i => total (fun z => added data tol i step z j k) axes)
        (seq 0 (length data - step))
  = count_of (differ data tol (axis_column k) j (j + step))
    + count_of ((step <=? j)%nat && differ data tol (axis_column k) (j - step) j).
Proof.
  intros Hk Hj.
  rewrite (total_ext _ (fun i =>
             (if (i =? j)%nat
              then count_of (differ data tol (axis_column k) i (i + step)) else 0)
             + (if (i + step =? j)%nat
                then count_of (differ data tol (axis_column k) i (i + step)) else 0))).
  2:{ intros i _. rewrite (total_axes data tol i step j k Hk).
      destruct (differ data tol (axis_column k) i (i + step));
        destruct (i =? j)%nat, (i + step =? j)%nat; reflexivity. }
  rewrite total_plus, total_at, total_at_shift. f_equal.
  - destruct ((0 <=? j) && (j <? 0 + (length data - step)))%nat eqn:E; [reflexivity|].
    rewrite differ_out_of_range_r; [reflexivity|].
    apply andb_false_iff in E as [E|E].
    + apply Nat.leb_gt in E. lia.
    + apply Nat.ltb_ge in E. lia.
  - destruct (step <=? j)%nat eqn:E; cbn [andb]; [|reflexivity].
    apply Nat.leb_le in E.
    assert (H : (j - step <? length data - step)%nat = true) by (apply Nat.ltb_lt; lia).
    rewrite H. replace (j - step + step)%nat with j by lia. reflexivity.
Qed.

Lemma weight_of_zero (n j k : nat) :
  (j < n)%nat -> (k < 6)%nat ->
  weight_of (replicate n (replicate 6 0)) j k = Some 0.
Proof.
  intros Hj Hk. unfold weight_of.
  rewrite (lookup_replicate_2 n (replicate 6 0) j Hj). cbn.
  do 6 (destruct k as [|k]; [reflexivity|]). lia.
Qed.

Lemma calc_outliers_counts (data : list (list pyval)) (lag : Z) (tol : pynum)
    (w : list (list Z)) (i k : nat) :
  calc_outliers data lag tol = Ok w ->
  (i < length data)%nat -> (k < 6)%nat ->
  weight_of w i k = Some (differing data tol (Z.to_nat lag) k i).
Proof.
  intros H Hi Hk.
  rewrite (calc_outliers_added data lag tol w i k H).
  rewrite (weight_of_zero _ i k Hi Hk). cbn. f_equal.
  unfold differing. apply total_ext. intros step _.
  apply (total_pairs data tol step i k Hk Hi).
Qed.

Lemma shaped_bump (n : nat) (w : list (list Z)) (i c : nat) :
  shaped n w -> shaped n (bump w i c).
Proof.
  intros [Hl Hr]. split; [rewrite length_bump; exact Hl|].
  unfold bump. apply Forall_alter; [exact Hr|].
  intros row _ Hrow. rewrite length_alter. exact Hrow.
Qed.

Lemma loop_shaped {B} (body : outcome (list (list Z)) -> B -> outcome (list (list Z)))
    (n : nat) :
  (forall e x, body (Err e) x = Err e) ->
  (forall w x w', body (Ok w) x = Ok w' -> shaped n w -> shaped n w') ->
  forall (l : list B) (w w' : list (list Z)),
    foldl body (Ok w) l = Ok w' -> shaped n w -> shaped n w'.
Proof.
  intros Herr Hbody. induction l as [|x l IH]; intros w w' H Hs.
  - injection H as <-. exact Hs.
  - cbn [foldl] in H. destruct (body (Ok w) x) as [w1|e] eqn:E.
    + apply (IH w1 w' H). apply (Hbody w x w1 E Hs).
    + rewrite (loop_Err body Herr) in H. discriminate.
Qed.

Lemma calc_outliers_shaped (data : list (list pyval)) (lag : Z) (tol : pynum)
    (w : list (list Z)) :
  calc_outliers data lag tol = Ok w -> shaped (length data) w.
Proof.
  unfold calc_outliers. intros H.
  eapply (loop_shaped _ _ (lag_step_Err data tol)); [|exact H|].
  - intros w0 step w1. unfold lag_step.
    apply loop_shaped; [apply pair_step_Err|].
    intros w2 i w3. unfold pair_step. apply loop_shaped; [reflexivity|].
    intros w4 z w5 H45 Hs. apply axis_step_Ok in H45 as ->.
    destruct (differ data tol z i (i + step)); [|exact Hs].
    apply shaped_bump, shaped_bump, Hs.
  - split; [apply length_replicate|].
    apply Forall_replicate. reflexivity.
Qed.

(** Loops whose bodies all return. *)
Lemma loop_total {B} (body : outcome (list (list Z)) -> B -> outcome (list (list Z)))
    (l : list B) :
  (forall w x, x ∈ l -> exists w', body (Ok w) x = Ok w') ->
  forall w, exists w', foldl body (Ok w) l = Ok w'.
Proof.
  induction l as [|x l IH]; intros H w; [exists w; reflexivity|].
  cbn [foldl].
  destruct (H w x) as [w1 ->]; [apply elem_of_cons; left; reflexivity|].
  apply IH. intros w2 y Hy. apply H. apply elem_of_cons. right. exact Hy.
Qed.

(** Loops whose bodies raise nothing but [e0]. *)
Lemma loop_raises {B} (body : outcome (list (list Z)) -> B -> outcome (list (list Z)))
    (e0 : error) (l : list B) :
  (forall e x, body (Err e) x = Err e) ->
  (forall w x, x ∈ l -> is_ok (body (Ok w) x) = true \/ body (Ok w) x = Err e0) ->
  forall w, is_ok (foldl body (Ok w) l) = true \/ foldl body (Ok w) l = Err e0.
Proof.
  intros Herr. induction l as [|x l IH]; intros H w; [left; reflexivity|].
  cbn [foldl].
  destruct (H w x) as [Hok|He]; [apply elem_of_cons; left; reflexivity| |].
  - destruct (body (Ok w) x) as [w1|e]; [|discriminate].
    apply IH. intros w2 y Hy. apply H. apply elem_of_cons. right. exact Hy.
  - rewrite He. right. apply (loop_Err body Herr).
Qed.

Lemma elem_of_axes (z : nat) : z ∈ axes -> (z < 22)%nat.
Proof.
  unfold axes. intros H.
  repeat (apply elem_of_cons in H as [->|H]; [lia|]).
  apply elem_of_nil in H. contradiction.
Qed.

End OutlierFacts.

(** X7: the weight the outlier detector gives the axis [k] of the record
    [i] is the number of the records at most [lag] places after it or
    before it whose depth on that axis, present in both, differs from its
    own by more than the tolerance. *)
Theorem weights_count_differing_neighbours
    (data : list (list pyval)) (lag : Z) (tol : pynum) (w : list (list Z))
    (i k : nat) :
  Outliers.calc_outliers data lag tol = Ok w ->
  (i < length data)%nat -> (k < 6)%nat ->
  weight_of w i k = Some (differing data tol (Z.to_nat lag) k i).
Proof. apply OutlierFacts.calc_outliers_counts. Qed.

Lemma weights_count_differing_neighbours_witness :
  weight_of (weights_of (Outliers.calc_outliers axis_records 2 tolerance)) 1 0
  = Some (differing axis_records tolerance (Z.to_nat 2) 0 1).
Proof.
  apply (weights_count_differing_neighbours axis_records 2 tolerance).
  - vm_compute. reflexivity.
  - vm_compute. lia.
  - lia.
Defined.

(** X8: the weights have a row of six for every record, and no weight is
    below zero or above twice the lag: a record is compared with [lag]
    records on either side at most. *)
Theorem weights_shape_and_bound
    (data : list (list pyval)) (lag : Z) (tol : pynum) (w : list (list Z)) :
  Outliers.calc_outliers data lag tol = Ok w ->
  length w = length data
  /\ Forall (fun row : list Z =>
               length row = 6%nat
               /\ Forall (fun x : Z => 0 <= x <= 2 * Z.max 0 lag) row) w.
Proof.
  intros H. destruct (OutlierFacts.calc_outliers_shaped data lag tol w H) as [Hl Hr].
  split; [exact Hl|].
  apply Forall_lookup. intros i row Hi.
  split; [rewrite Forall_lookup in Hr; apply (Hr i row Hi)|].
  apply Forall_lookup. intros k x Hk.
  assert (Hi' : (i < length data)%nat) by (rewrite <- Hl; apply (lookup_lt_Some _ _ _ Hi)).
  assert (Hk' : (k < 6)%nat).
  { rewrite Forall_lookup in Hr. rewrite <- (Hr i row Hi). apply (lookup_lt_Some _ _ _ Hk). }
  pose proof (OutlierFacts.calc_outliers_counts data lag tol w i k H Hi' Hk') as Hc.
  unfold weight_of in Hc. rewrite Hi in Hc. cbn in Hc. rewrite Hk in Hc.
  injection Hc as ->. unfold differing.
  match goal with
  | |- 0 <= total ?f ?l <= _ =>
      pose proof (OutlierFacts.total_nonneg f l 2) as Hb
  end.
  rewrite length_seq in Hb.
  assert (Hlag : Z.of_nat (Z.to_nat lag) = Z.max 0 lag) by lia.
  cbv beta in Hb. rewrite Hlag in Hb. apply Hb.
  intros s. unfold count_of.
  destruct (differ _ _ _ _ _), (_ && _); lia.
Qed.

Lemma weights_shape_and_bound_witness :
  length (weights_of (Outliers.calc_outliers axis_records 2 tolerance))
  = length axis_records
  /\ Forall (fun row : list Z =>
               length row = 6%nat
               /\ Forall (fun x : Z => 0 <= x <= 2 * Z.max 0 2) row)
            (weights_of (Outliers.calc_outliers axis_records 2 tolerance)).
Proof.
  apply (weights_shape_and_bound axis_records 2 tolerance).
  vm_compute. reflexivity.
Defined.

(** X9: on records of 22 cells at least whose six depth columns hold
    nothing but absent values and floats the outlier detector returns its
    weights, whatever the lag and the tolerance. *)
Theorem measured_records_have_weights
    (data : list (list pyval)) (lag : Z) (tol : pynum) :
  Forall measured_record data ->
  exists w : list (list Z), Outliers.calc_outliers data lag tol = Ok w.
Proof.
  intros Hd. unfold Outliers.calc_outliers.
  apply OutlierFacts.loop_total. intros w0 step _. unfold Outliers.lag_step.
  apply OutlierFacts.loop_total. intros w1 i Hi. unfold Outliers.pair_step.
  apply OutlierFacts.loop_total. intros w2 z Hz.
  apply elem_of_seq in Hi.
  assert (Hcell : forall j, (j < length data)%nat ->
            exists v, cell_at data j z = Some v
                      /\ (v = PNone \/ exists f, v = PNum (PFloat f))).
  { intros j Hj. destruct (lookup_lt_is_Some_2 data j Hj) as [r Hr].
    rewrite Forall_lookup in Hd. destruct (Hd j r Hr) as [Hlen Hax].
    pose proof (OutlierFacts.elem_of_axes z Hz) as Hz22.
    destruct (lookup_lt_is_Some_2 r z ltac:(lia)) as [v Hv].
    exists v. split; [unfold cell_at; rewrite Hr; exact Hv|].
    apply (Hax z v Hz Hv). }
  destruct (Hcell i ltac:(lia)) as (a & Ha & Hta).
  destruct (Hcell (i + step)%nat ltac:(lia)) as (b & Hb & Htb).
  cbn beta. change (Ok w2 ≫= _) with (Outliers.axis_step data tol i step w2 z).
  rewrite (axis_step_differ data tol i step z w2 a b Ha Hb Hta Htb). eauto.
Qed.

Lemma measured_records_have_weights_witness :
  exists w : list (list Z), Outliers.calc_outliers depth_pair 1 tolerance = Ok w.
Proof.
  apply (measured_records_have_weights depth_pair 1 tolerance).
  repeat (apply Forall_cons; split); try apply Forall_nil_2.
  all: split; [cbn; lia|].
  all: intros z v Hz Hv; unfold Outliers.axes in Hz.
  all: repeat (apply elem_of_cons in Hz as [->|Hz]);
         [..|apply elem_of_nil in Hz; contradiction].
  all: cbn in Hv; injection Hv as <-.
  all: first [left; reflexivity | right; eexists; reflexivity].
Defined.

(** ** The shift detector *)

Module WindowFacts.
Import Shift ShiftFacts.

Lemma scan_prg_zero (prg : list string) : scan_prg 0 None [] prg = Ok [].
Proof.
  destruct prg as [|line rest]; [reflexivity|]. cbn [scan_prg].
  destruct (tool_line line); [reflexivity|].
  destruct (pos_line line) as [[x y]|]; reflexivity.
Qed.

Lemma positions_cons (r : list pyval) (data : list (list pyval)) :
  positions (r :: data)
  = match record_pos r with
    | Ok p => p :: positions data
    | Err _ => positions data
    end.
Proof. unfold positions. simpl. destruct (record_pos r); reflexivity. Qed.

Lemma scan_data_windows (sample : Z) (prg_pos : list (Z * Z))
    (data : list (list pyval)) : forall dp : list (Z * Z),
  scan_data sample prg_pos dp data
  = first_shift prg_pos (windows sample dp (positions data)).
Proof.
  induction data as [|r data IH]; intros dp; [reflexivity|].
  cbn [scan_data]. rewrite positions_cons.
  destruct (record_pos r) as [q|e]; [|apply IH].
  cbn [windows first_shift].
  destruct (judgeShift (slide sample dp q) prg_pos) as [[| |dx dy]|e];
    cbn; try reflexivity; apply IH.
Qed.

Lemma judgeShift_length (d p : list (Z * Z)) :
  length d <> length p -> judgeShift d p = Ok VFalse.
Proof.
  intros H. unfold judgeShift.
  apply Nat.eqb_neq in H. rewrite H. reflexivity.
Qed.

Lemma length_slide (sample : Z) (dp : list (Z * Z)) (q : Z * Z) :
  length (slide sample dp q)
  = if sample <? Z.of_nat (length dp) + 1 then length dp else S (length dp).
Proof.
  unfold slide. rewrite length_app. cbn [length].
  replace (Z.of_nat (length dp + 1)) with (Z.of_nat (length dp) + 1) by lia.
  destruct (sample <? Z.of_nat (length dp) + 1).
  - destruct dp as [|a dp]; cbn; [reflexivity|]. rewrite length_app. cbn. lia.
  - rewrite length_app. cbn. lia.
Qed.

(** Windows longer than the program sample are all turned down. *)
Lemma first_shift_longer (sample : Z) (prg_pos : list (Z * Z)) (ps : list (Z * Z)) :
  Z.of_nat (length prg_pos) < sample ->
  forall dp : list (Z * Z),
    (length prg_pos <= length dp)%nat ->
    first_shift prg_pos (windows sample dp ps) = Ok None.
Proof.
  intros Hk. induction ps as [|q ps IH]; intros dp Hd; [reflexivity|].
  cbn [windows first_shift].
  pose proof (length_slide sample dp q) as Hl.
  assert (Hlong : (length prg_pos < length (slide sample dp q))%nat).
  { rewrite Hl. destruct (sample <? Z.of_nat (length dp) + 1) eqn:E; [|lia].
    apply Z.ltb_lt in E. lia. }
  rewrite judgeShift_length by lia. cbn.
  apply IH. lia.
Qed.

(** Below the length of the program sample the windows grow by one
    position each; the one that reaches its length is the only one
    judged. *)
Lemma first_shift_short (sample : Z) (prg_pos : list (Z * Z)) (ps : list (Z * Z)) :
  Z.of_nat (length prg_pos) < sample ->
  forall dp : list (Z * Z),
    (length dp < length prg_pos)%nat ->
    first_shift prg_pos (windows sample dp ps)
    = shift_of (judgeShift (dp ++ take (length prg_pos - length dp) ps) prg_pos).
Proof.
  intros Hk. induction ps as [|q ps IH]; intros dp Hd.
  - cbn [windows first_shift]. rewrite take_nil, app_nil_r.
    rewrite judgeShift_length by lia. reflexivity.
  - cbn [windows first_shift].
    assert (Hs : slide sample dp q = dp ++ [q]).
    { unfold slide. rewrite length_app. cbn [length].
      destruct (sample <? Z.of_nat (length dp + 1)) eqn:E; [|reflexivity].
      apply Z.ltb_lt in E. lia. }
    rewrite Hs.
    destruct (decide (S (length dp) = length prg_pos)) as [He|Hne].
    + replace (length prg_pos - length dp)%nat with 1%nat by lia.
      cbn [take]. rewrite take_0.
      rewrite (first_shift_longer sample prg_pos ps Hk (dp ++ [q]))
        by (rewrite length_app; cbn; lia).
      destruct (judgeShift (dp ++ [q]) prg_pos) as [[| |dx dy]|e]; reflexivity.
    + rewrite judgeShift_length by (rewrite length_app; cbn; lia). cbn.
      rewrite (IH (dp ++ [q])) by (rewrite length_app; cbn; lia).
      rewrite length_app. cbn [length].
      replace (length prg_pos - length dp)%nat
        with (S (length prg_pos - (length dp + 1)))%nat by lia.
      cbn [take]. rewrite <- app_assoc. reflexivity.
Qed.

Lemma judgeShift_empty : judgeShift [] [] = Err PyTypeError.
Proof. reflexivity. Qed.

Lemma first_shift_zero (ps : list (Z * Z)) :
  ps <> [] -> forall dp, dp = [] -> first_shift [] (windows 0 dp ps) = Err PyTypeError.
Proof.
  destruct ps as [|q ps]; [contradiction|]. intros _ dp ->. reflexivity.
Qed.

Lemma positions_nil (data : list (list pyval)) :
  positions data = [] <-> Forall (fun r => has_position r = false) data.
Proof.
  induction data as [|r data IH].
  - split; [constructor|reflexivity].
  - rewrite positions_cons. unfold has_position in *.
    destruct (record_pos r) as [q|e] eqn:E.
    + split; [discriminate|]. intros H. apply Forall_cons in H as [H _].
      rewrite E in H. discriminate.
    + rewrite IH. rewrite Forall_cons, E. cbn. split; [intros H; split; [reflexivity|exact H]|].
      intros [_ H]. exact H.
Qed.

End WindowFacts.

(** X11: with [sample=0] the program sample is empty and so is every
    window: [judgeShift] then divides [None] by 1000, and [calc_shift]
    raises a [TypeError] as soon as one record has a position; when none
    has, it returns [None]. *)
Theorem zero_sample_raises (prg : list string) (data : list (list pyval)) :
  (Exists (fun r => has_position r = true) data ->
   Shift.calc_shift prg data 0 = Err PyTypeError)
  /\ (Forall (fun r => has_position r = false) data ->
      Shift.calc_shift prg data 0 = Ok None).
Proof.
  unfold Shift.calc_shift. rewrite WindowFacts.scan_prg_zero.
  change (Ok [] ≫= _) with (Shift.scan_data 0 [] [] data).
  rewrite WindowFacts.scan_data_windows. split; intros H.
  - apply WindowFacts.first_shift_zero; [|reflexivity].
    intros Hn. apply WindowFacts.positions_nil in Hn.
    apply Exists_exists in H as (r & Hr & Ht).
    rewrite Forall_forall in Hn. rewrite (Hn r Hr) in Ht. discriminate.
  - apply WindowFacts.positions_nil in H. rewrite H. reflexivity.
Qed.

Lemma zero_sample_raises_witness :
  Shift.calc_shift shift_program [shift_record] 0 = Err PyTypeError.
Proof.
  apply (zero_sample_raises shift_program [shift_record]).
  apply Exists_cons_hd. vm_compute. reflexivity.
Defined.

(** X12: a program without a tool line of the tools T2..T9 gives no
    sample, and the detector then finds no shift, whatever the records
    are. *)
Theorem no_sampled_tool_no_shift
    (prg : list string) (data : list (list pyval)) (sample : Z) :
  0 < sample ->
  Forall (fun line => Shift.tool_line line = false) prg ->
  Shift.scan_prg sample None [] prg = Ok []
  /\ Shift.calc_shift prg data sample = Ok None.
Proof.
  intros Hs Hp.
  assert (Hscan : Shift.scan_prg sample None [] prg = Ok []).
  { rewrite <- (app_nil_r prg).
    rewrite (scan_prg_skip sample prg [] ltac:(lia) Hp). reflexivity. }
  split; [exact Hscan|].
  unfold Shift.calc_shift. rewrite Hscan.
  change (Ok [] ≫= _) with (Shift.scan_data sample [] [] data).
  apply ShiftFacts.scan_data_None. intros w Hw. left.
  apply WindowFacts.judgeShift_length.
  pose proof (ShiftFacts.windows_nonempty sample (positions data) Hs [] w Hw) as Hne.
  destruct w; [contradiction|discriminate].
Qed.

Lemma no_sampled_tool_no_shift_witness :
  Shift.scan_prg 10 None [] program_T10 = Ok []
  /\ Shift.calc_shift program_T10 [shift_record] 10 = Ok None.
Proof.
  apply (no_sampled_tool_no_shift program_T10 [shift_record] 10).
  - lia.
  - repeat constructor.
Defined.

(** X13: when the program gives fewer positions than [sample], the only
    window that has their number is the one of the first positions of the
    records: the detector returns what [judgeShift] says of this one
    window, and a log that starts with one record more than the program
    is never matched. *)
Theorem short_sample_judges_first_window
    (prg : list string) (data : list (list pyval)) (sample : Z)
    (prg_pos : list (Z * Z)) :
  Shift.scan_prg sample None [] prg = Ok prg_pos ->
  (0 < length prg_pos)%nat -> Z.of_nat (length prg_pos) < sample ->
  Shift.calc_shift prg data sample
  = shift_of (Shift.judgeShift (take (length prg_pos) (positions data)) prg_pos).
Proof.
  intros Hscan Hpos Hk. unfold Shift.calc_shift. rewrite Hscan.
  change (Ok prg_pos ≫= _) with (Shift.scan_data sample prg_pos [] data).
  rewrite WindowFacts.scan_data_windows.
  rewrite (WindowFacts.first_shift_short sample prg_pos (positions data) Hk [])
    by (cbn; lia).
  cbn [app length]. rewrite Nat.sub_0_r. reflexivity.
Qed.

Lemma short_sample_judges_first_window_witness :
  Shift.calc_shift shift_program [shift_record] 10
  = shift_of (Shift.judgeShift (take (length [(2000, 3000)]) (positions [shift_record]))
                [(2000, 3000)]).
Proof.
  apply (short_sample_judges_first_window shift_program [shift_record] 10 [(2000, 3000)]).
  - vm_compute. reflexivity.
  - cbn. lia.
  - cbn. lia.
Defined.

(** ** The drill program *)

Module PrgFacts.
Import Prg.

(** A program that has been read is its three maps. *)
Lemma loaded_maps_eq
    (r : outcome (gmap string string * gmap (list Byte.byte) string * gmap string string)) :
  is_ok r = true -> r = Ok (loaded_sizes r, loaded_tools r, loaded_depths r).
Proof. destruct r as [[[a b] c]|e]; [reflexivity|discriminate]. Qed.

Lemma tool_size_line_tool (line t : string) :
  tool_size_line line = Some t -> tool_line t = true.
Proof.
  unfold tool_size_line.
  destruct line as [|c [|d r]]; try discriminate.
  destruct (Ascii.eqb c "T" && Text.is_digit d) eqn:E; [|discriminate].
  apply andb_true_iff in E as [Ec Ed].
  destruct r as [|d' r']; [discriminate|].
  destruct (Text.is_digit d' && size_tail r') eqn:E'.
  - apply andb_true_iff in E' as [Ed' _]. intros [= <-].
    cbn. rewrite Ec, Ed, Ed'. reflexivity.
  - destruct (size_tail (String d' r')); [|discriminate]. intros [= <-].
    cbn. rewrite Ec, Ed. reflexivity.
Qed.

Lemma state_ok_init : state_ok init.
Proof.
  split; [discriminate|].
  split; [|split]; intros a b Hk; cbn in Hk; rewrite lookup_empty in Hk; discriminate.
Qed.

Lemma packPos_length (x y : pyval) (k : list Byte.byte) :
  packPos x y = Ok k -> length k = 8%nat.
Proof.
  intros H. apply packPos_Ok_grid in H as (zx & zy & _ & _ & H).
  apply StructFacts.pack_ii_Ok in H as (_ & _ & ->).
  rewrite length_app, !StructFacts.le32_length. reflexivity.
Qed.

Lemma state_ok_step (st st' : state) (line : string) :
  state_ok st -> line_step st line = Ok st' -> state_ok st'.
Proof.
  intros Hok. pose proof Hok as (Hcur & Htools & Hm18 & Hsize). unfold line_step.
  destruct (String.eqb (Text.strip line) "") eqn:Ee.
  { intros [= <-]. exact Hok. }
  destruct (Shift.pos_line (Text.strip line)) as [[x y]|] eqn:Ep.
  - intros H. apply bind_Ok in H as (pos & Hpos & H).
    destruct (curTool st) as [t|] eqn:Ec; injection H as <-; [|exact Hok].
    split; [exact Hcur|]. split; [|split; assumption]. cbn.
    intros key t' Hk. apply lookup_insert_Some in Hk as [[<- <-]|[_ Hk]].
    + split; [apply (packPos_length _ _ _ Hpos)|apply Hcur; reflexivity].
    + apply (Htools key t' Hk).
  - destruct (tool_size_line (Text.strip line)) as [t|] eqn:Es.
    + intros [= <-]. split; [exact Hcur|]. split; [exact Htools|].
      split; [exact Hm18|]. cbn.
      intros t' line' Hk. apply lookup_insert_Some in Hk as [[<- <-]|[_ Hk]].
      * split; [apply (tool_size_line_tool _ _ Es)|exact Es].
      * apply (Hsize t' line' Hk).
    + destruct (tool_line (Text.strip line)) eqn:Et.
      * intros [= <-]. split; [|split; [exact Htools|split; assumption]].
        cbn. intros t [= <-]. exact Et.
      * destruct (m18_line (Text.strip line)) eqn:Em; [|intros [= <-]; exact Hok].
        destruct (curTool st) as [t|] eqn:Ec; intros [= <-]; [|exact Hok].
        split; [exact Hcur|]. split; [exact Htools|]. split; [|exact Hsize].
        cbn. intros t' line' Hk.
        apply lookup_insert_Some in Hk as [[<- <-]|[_ Hk]].
        -- split; [apply Hcur; reflexivity|exact Em].
        -- apply (Hm18 t' line' Hk).
Qed.

Lemma state_ok_lines (prg : list string) : forall st st' : state,
  state_ok st -> lines_step st prg = Ok st' -> state_ok st'.
Proof.
  unfold lines_step. induction prg as [|line prg IH]; intros st st' Hok H.
  - injection H as <-. exact Hok.
  - apply LoadFacts.foldl_Ok_cons in H as (st1 & H1 & H).
    apply (IH st1 st' (state_ok_step st st1 line Hok H1) H).
Qed.

(** Without a tool line no tool is selected, and nothing is recorded
    under a tool. *)
Lemma untooled_step (st st' : state) (line : string) :
  tool_line (Text.strip line) = false ->
  st.(curTool) = None -> line_step st line = Ok st' ->
  st'.(curTool) = None /\ st'.(tools) = st.(tools) /\ st'.(m18) = st.(m18).
Proof.
  intros Ht Hc. unfold line_step. rewrite Ht, Hc.
  destruct (String.eqb (Text.strip line) ""); [intros [= <-]; auto|].
  destruct (Shift.pos_line (Text.strip line)) as [[x y]|].
  - intros H. apply bind_Ok in H as (pos & _ & [= <-]). auto.
  - destruct (tool_size_line (Text.strip line)); [intros [= <-]; auto|].
    destruct (m18_line (Text.strip line)); intros [= <-]; auto.
Qed.

Lemma untooled_lines (prg : list string) : forall st st' : state,
  Forall (fun line => tool_line (Text.strip line) = false) prg ->
  st.(curTool) = None -> lines_step st prg = Ok st' ->
  st'.(tools) = st.(tools) /\ st'.(m18) = st.(m18).
Proof.
  unfold lines_step. induction prg as [|line prg IH]; intros st st' Hp Hc H.
  - injection H as <-. auto.
  - apply Forall_cons in Hp as [Hl Hp].
    apply LoadFacts.foldl_Ok_cons in H as (st1 & H1 & H).
    destruct (untooled_step st st1 line Hl Hc H1) as (Hc1 & Ht1 & Hm1).
    destruct (IH st1 st' Hp Hc1 H) as [Ht Hm]. split; congruence.
Qed.

End PrgFacts.

(** X14: the maps of a program that [loadPrgData] has read hold nothing
    but what the patterns let through: every position is a key of eight
    bytes under a tool [T] with one or two digits, every depth is a line
    of [m18Pattern] under such a tool, and every size is a line of
    [toolSizePattern] under the tool it names. *)
Theorem program_maps_well_formed
    (prg : list string) (tool_size : gmap string string)
    (tools : gmap (list Byte.byte) string) (m18 : gmap string string) :
  Prg.loadPrgData prg = Ok (tool_size, tools, m18) ->
  program_maps_ok tool_size tools m18.
Proof.
  unfold Prg.loadPrgData. intros H.
  apply bind_Ok in H as (st & Hst & [= <- <- <-]).
  apply (PrgFacts.state_ok_lines prg Prg.init st PrgFacts.state_ok_init Hst).
Qed.

Lemma program_maps_well_formed_witness :
  program_maps_ok (loaded_sizes (Prg.loadPrgData drill_program))
    (loaded_tools (Prg.loadPrgData drill_program))
    (loaded_depths (Prg.loadPrgData drill_program)).
Proof.
  apply (program_maps_well_formed drill_program).
  apply PrgFacts.loaded_maps_eq. vm_compute. reflexivity.
Defined.

(** X15: a program in which no line is a tool line [T] with one or two
    digits gives, when it can be read, no position and no depth: the
    window then turns the file down as not recognised. *)
Theorem program_without_tool_is_empty
    (prg : list string) (tool_size : gmap string string)
    (tools : gmap (list Byte.byte) string) (m18 : gmap string string) :
  Forall (fun line => Prg.tool_line (Text.strip line) = false) prg ->
  Prg.loadPrgData prg = Ok (tool_size, tools, m18) ->
  tools = ∅ /\ m18 = ∅.
Proof.
  unfold Prg.loadPrgData. intros Hp H.
  apply bind_Ok in H as (st & Hst & [= <- <- <-]).
  apply (PrgFacts.untooled_lines prg Prg.init st Hp eq_refl Hst).
Qed.

Lemma program_without_tool_is_empty_witness :
  loaded_tools (Prg.loadPrgData ["M48" ++ newline; "X001Y002" ++ newline]%string) = ∅
  /\ loaded_depths (Prg.loadPrgData ["M48" ++ newline; "X001Y002" ++ newline]%string) = ∅.
Proof.
  apply (program_without_tool_is_empty
           ["M48" ++ newline; "X001Y002" ++ newline]%string
           (loaded_sizes (Prg.loadPrgData ["M48" ++ newline; "X001Y002" ++ newline]%string))).
  - repeat constructor.
  - apply PrgFacts.loaded_maps_eq. vm_compute. reflexivity.
Defined.

Module DetectorFacts.
Import Outliers.

(** On stored records the body of the loop over the axes returns, or
    raises the [TypeError] of a text in a depth column. *)
Lemma axis_step_stored (data : list (list pyval)) (tol : pynum) (i step z : nat)
    (w : list (list Z)) :
  Forall stored_record data ->
  (i + step < length data)%nat -> z ∈ axes ->
  is_ok (axis_step data tol i step w z) = true
  \/ axis_step data tol i step w z = Err PyTypeError.
Proof.
  intros Hd Hi Hz. pose proof (OutlierFacts.elem_of_axes z Hz) as Hz22.
  assert (Hz6 : (5 <= z)%nat).
  { unfold axes in Hz. repeat (apply elem_of_cons in Hz as [->|Hz]; [lia|]).
    apply elem_of_nil in Hz. contradiction. }
  assert (Hcell : forall j, (j < length data)%nat ->
            exists r v, data !! j = Some r /\ r !! z = Some v
                        /\ (forall n, v = PNum n -> exists f, n = PFloat f)).
  { intros j Hj. destruct (lookup_lt_is_Some_2 data j Hj) as [r Hr].
    rewrite Forall_lookup in Hd. destruct (Hd j r Hr) as (Hlen & _ & _ & Hdep).
    destruct (lookup_lt_is_Some_2 r z ltac:(lia)) as [v Hv].
    exists r, v. split; [exact Hr|]. split; [exact Hv|].
    intros n ->. apply (Hdep z n Hz6 Hv). }
  destruct (Hcell i ltac:(lia)) as (ri & a & Hri & Ha & Hna).
  destruct (Hcell (i + step)%nat Hi) as (rj & b & Hrj & Hb & Hnb).
  unfold axis_step, Cell.item. rewrite Hri. cbn. rewrite Ha. cbn.
  destruct (Cell.truthy a); [|left; reflexivity].
  rewrite Hrj. cbn. rewrite Hb. cbn.
  destruct (Cell.truthy b); [|left; reflexivity].
  destruct a as [|x|s]; [right; reflexivity| |right; reflexivity].
  destruct b as [|y|s]; [right; reflexivity| |right; reflexivity].
  destruct (Hna x eq_refl) as [f ->]. destruct (Hnb y eq_refl) as [g ->].
  cbn. destruct (Num.gtb _ tol); left; reflexivity.
Qed.

End DetectorFacts.

(** X10: on the records of a load the outlier detector reads no cell that
    is not there and subtracts no int: it returns its weights, or raises
    the [TypeError] of a text met in a depth column. *)
Theorem stored_records_raise_type_error_only
    (data : list (list pyval)) (lag : Z) (tol : pynum) :
  Forall stored_record data ->
  is_ok (Outliers.calc_outliers data lag tol) = true
  \/ Outliers.calc_outliers data lag tol = Err PyTypeError.
Proof.
  intros Hd. unfold Outliers.calc_outliers.
  apply OutlierFacts.loop_raises; [apply OutlierFacts.lag_step_Err|].
  intros w0 step _. unfold Outliers.lag_step.
  apply OutlierFacts.loop_raises; [apply OutlierFacts.pair_step_Err|].
  intros w1 i Hi. apply elem_of_seq in Hi. unfold Outliers.pair_step.
  apply OutlierFacts.loop_raises; [reflexivity|].
  intros w2 z Hz.
  change (Ok w2 ≫= _) with (Outliers.axis_step data tol i step w2 z).
  apply DetectorFacts.axis_step_stored; [exact Hd|lia|exact Hz].
Qed.

Lemma stored_records_raise_type_error_only_witness :
  is_ok (Outliers.calc_outliers axis_records 2 tolerance) = true
  \/ Outliers.calc_outliers axis_records 2 tolerance = Err PyTypeError.
Proof.
  apply (stored_records_raise_type_error_only axis_records 2 tolerance).
  unfold axis_records.
  set (r := Log.loadBackDrillData (one_file "pos0102.dat" axis_log)
              ["pos0102.dat"%string]).
  destruct (LoadFacts.loaded_reachable (one_file "pos0102.dat" axis_log)
              ["pos0102.dat"%string] (loaded_records r) (loaded_bounds r))
    as (st & Hr & <- & _).
  - apply (LoadFacts.loaded_eq r). vm_compute. reflexivity.
  - apply LoadFacts.reachable_stored, Hr.
Defined.

(** ** Lines of the program *)

Module LineFacts.
Import Shift.
Local Open Scope string_scope.

Lemma append_cons (c : ascii) (a b : string) : String c a ++ b = String c (a ++ b).
Proof. reflexivity. Qed.

Lemma append_nil_l (b : string) : "" ++ b = b.
Proof. reflexivity. Qed.

Lemma append_assoc (a b c : string) : (a ++ b) ++ c = a ++ (b ++ c).
Proof.
  induction a as [|x a IH]; [reflexivity|].
  rewrite !append_cons, IH. reflexivity.
Qed.

Lemma append_nil_r (a : string) : a ++ "" = a.
Proof.
  induction a as [|x a IH]; [reflexivity|]. rewrite append_cons, IH. reflexivity.
Qed.

Lemma every_app (p : ascii -> bool) (a b : string) :
  every p (a ++ b) = every p a && every p b.
Proof.
  induction a as [|x a IH]; [reflexivity|].
  rewrite append_cons. cbn [every]. rewrite IH. apply andb_assoc.
Qed.

Lemma every_impl (p q : ascii -> bool) (s : string) :
  (forall c, p c = true -> q c = true) -> every p s = true -> every q s = true.
Proof.
  intros H. induction s as [|c s IH]; [reflexivity|]. cbn.
  intros E. apply andb_true_iff in E as [E1 E2].
  rewrite (H c E1), (IH E2). reflexivity.
Qed.

Lemma digit_not_space (c : ascii) : Text.is_digit c = true -> Text.is_space c = false.
Proof.
  unfold Text.is_digit, Text.is_space. intros H.
  apply andb_true_iff in H as [H1 H2]. apply Nat.leb_le in H1, H2.
  apply orb_false_iff. split; apply andb_false_iff.
  - right. apply Nat.leb_gt. lia.
  - right. apply Nat.leb_gt. lia.
Qed.

(** [span_digits] splits the digits at the head of a text from the rest. *)
Lemma span_digits_spec (s : string) : forall d r : string,
  span_digits s = (d, r) ->
  s = d ++ r /\ every Text.is_digit d = true /\ Prg.starts_digit r = false.
Proof.
  induction s as [|c s IH]; intros d r H; cbn in H.
  - injection H as <- <-. auto.
  - destruct (Text.is_digit c) eqn:E.
    + destruct (span_digits s) as [d' r'] eqn:Es. injection H as <- <-.
      destruct (IH d' r' eq_refl) as (-> & Hd & Hr).
      rewrite append_cons. cbn [every]. rewrite E, Hd. auto.
    + injection H as <- <-. rewrite append_nil_l. cbn [every Prg.starts_digit].
      rewrite E. auto.
Qed.

Lemma span_digits_app (d r : string) :
  every Text.is_digit d = true -> Prg.starts_digit r = false ->
  span_digits (d ++ r) = (d, r).
Proof.
  intros Hd Hr. induction d as [|c d IH].
  - rewrite append_nil_l.
    destruct r as [|c r]; [reflexivity|]. cbn in Hr |- *. rewrite Hr. reflexivity.
  - cbn [every] in Hd. apply andb_true_iff in Hd as [Hc Hd].
    rewrite append_cons. cbn [span_digits]. rewrite Hc, (IH Hd). reflexivity.
Qed.

Lemma span_number_spec (s x r : string) :
  span_number s = (x, r) ->
  s = x ++ r /\ number_text x = true /\ Prg.starts_digit r = false.
Proof.
  unfold span_number.
  assert (Hplain : span_digits s = (x, r) ->
                   (forall t, s <> String "-" t) ->
                   s = x ++ r /\ number_text x = true /\ Prg.starts_digit r = false).
  { intros H Hm. destruct (span_digits_spec s x r H) as (-> & Hd & Hr).
    split; [reflexivity|]. split; [|exact Hr].
    unfold number_text. destruct x as [|c t]; [reflexivity|].
    destruct (Ascii.eqb c "-") eqn:E; [|exact Hd].
    apply Ascii.eqb_eq in E. subst c. cbn in Hd. discriminate. }
  destruct s as [|c t]; [intros H; apply Hplain; [exact H|discriminate]|].
  destruct (Ascii.eqb c "-") eqn:E.
  - apply Ascii.eqb_eq in E. subst c.
    destruct (span_digits t) as [d r'] eqn:Es. intros [= <- <-].
    destruct (span_digits_spec t d r' Es) as (-> & Hd & Hr).
    split; [reflexivity|]. split; [|exact Hr]. exact Hd.
  - assert (Hc : c <> "-"%char) by (apply Ascii.eqb_neq, E).
    destruct c as [[] [] [] [] [] [] [] []];
      try (exfalso; apply Hc; reflexivity);
      (intros H; apply Hplain; [exact H|intros t' [= ]]).
Qed.

Lemma span_number_app (x r : string) :
  number_text x = true -> Prg.starts_digit r = false ->
  (forall t, x = "" -> r <> String "-" t) ->
  span_number (x ++ r) = (x, r).
Proof.
  intros Hx Hr Hm. unfold number_text in Hx.
  destruct x as [|c t].
  - rewrite append_nil_l. unfold span_number.
    assert (Hs : span_digits r = ("", r)) by apply (span_digits_app "" r eq_refl Hr).
    destruct r as [|c r']; [exact Hs|].
    destruct (Ascii.eqb c "-") eqn:E.
    + apply Ascii.eqb_eq in E. subst c. exfalso. apply (Hm r' eq_refl). reflexivity.
    + assert (Hc : c <> "-"%char) by (apply Ascii.eqb_neq, E).
      destruct c as [[] [] [] [] [] [] [] []];
        try (exfalso; apply Hc; reflexivity); exact Hs.
  - destruct (Ascii.eqb c "-") eqn:E.
    + apply Ascii.eqb_eq in E. subst c. rewrite append_cons. unfold span_number.
      rewrite (span_digits_app t r Hx Hr). reflexivity.
    + assert (Hc : c <> "-"%char) by (apply Ascii.eqb_neq, E).
      pose proof (span_digits_app (String c t) r Hx Hr) as Hs.
      rewrite append_cons in Hs |- *. unfold span_number.
      destruct c as [[] [] [] [] [] [] [] []];
        try (exfalso; apply Hc; reflexivity); exact Hs.
Qed.

Lemma at_end_line_end (e : string) : Log.at_end e = true <-> line_end e.
Proof.
  unfold Log.at_end, line_end, newline. split.
  - destruct e as [|c [|d e]]; [auto| |discriminate].
    intros E. apply Ascii.eqb_eq in E. subst c. auto.
  - intros [->| ->]; reflexivity.
Qed.

(** The lines of [posPattern]. *)
Lemma pos_line_spec (line x y : string) :
  pos_line line = Some (x, y) <->
  exists e : string,
    line = "X" ++ x ++ "Y" ++ y ++ e
    /\ number_text x = true /\ number_text y = true /\ line_end e.
Proof.
  split.
  - unfold pos_line. destruct line as [|c t]; [discriminate|].
    destruct (Ascii.eqb c "X") eqn:Ec.
    2:{ destruct c as [[] [] [] [] [] [] [] []]; discriminate. }
    apply Ascii.eqb_eq in Ec. subst c.
    destruct (span_number t) as [x' r] eqn:Ex.
    destruct (span_number_spec t x' r Ex) as (-> & Hx & _).
    destruct r as [|c t']; [discriminate|].
    destruct (Ascii.eqb c "Y") eqn:Ec.
    2:{ destruct c as [[] [] [] [] [] [] [] []]; discriminate. }
    apply Ascii.eqb_eq in Ec. subst c.
    destruct (span_number t') as [y' r'] eqn:Ey.
    destruct (span_number_spec t' y' r' Ey) as (-> & Hy & _).
    destruct (Log.at_end r') eqn:Ee; [|discriminate].
    intros [= <- <-]. exists r'. split; [reflexivity|].
    split; [exact Hx|]. split; [exact Hy|]. apply at_end_line_end, Ee.
  - intros (e & -> & Hx & Hy & He).
    change ("X" ++ x ++ "Y" ++ y ++ e) with (String "X" (x ++ String "Y" (y ++ e))).
    unfold pos_line.
    rewrite (span_number_app x (String "Y" (y ++ e)) Hx eq_refl)
      by (intros t _; discriminate).
    assert (Hse : Prg.starts_digit e = false) by (destruct He as [->| ->]; reflexivity).
    rewrite (span_number_app y e Hy Hse)
      by (intros t _; destruct He as [->| ->]; discriminate).
    apply at_end_line_end in He. rewrite He. reflexivity.
Qed.

(** Stripping a text without blanks that ends, or not, with a line end. *)
Lemma rstrip_no_space (s : string) :
  every (fun c => negb (Text.is_space c)) s = true ->
  Text.rstrip_by Text.is_space s = s.
Proof.
  induction s as [|c s IH]; [reflexivity|]. cbn.
  intros E. apply andb_true_iff in E as [Ec Es]. rewrite (IH Es).
  destruct s; [|reflexivity].
  apply negb_true_iff in Ec. rewrite Ec. reflexivity.
Qed.

Lemma rstrip_line_end (s e : string) :
  every (fun c => negb (Text.is_space c)) s = true -> line_end e ->
  Text.rstrip_by Text.is_space (s ++ e) = s.
Proof.
  intros Hs [->| ->].
  - rewrite append_nil_r. apply rstrip_no_space, Hs.
  - induction s as [|c s IH]; [reflexivity|].
    cbn [every] in Hs. apply andb_true_iff in Hs as [Hc Hs].
    rewrite append_cons. cbn [Text.rstrip_by]. rewrite (IH Hs).
    destruct s; [|reflexivity].
    apply negb_true_iff in Hc. rewrite Hc. reflexivity.
Qed.

Lemma strip_line_end (s e : string) :
  every (fun c => negb (Text.is_space c)) s = true -> line_end e -> s <> "" ->
  Text.strip (s ++ e) = s.
Proof.
  intros Hs He Hne. unfold Text.strip.
  destruct s as [|c s]; [contradiction|].
  pose proof Hs as Hs'. cbn [every] in Hs'. apply andb_true_iff in Hs' as [Hc _].
  apply negb_true_iff in Hc.
  rewrite append_cons. cbn [Text.lstrip]. rewrite Hc. rewrite <- append_cons.
  apply (rstrip_line_end (String c s) e Hs He).
Qed.

Lemma number_text_no_space (x : string) :
  number_text x = true -> every (fun c => negb (Text.is_space c)) x = true.
Proof.
  assert (Hd : forall d, every Text.is_digit d = true ->
                         every (fun c => negb (Text.is_space c)) d = true).
  { intros d. apply every_impl. intros c Hc.
    rewrite (digit_not_space c Hc). reflexivity. }
  unfold number_text. destruct x as [|c t]; [reflexivity|].
  destruct (Ascii.eqb c "-") eqn:E; [|apply Hd].
  apply Ascii.eqb_eq in E. subst c. intros H. cbn [every].
  rewrite (Hd t H). reflexivity.
Qed.

(** Stripping a position line leaves a position line with the same
    groups. *)
Lemma pos_line_strip (line x y : string) :
  pos_line line = Some (x, y) ->
  Text.strip line <> "" /\ pos_line (Text.strip line) = Some (x, y).
Proof.
  intros H. apply pos_line_spec in H as (e & -> & Hx & Hy & He).
  assert (Hs : Text.strip ("X" ++ x ++ "Y" ++ y ++ e) = "X" ++ x ++ "Y" ++ y).
  { replace ("X" ++ x ++ "Y" ++ y ++ e) with (("X" ++ x ++ "Y" ++ y) ++ e).
    - apply strip_line_end; [|exact He|discriminate].
      change ("X" ++ x ++ "Y" ++ y) with (String "X" (x ++ String "Y" y)).
      cbn [every]. rewrite every_app. cbn [every].
      rewrite (number_text_no_space x Hx), (number_text_no_space y Hy). reflexivity.
    - rewrite !append_assoc. reflexivity. }
  rewrite Hs. split; [discriminate|].
  apply pos_line_spec. exists "". rewrite append_nil_r.
  split; [reflexivity|]. split; [exact Hx|]. split; [exact Hy|]. left. reflexivity.
Qed.

End LineFacts.

Module FormatFacts.
Import LineFacts.
Local Open Scope string_scope.

Lemma uint_digits (d : Decimal.uint) :
  every Text.is_digit (NilEmpty.string_of_uint d) = true.
Proof. induction d; cbn [NilEmpty.string_of_uint every]; try rewrite IHd; reflexivity. Qed.

Lemma str_of_Z_digits (n : Z) : 0 <= n -> every Text.is_digit (Text.str_of_Z n) = true.
Proof.
  intros Hn. unfold Text.str_of_Z. destruct n as [|p|p]; [reflexivity| |lia].
  cbn [Z.to_int NilZero.string_of_int]. unfold NilZero.string_of_uint.
  destruct (Pos.to_uint p) eqn:E; try reflexivity; rewrite <- E; apply uint_digits.
Qed.

Lemma every_replicate (p : ascii -> bool) (k : nat) (c : ascii) :
  p c = true -> every p (Text.replicate k c) = true.
Proof.
  intros Hc. induction k as [|k IH]; [reflexivity|].
  cbn [Text.replicate every]. rewrite Hc, IH. reflexivity.
Qed.

Lemma every_rstrip_by (p q : ascii -> bool) (s : string) :
  every p s = true -> every p (Text.rstrip_by q s) = true.
Proof.
  induction s as [|c s IH]; [reflexivity|]. cbn [every Text.rstrip_by].
  intros H. apply andb_true_iff in H as [Hc Hs]. specialize (IH Hs).
  destruct (Text.rstrip_by q s) as [|b t].
  - destruct (q c); [reflexivity|]. cbn [every]. rewrite Hc. reflexivity.
  - cbn [every] in IH |- *. rewrite Hc, IH. reflexivity.
Qed.

Lemma digits_text_digits (n : Z) :
  0 <= n -> every Text.is_digit (digits_text n) = true /\ digits_text n <> "".
Proof.
  intros Hn. unfold digits_text.
  assert (H : every Text.is_digit
                (Text.rstrip "0" (Text.rjust 6 "0" (Text.str_of_Z n))) = true).
  { unfold Text.rstrip. apply every_rstrip_by. unfold Text.rjust.
    rewrite every_app, (every_replicate _ _ "0" eq_refl), (str_of_Z_digits n Hn).
    reflexivity. }
  destruct (Text.rstrip "0" (Text.rjust 6 "0" (Text.str_of_Z n))) as [|c t].
  - split; [reflexivity|discriminate].
  - split; [exact H|discriminate].
Qed.

(** A field of [prgPos]: a sign or none, and digits. *)
Lemma field_number_text (sign d : string) :
  sign = "-" \/ sign = "" -> every Text.is_digit d = true ->
  number_text (sign ++ d) = true.
Proof.
  intros [->| ->] Hd.
  - exact Hd.
  - rewrite append_nil_l. unfold number_text. destruct d as [|c t]; [reflexivity|].
    destruct (Ascii.eqb c "-") eqn:E; [|exact Hd].
    apply Ascii.eqb_eq in E. subst c. discriminate.
Qed.

Lemma sign_text_cases (x : pynum) : sign_text x = "-" \/ sign_text x = "".
Proof. unfold sign_text. destruct (Num.ltb x (PInt 0)); auto. Qed.

(** What [prgPos] returns, when it returns. *)
Lemma prgPos_Ok (x y : pynum) (text : string) :
  prgPos x y = Ok text ->
  exists nx ny : Z,
    Num.scale1000 x = Ok nx /\ Num.scale1000 y = Ok ny
    /\ text = "X" ++ sign_text x ++ digits_text (Z.abs nx)
                  ++ "Y" ++ sign_text y ++ digits_text (Z.abs ny).
Proof.
  unfold prgPos.
  destruct (Num.geb (Num.abs x) (PInt (10 ^ 3)) || Num.geb (Num.abs y) (PInt (10 ^ 3)));
    [discriminate|].
  intros H. apply bind_Ok in H as (ax & Hx & H).
  apply bind_Ok in H as (ay & Hy & H).
  apply fmap_Ok in Hx as (nx & Hnx & <-). apply fmap_Ok in Hy as (ny & Hny & <-).
  injection H as <-. exists nx, ny. auto.
Qed.

End FormatFacts.

(** X16: what [prgPos] returns is a line of [posPattern], with its line
    end or without it: the patterns of [loadPrgData] and of [calc_shift]
    read it as a position whose two groups are the fields written, a sign
    or none and the digits of the rounded thousandths; stripping the line
    gives the text back. *)
Theorem formatted_position_is_position_line (x y : pynum) (text : string) :
  prgPos x y = Ok text ->
  exists nx ny : Z,
    Num.scale1000 x = Ok nx /\ Num.scale1000 y = Ok ny
    /\ Shift.pos_line text
       = Some ((sign_text x ++ digits_text (Z.abs nx))%string,
               (sign_text y ++ digits_text (Z.abs ny))%string)
    /\ Shift.pos_line (text ++ newline)%string = Shift.pos_line text
    /\ Text.strip (text ++ newline)%string = text.
Proof.
  intros H. apply FormatFacts.prgPos_Ok in H as (nx & ny & Hx & Hy & ->).
  exists nx, ny. split; [exact Hx|]. split; [exact Hy|].
  destruct (FormatFacts.digits_text_digits (Z.abs nx) (Z.abs_nonneg nx)) as [Hdx _].
  destruct (FormatFacts.digits_text_digits (Z.abs ny) (Z.abs_nonneg ny)) as [Hdy _].
  pose proof (FormatFacts.field_number_text _ _ (FormatFacts.sign_text_cases x) Hdx) as Hfx.
  pose proof (FormatFacts.field_number_text _ _ (FormatFacts.sign_text_cases y) Hdy) as Hfy.
  assert (Ht : ("X" ++ sign_text x ++ digits_text (Z.abs nx)
                    ++ "Y" ++ sign_text y ++ digits_text (Z.abs ny))%string
               = ("X" ++ (sign_text x ++ digits_text (Z.abs nx))
                      ++ "Y" ++ (sign_text y ++ digits_text (Z.abs ny)))%string).
  { rewrite !LineFacts.append_assoc. reflexivity. }
  rewrite Ht. clear Ht.
  set (fx := (sign_text x ++ digits_text (Z.abs nx))%string) in *.
  set (fy := (sign_text y ++ digits_text (Z.abs ny))%string) in *.
  assert (Hp : forall e, line_end e ->
                 Shift.pos_line (("X" ++ fx ++ "Y" ++ fy) ++ e)%string = Some (fx, fy)).
  { intros e He. apply LineFacts.pos_line_spec. exists e.
    split; [rewrite !LineFacts.append_assoc; reflexivity|]. auto. }
  pose proof (Hp ""%string (or_introl eq_refl)) as Hp0.
  rewrite LineFacts.append_nil_r in Hp0.
  split; [exact Hp0|]. split.
  - rewrite Hp0. apply Hp. right. reflexivity.
  - apply LineFacts.strip_line_end; [|right; reflexivity|discriminate].
    change ("X" ++ fx ++ "Y" ++ fy)%string with (String "X" (fx ++ String "Y" fy)).
    cbn [every]. rewrite LineFacts.every_app. cbn [every].
    rewrite (LineFacts.number_text_no_space fx Hfx),
            (LineFacts.number_text_no_space fy Hfy).
    reflexivity.
Qed.

Lemma formatted_position_is_position_line_witness :
  exists nx ny : Z,
    Num.scale1000 (PFloat 1.5) = Ok nx /\ Num.scale1000 (PFloat (-2)) = Ok ny
    /\ Shift.pos_line "X0015Y-002"
       = Some ((sign_text (PFloat 1.5) ++ digits_text (Z.abs nx))%string,
               (sign_text (PFloat (-2)) ++ digits_text (Z.abs ny))%string)
    /\ Shift.pos_line ("X0015Y-002" ++ newline)%string = Shift.pos_line "X0015Y-002"
    /\ Text.strip ("X0015Y-002" ++ newline)%string = "X0015Y-002"%string.
Proof.
  apply (formatted_position_is_position_line (PFloat 1.5) (PFloat (-2)) "X0015Y-002").
  vm_compute. reflexivity.
Defined.

Module SampleFacts.
Import Prg.
Local Open Scope string_scope.

(** The lines [toolPattern] of [calc_shift] lets through. *)
Lemma tool_line_enum (line : string) :
  Shift.tool_line line = true ->
  exists (z : string) (d : ascii) (e : string),
    line = "T" ++ z ++ String d e
    /\ (z = "" \/ z = "0")
    /\ d ∈ ["2"; "3"; "4"; "5"; "6"; "7"; "8"; "9"]%char
    /\ line_end e.
Proof.
  assert (Hd : forall d r,
            ((50 <=? nat_of_ascii d) && (nat_of_ascii d <=? 57))%nat && Log.at_end r = true ->
            d ∈ ["2"; "3"; "4"; "5"; "6"; "7"; "8"; "9"]%char /\ line_end r).
  { intros d r H. apply andb_true_iff in H as [H He].
    split; [|apply LineFacts.at_end_line_end, He].
    destruct d as [[] [] [] [] [] [] [] []]; try discriminate; repeat constructor. }
  unfold Shift.tool_line. destruct line as [|c t]; [discriminate|].
  intros H. apply andb_true_iff in H as [Hc H].
  apply Ascii.eqb_eq in Hc. subst c.
  destruct t as [|z t']; [discriminate|].
  destruct (Ascii.eqb z "0") eqn:Ez.
  - apply Ascii.eqb_eq in Ez. subst z.
    destruct t' as [|d r]; [discriminate|].
    destruct (Hd d r H) as [Hin He].
    exists "0", d, r. auto.
  - destruct (Hd z t' H) as [Hin He].
    exists "", z, t'. auto.
Qed.

(** Such a line selects a tool in [loadPrgData] as well. *)
Lemma tool_line_load (line : string) (st : state) :
  Shift.tool_line line = true ->
  exists t : string,
    line_step st line = Ok (State (Some t) st.(tool_size) st.(tools) st.(m18)).
Proof.
  intros H. apply tool_line_enum in H as (z & d & e & -> & Hz & Hd & He).
  destruct Hz as [->| ->]; destruct He as [->| ->];
    repeat (apply elem_of_cons in Hd as [->|Hd]; [eexists; reflexivity|]);
    apply elem_of_nil in Hd; contradiction.
Qed.

(** A line never takes a tool or a position away. *)
Lemma line_step_grows (st st' : state) (line : string) :
  line_step st line = Ok st' ->
  (is_Some st.(curTool) -> is_Some st'.(curTool))
  /\ (forall k, is_Some (st.(tools) !! k) -> is_Some (st'.(tools) !! k)).
Proof.
  unfold line_step.
  destruct (String.eqb (Text.strip line) ""); [intros [= <-]; auto|].
  destruct (Shift.pos_line (Text.strip line)) as [[x y]|].
  - intros H. apply bind_Ok in H as (pos & _ & H).
    destruct (curTool st) as [t|] eqn:Ec; injection H as <-; cbn.
    + split; [auto|]. intros k Hk.
      destruct (decide (pos = k)) as [->|Hne].
      * rewrite lookup_insert_eq. eauto.
      * rewrite lookup_insert_ne by exact Hne. exact Hk.
    + rewrite Ec. auto.
  - destruct (tool_size_line (Text.strip line)); [intros [= <-]; auto|].
    destruct (tool_line (Text.strip line)); [intros [= <-]; cbn; eauto|].
    destruct (m18_line (Text.strip line)); [|intros [= <-]; auto].
    destruct (curTool st) eqn:Ec; intros [= <-]; cbn; rewrite ?Ec; auto.
Qed.

Lemma lines_step_grows (prg : list string) : forall st st' : state,
  lines_step st prg = Ok st' ->
  forall k, is_Some (st.(tools) !! k) -> is_Some (st'.(tools) !! k).
Proof.
  unfold lines_step. induction prg as [|line prg IH]; intros st st' H k Hk.
  - injection H as <-. exact Hk.
  - apply LoadFacts.foldl_Ok_cons in H as (st1 & H1 & H).
    apply (IH st1 st' H). apply (line_step_grows st st1 line H1), Hk.
Qed.

(** A position line read under a tool: the key recorded is the key of the
    position sampled. *)
Lemma pos_line_load (line x y t : string) (st st' : state) (nx ny : pynum) (p : Z * Z) :
  Shift.pos_line line = Some (x, y) -> st.(curTool) = Some t ->
  line_step st line = Ok st' ->
  parseNumber x 3 true = Ok nx -> parseNumber y 3 true = Ok ny ->
  Shift.getIntPos (PNum nx) (PNum ny) = Ok p ->
  st'.(tools) = <[key_of p := t]> st.(tools) /\ st'.(curTool) = Some t.
Proof.
  intros Hp Hc Hstep Hx Hy Hg.
  destruct (LineFacts.pos_line_strip line x y Hp) as [Hne Hps].
  unfold line_step in Hstep. rewrite Hps, Hc in Hstep.
  destruct (String.eqb (Text.strip line) "") eqn:Ee;
    [apply String.eqb_eq in Ee; contradiction|].
  apply bind_Ok in Hstep as (pos & Hpos & [= <-]). cbn.
  split; [|reflexivity]. f_equal.
  unfold Shift.getIntPos in Hg. cbn in Hg.
  apply bind_Ok in Hg as (gx & Hgx & Hg). apply bind_Ok in Hg as (gy & Hgy & [= <-]).
  assert (Hkx : grid_of (PStr x) = Ok gx).
  { unfold grid_of, decode_text. rewrite Hx. exact Hgx. }
  assert (Hky : grid_of (PStr y) = Ok gy).
  { unfold grid_of, decode_text. rewrite Hy. exact Hgy. }
  rewrite (packPos_grid _ _ gx gy Hkx Hky) in Hpos.
  apply StructFacts.pack_ii_Ok in Hpos as (_ & _ & ->). reflexivity.
Qed.

Lemma scan_in_load_lines (sample : Z) (prg : list string) :
  forall (curS : option string) (acc res : list (Z * Z)) (st st' : state),
    scan_in_load curS acc st ->
    lines_step st prg = Ok st' ->
    Shift.scan_prg sample curS acc prg = Ok res ->
    forall p, p ∈ res -> is_Some (st'.(tools) !! key_of p).
Proof.
  induction prg as [|line prg IH]; intros curS acc res st st' [Hcur Hacc] Hl Hs.
  - injection Hs as <-. injection Hl as <-. exact Hacc.
  - unfold lines_step in Hl.
    apply LoadFacts.foldl_Ok_cons in Hl as (st1 & H1 & Hl). fold (lines_step st1 prg) in Hl.
    destruct (line_step_grows st st1 line H1) as [Hgc Hgt].
    cbn [Shift.scan_prg] in Hs.
    apply bind_Ok in Hs as ([curS' acc'] & Hstep & Hs).
    assert (HJ : scan_in_load curS' acc' st1).
    { destruct (Shift.tool_line line) eqn:Et.
      - injection Hstep as <- <-. split.
        + intros _. destruct (tool_line_load line st Et) as [t Ht].
          rewrite Ht in H1. injection H1 as <-. cbn. eauto.
        + intros p Hp. apply Hgt, Hacc, Hp.
      - destruct curS as [tS|].
        + destruct (Shift.pos_line line) as [[x y]|] eqn:Ep.
          * apply bind_Ok in Hstep as (nx & Hx & Hstep).
            apply bind_Ok in Hstep as (ny & Hy & Hstep).
            apply bind_Ok in Hstep as (p & Hg & [= <- <-]).
            destruct (Hcur ltac:(eauto)) as [t Hc].
            destruct (pos_line_load line x y t st st1 nx ny p Ep Hc H1 Hx Hy Hg)
              as [Ht Hc1].
            split; [intros _; rewrite Hc1; eauto|].
            intros q Hq. apply elem_of_app in Hq as [Hq|Hq].
            -- apply Hgt, Hacc, Hq.
            -- apply list_elem_of_singleton in Hq. subst q.
               rewrite Ht, lookup_insert_eq. eauto.
          * injection Hstep as <- <-. split.
            -- intros H. apply Hgc, Hcur, H.
            -- intros p Hp. apply Hgt, Hacc, Hp.
        + assert (Hst : (curS', acc') = (None, acc)).
          { destruct (Shift.pos_line line) as [[x y]|]; congruence. }
          injection Hst as -> ->. split.
          * intros [? [=]].
          * intros p Hp. apply Hgt, Hacc, Hp. }
    destruct (Z.of_nat (length acc') =? sample)%Z.
    + injection Hs as <-. intros p Hp.
      apply (lines_step_grows prg st1 st' Hl). apply HJ, Hp.
    + apply (IH curS' acc' res st1 st' HJ Hl Hs).
Qed.

End SampleFacts.

(** X17: every position of the program that [calc_shift] samples is a
    key of the tool map [loadPrgData] builds from the same program: the
    offset is computed from holes the window can find again. *)
Theorem sampled_positions_are_program_keys
    (prg : list string) (sample : Z) (prg_pos : list (Z * Z))
    (tool_size : gmap string string) (tools : gmap (list Byte.byte) string)
    (m18 : gmap string string) :
  Prg.loadPrgData prg = Ok (tool_size, tools, m18) ->
  Shift.scan_prg sample None [] prg = Ok prg_pos ->
  forall p : Z * Z, p ∈ prg_pos -> is_Some (tools !! key_of p).
Proof.
  unfold Prg.loadPrgData. intros Hl Hs.
  apply bind_Ok in Hl as (st & Hst & [= <- <- <-]).
  apply (SampleFacts.scan_in_load_lines sample prg None [] prg_pos Prg.init st);
    [|exact Hst|exact Hs].
  split; [intros [? [=]]|]. intros p Hp. apply elem_of_nil in Hp. contradiction.
Qed.

Lemma sampled_positions_are_program_keys_witness :
  is_Some (loaded_tools (Prg.loadPrgData drill_program) !! key_of (2000, 3000)).
Proof.
  apply (sampled_positions_are_program_keys drill_program 10 [(2000, 3000)]
           (loaded_sizes (Prg.loadPrgData drill_program))
           (loaded_tools (Prg.loadPrgData drill_program))
           (loaded_depths (Prg.loadPrgData drill_program))).
  - apply PrgFacts.loaded_maps_eq. vm_compute. reflexivity.
  - vm_compute. reflexivity.
  - constructor.
Defined.

(** ** Edge cases of the parsers *)

Module BlankFacts.
Local Open Scope string_scope.

Lemma lstrip_blank (s : string) : every Text.is_space s = true -> Text.lstrip s = "".
Proof.
  induction s as [|c s IH]; [reflexivity|]. cbn [every Text.lstrip].
  intros H. apply andb_true_iff in H as [Hc Hs]. rewrite Hc. apply IH, Hs.
Qed.

Lemma strip_blank (s : string) : every Text.is_space s = true -> Text.strip s = "".
Proof. intros H. unfold Text.strip. rewrite (lstrip_blank s H). reflexivity. Qed.

End BlankFacts.

(** X18: [parseNumber] returns the int 0 for the empty text alone: a
    text that is not empty and holds nothing but blanks is stripped to
    nothing, and reading its first character raises an [IndexError],
    whatever the format asked for. *)
Theorem blank_text_raises_index_error (s : string) (length : nat) (lead_zero : bool) :
  s <> ""%string -> every Text.is_space s = true ->
  parseNumber s length lead_zero = Err PyIndexError
  /\ parseNumber "" length lead_zero = Ok (PInt 0).
Proof.
  intros Hne Hs. split; [|reflexivity]. unfold parseNumber.
  destruct s as [|c t]; [contradiction|].
  rewrite (BlankFacts.strip_blank _ Hs). reflexivity.
Qed.

Lemma blank_text_raises_index_error_witness :
  parseNumber " " 3 true = Err PyIndexError
  /\ parseNumber "" 3 true = Ok (PInt 0).
Proof.
  apply (blank_text_raises_index_error " " 3 true).
  - discriminate.
  - reflexivity.
Defined.

Module RowFacts.
Import Log.

Lemma short_row_step (month day : string) (st : state) (row : list string) :
  (length row < 2)%nat -> row_step month day st row = Err PyIndexError.
Proof.
  intros H. unfold row_step, read_row.
  destruct row as [|t [|h row]]; [reflexivity|reflexivity|cbn in H; lia].
Qed.

Lemma rows_step_app (month day : string) (st : state) (a b : list (list string)) :
  rows_step month day st (a ++ b)
  = match rows_step month day st a with
    | Ok st1 => rows_step month day st1 b
    | Err e => Err e
    end.
Proof.
  unfold rows_step. rewrite foldl_app.
  destruct (foldl _ (Ok st) a) as [st1|e]; [reflexivity|].
  apply LoadFacts.foldl_Err.
Qed.

Lemma rows_step_cons (month day : string) (st : state) (row : list string)
    (rows : list (list string)) :
  rows_step month day st (row :: rows)
  = match row_step month day st row with
    | Ok st1 => rows_step month day st1 rows
    | Err e => Err e
    end.
Proof.
  unfold rows_step. cbn [foldl].
  change (Ok st ≫= _) with (row_step month day st row).
  destruct (row_step month day st row) as [st1|e]; [reflexivity|].
  apply LoadFacts.foldl_Err.
Qed.

End RowFacts.

(** X19: a row with fewer than two cells, such as the empty row an empty
    line of the file gives, makes the load fail: never is the row passed
    over.  When the file is found, is named as a record file, has its
    header and the rows before are read, the exception is the
    [IndexError] of reading the cell that is not there. *)
Theorem short_row_aborts_load
    (fs : string -> option (list (list string))) (path : string)
    (header : list string) (before after : list (list string)) (row : list string) :
  fs path = Some (header :: before ++ row :: after) ->
  (length row < 2)%nat ->
  is_ok (Log.loadBackDrillData fs [path]) = false
  /\ (forall (month day : string) (st : Log.state),
        Log.match_data_file path = Some (month, day) ->
        Log.bad_header header = false ->
        Log.rows_step month day Log.init before = Ok st ->
        Log.loadBackDrillData fs [path] = Err PyIndexError).
Proof.
  intros Hfs Hrow.
  assert (Hrows : forall month day,
            Log.rows_step month day Log.init (before ++ row :: after)
            = match Log.rows_step month day Log.init before with
              | Ok _ => Err PyIndexError
              | Err e => Err e
              end).
  { intros month day. rewrite RowFacts.rows_step_app.
    destruct (Log.rows_step month day Log.init before) as [st1|e]; [|reflexivity].
    rewrite RowFacts.rows_step_cons, (RowFacts.short_row_step month day st1 row Hrow).
    reflexivity. }
  unfold Log.loadBackDrillData. rewrite sort_files_one. cbn [foldl].
  change (Ok Log.init ≫= _) with (Log.file_step fs Log.init path).
  unfold Log.file_step. rewrite Hfs. split.
  - destruct (Log.match_data_file path) as [[month day]|]; [|reflexivity].
    destruct (Log.bad_header header); [reflexivity|].
    rewrite Hrows. destruct (Log.rows_step month day Log.init before); reflexivity.
  - intros month day st Hm Hh Hb. rewrite Hm, Hh, Hrows, Hb. reflexivity.
Qed.

Lemma short_row_aborts_load_witness :
  is_ok (Log.loadBackDrillData
           (one_file "pos0102.dat" (log_header :: [full_row] ++ [] :: [wrap_row]))
           ["pos0102.dat"%string]) = false
  /\ Log.loadBackDrillData
       (one_file "pos0102.dat" (log_header :: [full_row] ++ [] :: [wrap_row]))
       ["pos0102.dat"%string] = Err PyIndexError.
Proof.
  destruct (short_row_aborts_load
              (one_file "pos0102.dat" (log_header :: [full_row] ++ [] :: [wrap_row]))
              "pos0102.dat" log_header [full_row] [wrap_row] [])
    as [Hfail Hindex].
  - reflexivity.
  - cbn. lia.
  - split; [exact Hfail|].
    apply (Hindex "01"%string "02"%string wrap_before); vm_compute; reflexivity.
Defined.

(** ** The rework program *)

Module ReworkFacts.
Import Gui.

Section Rework.

Variable toolPos : gmap (list Byte.byte) string.
Variable toolDepth : gmap string string.
Variable data : list (list pyval).
Variable b : boxes.
Variable threshold : Z.
Variable result : list (list Z).
Variable pre : list string.


Lemma select_tool_blocks (w w' : writer) (tool : string) (body : list string)
    (holes : list nat) :
  select_tool toolDepth w tool = (w', None) ->
  blocks toolPos toolDepth data b threshold result w.(w_curTool) body holes -> w.(written) = pre ++ body ->
  w'.(w_curTool) = Some tool
  /\ exists body', blocks toolPos toolDepth data b threshold result (Some tool) body' holes /\ w'.(written) = pre ++ body'.
Proof.
  unfold select_tool. intros H Hb Hw.
  destruct (decide (w_curTool w = Some tool)) as [Hc|Hc].
  - injection H as <-. split; [exact Hc|]. exists body. rewrite <- Hc. auto.
  - destruct (toolDepth !! tool) as [depth|] eqn:Ed; [|discriminate].
    injection H as <-. cbn. split; [reflexivity|].
    exists (body ++ closing (w_curTool w) ++ [line_of tool; line_of depth]).
    split; [apply blocks_tool; assumption|].
    rewrite Hw. unfold closing. rewrite <- !app_assoc. reflexivity.
Qed.

Lemma hole_step_blocks (w w' : writer) (i : nat) (v : list Z) (body : list string)
    (holes : list nat) :
  result !! i = Some v ->
  hole_step toolPos toolDepth data b threshold w i v = (w', None) ->
  blocks toolPos toolDepth data b threshold result w.(w_curTool) body holes -> w.(written) = pre ++ body ->
  exists body',
    blocks toolPos toolDepth data b threshold result w'.(w_curTool) body' (holes ++ (if reworked toolPos data b threshold result i then [i] else []))
    /\ w'.(written) = pre ++ body'.
Proof.
  intros Hv H Hb Hw. unfold hole_step in H. unfold reworked. rewrite Hv.
  destruct (exceeds b threshold v) as [[|]|e] eqn:Ex; [| |discriminate].
  2:{ injection H as <-. exists body. rewrite app_nil_r. auto. }
  unfold Cell.item in *.
  destruct (data !! i) as [hole|] eqn:Eh; [|discriminate]. cbn in H |- *.
  destruct (hole !! 3%nat) as [x|] eqn:E3; [|discriminate]. cbn in H |- *.
  destruct (hole !! 4%nat) as [y|] eqn:E4; [|discriminate]. cbn in H |- *.
  destruct (packPos x y) as [pos|e] eqn:Ep; [|discriminate]. cbn in H |- *.
  destruct (toolPos !! pos) as [tool|] eqn:Et.
  2:{ injection H as <-. exists body. rewrite bool_decide_eq_false_2.
      - rewrite app_nil_r. auto.
      - intros [? [=]]. }
  rewrite bool_decide_eq_true_2 by eauto.
  destruct (select_tool toolDepth w tool) as [w1 [f|]] eqn:Es; [discriminate|].
  destruct (select_tool_blocks w w1 tool body holes Es Hb Hw)
    as (Hc1 & body1 & Hb1 & Hw1).
  destruct (prgPos_cells x y) as [text|e] eqn:Et'; [|discriminate].
  injection H as <-. cbn. rewrite Hc1.
  exists (body1 ++ [text; newline_text]). split.
  - apply blocks_hole; [exact Hb1|].
    exists v, hole, x, y, pos. repeat split; assumption.
  - rewrite Hw1, <- app_assoc. reflexivity.
Qed.

Lemma holes_step_blocks (rest : list (list Z)) :
  forall (i : nat) (w w' : writer) (body : list string) (holes : list nat),
    (forall j, rest !! j = result !! (i + j)%nat) ->
    holes_step toolPos toolDepth data b threshold w i rest = (w', None) ->
    blocks toolPos toolDepth data b threshold result w.(w_curTool) body holes -> w.(written) = pre ++ body ->
    exists body',
      blocks toolPos toolDepth data b threshold result w'.(w_curTool) body' (holes ++ filter (fun j => reworked toolPos data b threshold result j = true)
                                                     (seq i (length rest)))
      /\ w'.(written) = pre ++ body'.
Proof.
  induction rest as [|v rest IH]; intros i w w' body holes Hr H Hb Hw.
  - injection H as <-. exists body. cbn. rewrite app_nil_r. auto.
  - cbn [Gui.holes_step] in H.
    destruct (hole_step toolPos toolDepth data b threshold w i v) as [w1 [f|]] eqn:Eh; [discriminate|].
    assert (Hv : result !! i = Some v).
    { pose proof (Hr 0%nat) as H0. rewrite Nat.add_0_r in H0.
      rewrite <- H0. reflexivity. }
    destruct (hole_step_blocks w w1 i v body holes Hv Eh Hb Hw) as (body1 & Hb1 & Hw1).
    assert (Hr' : forall j, rest !! j = result !! (S i + j)%nat).
    { intros j. pose proof (Hr (S j)) as Hj. cbn [lookup list_lookup] in Hj.
      replace (S i + j)%nat with (i + S j)%nat by lia. exact Hj. }
    destruct (IH (S i) w1 w' body1 _ Hr' H Hb1 Hw1) as (body' & Hb' & Hw').
    exists body'. split; [|exact Hw'].
    cbn [length seq]. rewrite filter_cons.
    destruct (reworked toolPos data b threshold result i) eqn:Er.
    + rewrite decide_True by reflexivity. rewrite <- app_assoc in Hb'. exact Hb'.
    + rewrite decide_False by discriminate. rewrite app_nil_r in Hb'. exact Hb'.
Qed.

(** With a depth for every tool, no line asks for a depth that is not
    there. *)
Lemma hole_step_key (w : writer) (i : nat) (v : list Z) :
  (forall pos t, toolPos !! pos = Some t -> is_Some (toolDepth !! t)) ->
  (hole_step toolPos toolDepth data b threshold w i v).2 <> Some KeyError.
Proof.
  intros Hd. unfold Gui.hole_step.
  destruct (exceeds b threshold v) as [[|]|e]; [|discriminate|discriminate].
  destruct (_ ≫= _) as [[[x y] pos]|e]; [|discriminate].
  destruct (toolPos !! pos) as [tool|] eqn:Et; [|discriminate].
  destruct (Hd pos tool Et) as [depth Hdepth].
  unfold select_tool.
  destruct (decide (w_curTool w = Some tool)).
  - destruct (prgPos_cells x y); discriminate.
  - rewrite Hdepth. destruct (prgPos_cells x y); discriminate.
Qed.

Lemma holes_step_key (rest : list (list Z)) : forall (w : writer) (i : nat),
  (forall pos t, toolPos !! pos = Some t -> is_Some (toolDepth !! t)) ->
  (holes_step toolPos toolDepth data b threshold w i rest).2 <> Some KeyError.
Proof.
  induction rest as [|v rest IH]; intros w i Hd; [discriminate|].
  cbn [Gui.holes_step].
  pose proof (hole_step_key w i v Hd) as Hk.
  destruct (hole_step toolPos toolDepth data b threshold w i v) as [w1 [f|]]; [exact Hk|]. apply IH, Hd.
Qed.

End Rework.

End ReworkFacts.

(** X20: the rework program, when [output_prg] writes it to its end:
    the lines of the program before its first tool line, then the holes
    of the records that pass the threshold on a checked axis at a
    position the program knows, each one under the tool the program
    drills it with, in the order of the records and none left out; every
    tool line is followed by the depth of its tool, every change of tool
    and the last tool are closed by [M19], and [T00] and [M30] end the
    program. *)
Theorem rework_program_well_formed
    (toolPos : gmap (list Byte.byte) string) (toolDepth : gmap string string)
    (data : list (list pyval)) (b : Gui.boxes) (threshold : Z)
    (prg : list string) (result : list (list Z)) (out : list string) :
  Gui.output_prg toolPos toolDepth data b threshold prg result = (out, None) ->
  exists (cur : option string) (body : list string),
    blocks toolPos toolDepth data b threshold result cur body
      (filter (fun i => reworked toolPos data b threshold result i = true)
              (seq 0 (length result)))
    /\ out = Gui.preamble prg ++ body ++ closing cur
                 ++ [Gui.line_of "T00"; Gui.line_of "M30"].
Proof.
  unfold Gui.output_prg. intros H.
  destruct (Gui.holes_step toolPos toolDepth data b threshold
              (Gui.Writer (Gui.preamble prg) None) 0 result) as [w [f|]] eqn:Eh;
    [discriminate|].
  injection H as <-.
  destruct (ReworkFacts.holes_step_blocks toolPos toolDepth data b threshold result
              (Gui.preamble prg) result 0 (Gui.Writer (Gui.preamble prg) None) w [] [])
    as (body & Hb & Hw).
  - intros j. reflexivity.
  - exact Eh.
  - apply blocks_none.
  - cbn. rewrite app_nil_r. reflexivity.
  - exists (Gui.w_curTool w), body. split; [exact Hb|].
    rewrite Hw, <- app_assoc. reflexivity.
Qed.

Lemma rework_program_well_formed_witness :
  exists (cur : option string) (body : list string),
    blocks (loaded_tools (Prg.loadPrgData drill_program))
      (loaded_depths (Prg.loadPrgData drill_program))
      rework_records all_boxes 2 rework_weights cur body
      (filter (fun i => reworked (loaded_tools (Prg.loadPrgData drill_program))
                          rework_records all_boxes 2 rework_weights i = true)
              (seq 0 (length rework_weights)))
    /\ rework_written.1
       = Gui.preamble drill_program ++ body ++ closing cur
           ++ [Gui.line_of "T00"; Gui.line_of "M30"].
Proof.
  apply (rework_program_well_formed (loaded_tools (Prg.loadPrgData drill_program))
           (loaded_depths (Prg.loadPrgData drill_program))
           rework_records all_boxes 2 drill_program rework_weights).
  vm_compute. reflexivity.
Defined.

(** X21: when the depth map has a depth for every tool of the tool map,
    [output_prg] never stops on the [KeyError] of [self.toolDepth[tool]].
    The maps of a program need not be so: when the first record passes
    the threshold at a position whose tool has no depth, the writing stops
    on that [KeyError] after the line of the tool, and the file is left
    without its end. *)
Theorem depth_of_every_tool_no_key_error
    (toolPos : gmap (list Byte.byte) string) (toolDepth : gmap string string)
    (data : list (list pyval)) (b : Gui.boxes) (threshold : Z)
    (prg : list string) (result : list (list Z)) :
  ((forall pos t, toolPos !! pos = Some t -> is_Some (toolDepth !! t)) ->
   (Gui.output_prg toolPos toolDepth data b threshold prg result).2
   <> Some Gui.KeyError)
  /\
  (forall (v : list Z) (rest : list (list Z)) (hole : list pyval) (x y : pyval)
          (pos : list Byte.byte) (tool : string),
      result = v :: rest -> Gui.exceeds b threshold v = Ok true ->
      data !! 0%nat = Some hole -> hole !! 3%nat = Some x -> hole !! 4%nat = Some y ->
      packPos x y = Ok pos -> toolPos !! pos = Some tool ->
      toolDepth !! tool = None ->
      Gui.output_prg toolPos toolDepth data b threshold prg result
      = (Gui.preamble prg ++ [Gui.line_of tool], Some Gui.KeyError)).
Proof.
  split.
  - intros Hd. unfold Gui.output_prg.
    pose proof (ReworkFacts.holes_step_key toolPos toolDepth data b threshold result
                  (Gui.Writer (Gui.preamble prg) None) 0 Hd) as Hk.
    destruct (Gui.holes_step _ _ _ _ _ _ _ _) as [w [f|]]; [exact Hk|discriminate].
  - intros v rest hole x y pos tool -> Hx Hh H3 H4 Hp Ht Hd.
    unfold Gui.output_prg. cbn [Gui.holes_step]. unfold Gui.hole_step, Cell.item.
    rewrite Hx, Hh. cbn. rewrite H3. cbn. rewrite H4. cbn. rewrite Hp. cbn.
    rewrite Ht. unfold Gui.select_tool. cbn. rewrite Hd. reflexivity.
Qed.

Lemma depth_of_every_tool_no_key_error_witness :
  (Gui.output_prg {[key_of (1000, 2000) := "T01"%string]}
     {["T01"%string := "M18Z-1.5"%string]}
     rework_records all_boxes 2 drill_program rework_weights).2 <> Some Gui.KeyError
  /\ Gui.output_prg {[key_of (1000, 2000) := "T01"%string]} ∅
       rework_records all_boxes 2 drill_program rework_weights
     = (Gui.preamble drill_program ++ [Gui.line_of "T01"], Some Gui.KeyError).
Proof.
  split.
  - apply (depth_of_every_tool_no_key_error
             {[key_of (1000, 2000) := "T01"%string]}
             {["T01"%string := "M18Z-1.5"%string]}
             rework_records all_boxes 2 drill_program rework_weights).
    intros pos t H. apply lookup_singleton_Some in H as [_ <-].
    rewrite lookup_singleton_eq. eauto.
  - apply (proj2 (depth_of_every_tool_no_key_error
             {[key_of (1000, 2000) := "T01"%string]} ∅
             rework_records all_boxes 2 drill_program rework_weights)
             [3; 0; 0; 0; 0; 0]
             [ [0; 0; 0; 0; 0; 4]; [0; 3; 0; 0; 0; 0] ]
             [PStr "01/02 12:00:01"; PNum (PInt 1); PNum (PFloat 1);
              PNum (PFloat 1); PNum (PFloat 2)]
             (PNum (PFloat 1)) (PNum (PFloat 2)) (key_of (1000, 2000))).
    + reflexivity.
    + reflexivity.
    + reflexivity.
    + reflexivity.
    + reflexivity.
    + vm_compute. reflexivity.
    + apply lookup_singleton_eq.
    + apply lookup_empty.
Defined.

(** ** The shift of a log that starts with the sampled holes *)

Module DetectFacts.
Import Shift ShiftFacts.

(** On a window that is consistent with the program sample [judgeShift]
    returns the offset, divided by 1000. *)
Lemma judgeShift_consistent (w p : list (Z * Z)) (sx sy : Z) :
  w <> [] -> consistent sx sy w p ->
  judgeShift w p
  = (dx ← Num.truediv sx 1000; dy ← Num.truediv sy 1000; Ok (VShift dx dy)).
Proof.
  intros Hne Hc. pose proof Hc as [Hlen Hall]. unfold judgeShift.
  rewrite Hlen, Nat.eqb_refl. cbn [negb].
  destruct w as [|m w]; [contradiction|].
  destruct p as [|n p]; [discriminate|].
  cbn [zip zip_with]. rewrite judge_loop_None_cons.
  destruct (Hall 0%nat m n eq_refl eq_refl) as [Hx Hy].
  replace (m.1 - n.1) with sx by lia. replace (m.2 + n.2) with sy by lia.
  apply (agree_zip (sx, sy)) in Hc; [|exact Hlen].
  cbn [zip zip_with] in Hc. apply Forall_cons in Hc as [_ Hc].
  rewrite (judge_loop_Some (sx, sy) _ Hc). reflexivity.
Qed.

(** The windows before the one that has the length of the program sample
    are turned down, and this one is judged. *)
Lemma first_shift_reaches (sample : Z) (prg_pos : list (Z * Z)) (ps : list (Z * Z))
    (dx dy : float) :
  Z.of_nat (length prg_pos) <= sample ->
  forall dp : list (Z * Z),
    (length dp < length prg_pos)%nat ->
    judgeShift (dp ++ take (length prg_pos - length dp) ps) prg_pos
    = Ok (VShift dx dy) ->
    first_shift prg_pos (windows sample dp ps) = Ok (Some (dx, dy)).
Proof.
  intros Hk. induction ps as [|q ps IH]; intros dp Hd Hj.
  - rewrite take_nil, app_nil_r in Hj.
    rewrite WindowFacts.judgeShift_length in Hj by lia. discriminate.
  - cbn [windows first_shift].
    assert (Hs : slide sample dp q = dp ++ [q]).
    { unfold slide. rewrite length_app. cbn [length].
      destruct (sample <? Z.of_nat (length dp + 1)) eqn:E; [|reflexivity].
      apply Z.ltb_lt in E. lia. }
    rewrite Hs.
    destruct (decide (S (length dp) = length prg_pos)) as [He|Hne].
    + replace (length prg_pos - length dp)%nat with 1%nat in Hj by lia.
      cbn [take] in Hj. rewrite take_0 in Hj. rewrite Hj. reflexivity.
    + rewrite WindowFacts.judgeShift_length by (rewrite length_app; cbn; lia). cbn.
      apply IH; [rewrite length_app; cbn; lia|].
      rewrite length_app. cbn [length].
      replace (length prg_pos - length dp)%nat
        with (S (length prg_pos - (length dp + 1)))%nat in Hj by lia.
      cbn [take] in Hj. rewrite <- app_assoc. exact Hj.
Qed.

End DetectFacts.

(** X22: when the positions of the first records, as many as the
    program sample has, are the sampled positions moved by one offset
    (machine X less the offset is program X, the offset less machine Y is
    program Y), the detector returns this offset divided by 1000,
    whatever follows in the log. *)
Theorem consistent_first_window_is_detected
    (prg : list string) (data : list (list pyval)) (sample : Z)
    (prg_pos : list (Z * Z)) (sx sy : Z) (dx dy : float) :
  Shift.scan_prg sample None [] prg = Ok prg_pos ->
  (0 < length prg_pos)%nat -> Z.of_nat (length prg_pos) <= sample ->
  consistent sx sy (take (length prg_pos) (positions data)) prg_pos ->
  Num.truediv sx 1000 = Ok dx -> Num.truediv sy 1000 = Ok dy ->
  Shift.calc_shift prg data sample = Ok (Some (dx, dy)).
Proof.
  intros Hscan Hpos Hk Hc Hdx Hdy. unfold Shift.calc_shift. rewrite Hscan.
  change (Ok prg_pos ≫= _) with (Shift.scan_data sample prg_pos [] data).
  rewrite WindowFacts.scan_data_windows.
  apply (DetectFacts.first_shift_reaches sample prg_pos (positions data) dx dy Hk []).
  - cbn. lia.
  - cbn [app length]. rewrite Nat.sub_0_r.
    rewrite (DetectFacts.judgeShift_consistent _ _ sx sy); [|  |exact Hc].
    + rewrite Hdx, Hdy. reflexivity.
    + destruct Hc as [Hl _]. intros Hn. rewrite Hn in Hl. cbn in Hl. lia.
Qed.

Lemma consistent_first_window_is_detected_witness :
  Shift.calc_shift shift_program [shift_record] 10 = Ok (Some (3, 10)%float).
Proof.
  apply (consistent_first_window_is_detected shift_program [shift_record] 10
           [(2000, 3000)] 3000 10000).
  - vm_compute. reflexivity.
  - cbn. lia.
  - cbn. lia.
  - split; [reflexivity|].
    intros i m n Hm Hn. destruct i as [|i]; [|discriminate].
    vm_compute in Hm. injection Hm as <-. injection Hn as <-. cbn. lia.
  - vm_compute. reflexivity.
  - vm_compute. reflexivity.
Defined.
